(** * puppeteer-vision-mcp: the interaction loop, the executor, the vision
      classifier, the Markdown rules, the scrape and the tool response

    A shallow embedding of

    - [executeAction], [clickElementsByText], [handlePageInteractions]
      (ai/page-interactions.ts),
    - [analyzePageWithAI] (ai/vision-analyzer.ts),
    - the [codeBlocks], [tableCell], [tableRow] and [table] rules of
      [configureTurndownService] (utils/markdown-formatters.ts),
    - [visitWebPage] (scrapers/webpage-scraper.ts),
    - [markCodeParents] (utils/html-helpers.ts) and the marking loops of
      [processHtmlContent] (scrapers/content-processor.ts),
    - the [scrape-webpage] handler of [registerTools] (server/tools.ts).

    Asynchronous code is embedded in a monad [M] of computations that read
    the history of what happened so far, emit the events they cause and end
    in a value or in a thrown error.  The browser page, the file system, the
    clock and the vision model are capabilities whose answers may depend on
    the whole history.  What [JSON.parse] makes of the model's text is a
    [JSONValue]: the source casts it to [AIAction] without a check, so the
    loop may receive [null] or a value without a tag. *)

From Stdlib Require Import List String Ascii ZArith Lia Bool Arith PeanoNat.
From Stdlib Require Import DecimalString DecimalZ DecimalPos.
Import ListNotations.

Local Open Scope string_scope.
Local Open Scope list_scope.

(* ===================================================================== *)
(** * JavaScript strings *)
(* ===================================================================== *)

(** A JavaScript string is a sequence of UTF-16 code units; one [ascii] of a
    Rocq [string] stands for one code unit, so [String.length] is [.length]. *)
Module JS.

Definition nl : ascii := "010"%char.
Definition dq : string := String "034"%char "".
Definition NL : string := String nl "".

(** [s.length], as a number. *)
Definition length (s : string) : Z := Z.of_nat (String.length s).

(** The first [n] code units of [s]. *)
Fixpoint take (n : nat) (s : string) : string :=
  match n, s with
  | S n', String c s' => String c (take n' s')
  | _, _ => ""
  end.

Fixpoint drop (n : nat) (s : string) : string :=
  match n, s with
  | S n', String _ s' => drop n' s'
  | _, _ => s
  end.

(** [s.substring(start, end)]: both indexes are clamped to [0 .. s.length]
    and swapped when [start > end]. *)
Definition substring (s : string) (istart iend : Z) : string :=
  let len := length s in
  let clamp i := Z.min (Z.max i 0) len in
  let a := clamp istart in
  let b := clamp iend in
  let lo := Z.min a b in
  let hi := Z.max a b in
  take (Z.to_nat (hi - lo)) (drop (Z.to_nat lo) s).

(** The code units below 256 that have a lower-case form: [A] to [Z]
    (65-90) and the Latin-1 capitals from 192 to 222, the multiplication
    sign 215 apart.  The sharp s (223) and the y with diaeresis (255) are
    lower-case letters already. *)
Definition is_upper (c : ascii) : bool :=
  let n := nat_of_ascii c in
  ((65 <=? n)%nat && (n <=? 90)%nat)
  || ((192 <=? n)%nat && (n <=? 222)%nat && negb (n =? 215)%nat).

(** The lower-case form of a capital is 32 above it. *)
Definition lower_char (c : ascii) : ascii :=
  if is_upper c then ascii_of_nat (nat_of_ascii c + 32) else c.

(** [s.toLowerCase()], code unit by code unit. *)
Fixpoint toLowerCase (s : string) : string :=
  match s with
  | EmptyString => EmptyString
  | String c s' => String (lower_char c) (toLowerCase s')
  end.

(** [s.includes(t)]. *)
Fixpoint includes (s t : string) : bool :=
  String.prefix t s ||
  match s with
  | EmptyString => false
  | String _ s' => includes s' t
  end.

(** [s.replace(/[:.]/g, '-')]. *)
Fixpoint replace_colon_dot (s : string) : string :=
  match s with
  | EmptyString => EmptyString
  | String c s' =>
      String (if (Ascii.eqb c ":" || Ascii.eqb c ".")%bool then "-"%char else c)
             (replace_colon_dot s')
  end.

(** The template literal's rendering of a non-negative integer. *)
Definition number_to_string (n : Z) : string :=
  NilZero.string_of_int (Z.to_int n).

(** JavaScript truthiness of an optional string: [undefined] and [''] are
    falsy. *)
Definition truthy_string (o : option string) : option string :=
  match o with
  | Some s => if String.eqb s "" then None else Some s
  | None => None
  end.

(** JavaScript truthiness of an optional integer: [undefined] and [0] are
    falsy. *)
Definition truthy_number (o : option Z) : option Z :=
  match o with
  | Some n => if Z.eqb n 0 then None else Some n
  | None => None
  end.

End JS.

(* ===================================================================== *)
(** * Data model (types/index.ts) *)
(* ===================================================================== *)

Definition Error := string.

(** [AIAction]: the tag is kept as the string the classifier sent, so that
    the [default] branch of [executeAction] is reachable as in the source. *)
Record AIAction : Type := mkAction {
  action : string;
  targetText : option string;
  targetSelector : option string;
  inputText : option string;
  scrollAmount : option Z;
  waitTime : option Z;
  reason : option string
}.

(** [{ action: 'none', reason }]. *)
Definition none_action (r : string) : AIAction :=
  mkAction "none" None None None None None (Some r).

(** What [JSON.parse] returns, and so what [analyzePageWithAI] hands to the
    loop under the type [AIAction]: the cast of line 68 checks nothing.  The
    code that receives the value tells three kinds apart.  On [null] the
    first read of a field throws a TypeError.  An object whose [action] is a
    string is read through the interface [AIAction], its other fields absent
    or of their declared types.  Any other value (a boolean, a number, a
    string, an array, an object whose [action] is missing or not a string)
    has a tag that is strictly equal to no string: [shown] is what a
    template literal renders of that tag ([undefined] when it is missing)
    and [shown_reason] the value's [reason], if it has one. *)
Inductive JSONValue : Type :=
| JSON_null
| JSON_action (a : AIAction)
| JSON_other (shown : string) (shown_reason : option string).

(** An action is such a value. *)
Coercion JSON_action : AIAction >-> JSONValue.

(** The TypeError of reading the property [field] of [null]. *)
Definition TypeError_null (field : string) : Error :=
  ("TypeError: Cannot read properties of null (reading '" ++ field ++ "')")%string.

(** A settled promise: what a capability answers. *)
Inductive Settled (A : Type) : Type :=
| Resolved (a : A)
| Rejected (e : Error).
Arguments Resolved {A} a.
Arguments Rejected {A} e.

(** How a computation ends.  [OutOfFuel] is not a JavaScript outcome: it
    marks a model loop that was given too little fuel, and
    [handlePageInteractions_total] shows that it never comes out. *)
Inductive Outcome (A : Type) : Type :=
| Ok (a : A)
| Throw (e : Error)
| OutOfFuel.
Arguments Ok {A} a.
Arguments Throw {A} e.
Arguments OutOfFuel {A}.

(** [await p]. *)
Definition await {A} (p : Settled A) : Outcome A :=
  match p with
  | Resolved a => Ok a
  | Rejected e => Throw e
  end.

Definition map_settled {A B} (f : A -> B) (p : Settled A) : Settled B :=
  match p with
  | Resolved a => Resolved (f a)
  | Rejected e => Rejected e
  end.

(** The chat completion, as far as [analyzePageWithAI] reads it. *)
Record Message : Type := { content : option string }.
Record Choice : Type := { message : option Message }.
Record ChatResponse : Type := { choices : list Choice }.

(** What the console receives; the fields are the values interpolated into
    the source's messages. *)
Inductive LogMsg : Type :=
| LogExecutingAction (a : JSONValue)
| LogClickedSelector (sel : string)
| LogFailedClick (sel : string) (e : Error)
| LogTyped (text sel : string)
| LogFailedType (sel : string) (e : Error)
| LogScrolled (amount : Z)
| LogWaited (ms : Z)
| LogNoActionTaken
| LogClickError (idx : nat) (e : Error)
| LogFrameError (frame : string) (e : Error)
| LogFoundAndClicked (totalClicks : nat) (target : string) (nframes : nat)
| LogFrameCount (frame : string) (count : nat)
| LogNoElementsFound (target : string)
| LogAttempt (n maxAttempts : nat)
| LogSavedScreenshot (filename : string)
| LogNoInteractionsNeeded (r : option string)
| LogSuccess (tag : string) (r : option string)
| LogFailedAction (tag : string)
| LogAIAnalysis (text : string)
| LogFailedParse (e : Error).

(** One event per effect the code has on the world, with the answer the
    world gave. *)
Inductive Event : Type :=
| EvLog (m : LogMsg)
| EvError (m : LogMsg)
| EvScreenshot (r : Settled string)
| EvNow (iso : string)
| EvWriteFile (filename data : string) (r : Settled unit)
| EvChatCreate (image : string) (r : Settled ChatResponse)
| EvWaitForSelector (sel : string) (timeout : Z) (r : Settled unit)
| EvPageClick (sel : string) (r : Settled unit)
| EvPageType (sel text : string) (r : Settled unit)
| EvScrollBy (amount : Z) (r : Settled unit)
| EvSetTimeout (ms : Z)
| EvFrames (n : nat)
| EvFrameEval (frame : string) (r : Settled (list nat))
| EvFrameQuery (frame : string) (r : Settled nat)
| EvElementClick (frame : string) (idx : nat) (r : Settled unit).

Definition Trace := list Event.

(** An element as the in-page callback of [$$eval] sees it. *)
Record Element : Type := { textContent : option string }.

(** An element handle returned by [$$]: clicking it resolves or rejects. *)
Record ElementHandle : Type := { element_click : Settled unit }.

(** A frame of the page at the time [page.frames()] is called. *)
Record Frame : Type := {
  frame_name : string;
  frame_url : string;
  (** the elements ['a, button'] selects when [$$eval] runs, or its rejection *)
  frame_eval : Settled (list Element);
  (** the handles [$$('a, button')] returns, or its rejection *)
  frame_query : Settled (list ElementHandle)
}.

(** The Puppeteer page: every capability answers from the history so far. *)
Record Page : Type := {
  page_screenshot : Trace -> Settled string;
  page_waitForSelector : Trace -> string -> Z -> Settled unit;
  page_click : Trace -> string -> Settled unit;
  page_type : Trace -> string -> string -> Settled unit;
  (** [page.evaluate((amount) => window.scrollBy(0, amount), amount)] *)
  page_scrollBy : Trace -> Z -> Settled unit;
  page_frames : Trace -> list Frame
}.

(** What the modules import besides the page: the clock, the file system,
    the vision model's client and [JSON.parse] (whose result the source casts
    to [AIAction] unchecked). *)
Record Sys : Type := {
  date_toISOString : Trace -> string;
  fs_writeFile : Trace -> string -> string -> Settled unit;
  openai_create : Trace -> string -> Settled ChatResponse;
  JSON_parse : string -> Settled JSONValue
}.

(* ===================================================================== *)
(** * The monad of asynchronous computations *)
(* ===================================================================== *)

(** A computation reads the history and returns its outcome with the events
    it emitted, oldest first. *)
Definition M (A : Type) : Type := Trace -> Outcome A * list Event.

Definition ret {A} (a : A) : M A := fun _ => (Ok a, []).

Definition throw {A} (e : Error) : M A := fun _ => (Throw e, []).

Definition out_of_fuel {A} : M A := fun _ => (OutOfFuel, []).

Definition bind {A B} (m : M A) (f : A -> M B) : M B :=
  fun h =>
    match m h with
    | (Ok a, es) => let '(r, es') := f a (h ++ es) in (r, es ++ es')
    | (Throw e, es) => (Throw e, es)
    | (OutOfFuel, es) => (OutOfFuel, es)
    end.

(** [try { m } catch (e) { handler e }]. *)
Definition try_catch {A} (m : M A) (handler : Error -> M A) : M A :=
  fun h =>
    match m h with
    | (Throw e, es) => let '(r, es') := handler e (h ++ es) in (r, es ++ es')
    | res => res
    end.

Definition emit (ev : Event) : M unit := fun _ => (Ok tt, [ev]).

(** An awaited call of a capability: its answer is what the world decides
    at this point of the history, and the call is recorded with it. *)
Definition call {A} (f : Trace -> Settled A) (ev : Settled A -> Event) : M A :=
  fun h => let r := f h in (await r, [ev r]).

(** A synchronous call that cannot fail ([new Date()], [page.frames()]). *)
Definition ask {A} (f : Trace -> A) (ev : A -> Event) : M A :=
  fun h => (Ok (f h), [ev (f h)]).

(** The outcome of a pure function that may throw ([JSON.parse]). *)
Definition settle {A} (p : Settled A) : M A := fun _ => (await p, []).

Definition console_log (m : LogMsg) : M unit := emit (EvLog m).
Definition console_error (m : LogMsg) : M unit := emit (EvError m).

Declare Scope async_scope.
Delimit Scope async_scope with async.
Notation "x <- c1 ;; c2" := (bind c1 (fun x => c2))
  (at level 61, c1 at next level, right associativity) : async_scope.
Notation "c1 ;; c2" := (bind c1 (fun _ => c2))
  (at level 61, right associativity) : async_scope.
Local Open Scope async_scope.

(** [await Promise.all(ms)] where the promises are started in list order.
    The branches are run one after the other: the order in which concurrent
    branches interleave is not modelled, only what each of them does. *)
Fixpoint Promise_all {A} (ms : list (M A)) : M (list A) :=
  match ms with
  | [] => ret []
  | m :: ms' =>
      a <- m ;;
      rest <- Promise_all ms' ;;
      ret (a :: rest)
  end.

(** [xs.forEach(f)]. *)
Fixpoint forEach {A} (xs : list A) (f : A -> M unit) : M unit :=
  match xs with
  | [] => ret tt
  | x :: xs' => f x ;; forEach xs' f
  end.

(* ===================================================================== *)
(** * ai/vision-analyzer.ts *)
(* ===================================================================== *)

(** The fallback literal of line 66:
    [{"action": "none", "reason": "Failed to get response"}]. *)
Definition fallback_content : string :=
  "{" ++ JS.dq ++ "action" ++ JS.dq ++ ": " ++ JS.dq ++ "none" ++ JS.dq ++ ", "
      ++ JS.dq ++ "reason" ++ JS.dq ++ ": " ++ JS.dq ++ "Failed to get response"
      ++ JS.dq ++ "}".

(** [response.choices[0]?.message.content]: [?.] ends the whole chain with
    [undefined] when there is no first choice; reading [.content] of a
    missing [message] is a TypeError. *)
Definition first_choice_content (response : ChatResponse) : Settled (option string) :=
  match choices response with
  | [] => Resolved None
  | c :: _ =>
      match message c with
      | None => Rejected "TypeError: Cannot read properties of undefined (reading 'content')"
      | Some m => Resolved (content m)
      end
  end.

(** The text handed to [JSON.parse] (line 66): the content, or the fallback
    literal when the content is missing or empty. *)
Definition content_or_fallback (got : option string) : string :=
  match JS.truthy_string got with
  | Some s => s
  | None => fallback_content
  end.

Definition analyzePageWithAI (sys : Sys) (base64Image : string) : M JSONValue :=
  try_catch
    (response <- call (fun h => openai_create sys h base64Image)
                      (EvChatCreate base64Image) ;;
     got <- settle (first_choice_content response) ;;
     let content := content_or_fallback got in
     console_log (LogAIAnalysis content) ;;
     settle (JSON_parse sys content))
    (fun e =>
       console_error (LogFailedParse e) ;;
       ret (JSON_action (none_action "Error parsing AI response"))).

(* ===================================================================== *)
(** * ai/page-interactions.ts *)
(* ===================================================================== *)

(** The per-frame record built by [clickElementsByText]. *)
Record FrameResult : Type := {
  fr_frame : string;
  fr_found : bool;
  fr_count : nat;
  fr_error : option Error
}.

(** [frame.name() || frame.url()]. *)
Definition frame_label (f : Frame) : string :=
  if String.eqb (frame_name f) "" then frame_url f else frame_name f.

(** The callback of [$$eval]: the indexes of the elements whose text, in
    lower case, includes [t]. *)
Fixpoint matching_from (idx : nat) (elements : list Element) (t : string) : list nat :=
  match elements with
  | [] => []
  | el :: rest =>
      let hit :=
        match textContent el with
        | Some text => JS.includes (JS.toLowerCase text) t
        | None => false
        end in
      if hit then idx :: matching_from (S idx) rest t
      else matching_from (S idx) rest t
  end.

Definition matching_indexes (elements : list Element) (t : string) : list nat :=
  matching_from 0 elements t.

(** Lines 110-118: one click, with its own [try]/[catch]. *)
Definition click_index (f : Frame) (allElements : list ElementHandle) (idx : nat)
  : M unit :=
  try_catch
    (match nth_error allElements idx with
     | Some el => call (fun _ => element_click el) (EvElementClick (frame_label f) idx)
     | None => ret tt
     end)
    (fun clickError => console_error (LogClickError idx clickError)).

(** Lines 82-135: what is done in one frame, with its own [try]/[catch]. *)
Definition click_in_frame (searchText : string) (f : Frame) : M FrameResult :=
  try_catch
    (elementIndexes <-
       call (fun _ => map_settled (fun els => matching_indexes els searchText)
                                  (frame_eval f))
            (EvFrameEval (frame_label f)) ;;
     if (List.length elementIndexes =? 0)%nat then
       ret {| fr_frame := frame_label f; fr_found := false; fr_count := 0;
              fr_error := None |}
     else
       allElements <-
         call (fun _ => frame_query f)
              (fun r => EvFrameQuery (frame_label f) (map_settled (@List.length _) r)) ;;
       Promise_all (map (click_index f allElements) elementIndexes) ;;
       ret {| fr_frame := frame_label f; fr_found := true;
              fr_count := List.length elementIndexes; fr_error := None |})
    (fun error =>
       console_error (LogFrameError (frame_label f) error) ;;
       ret {| fr_frame := frame_label f; fr_found := false; fr_count := 0;
              fr_error := Some error |}).

Definition clickElementsByText (page : Page) (targetText : string) : M unit :=
  frames <- ask (page_frames page) (fun fs => EvFrames (List.length fs)) ;;
  let searchText := JS.toLowerCase targetText in
  results <- Promise_all (map (click_in_frame searchText) frames) ;;
  let successfulFrames := filter fr_found results in
  let totalClicks := fold_left (fun sum r => sum + fr_count r) successfulFrames 0 in
  if (0 <? List.length successfulFrames)%nat then
    console_log (LogFoundAndClicked totalClicks targetText (List.length successfulFrames)) ;;
    forEach successfulFrames (fun r => console_log (LogFrameCount (fr_frame r) (fr_count r)))
  else
    console_log (LogNoElementsFound targetText).

(** The parameter is typed [AIAction]; at run time it is whatever the loop
    passes on.  On [null] the template literal of line 13 throws when it
    reads the tag; a value whose tag is no string takes the [default]
    branch, since [switch] compares with strict equality. *)
Definition executeAction (page : Page) (v : JSONValue) : M bool :=
  match v with
  | JSON_null => throw (TypeError_null "action")
  | JSON_other _ _ =>
      console_log (LogExecutingAction v) ;;
      console_log LogNoActionTaken ;;
      ret false
  | JSON_action a =>
  console_log (LogExecutingAction a) ;;
  if String.eqb (action a) "click" then
    match JS.truthy_string (targetText a) with
    | Some text =>
        clickElementsByText page text ;;
        ret true
    | None =>
        match JS.truthy_string (targetSelector a) with
        | Some sel =>
            try_catch
              (call (fun h => page_waitForSelector page h sel 5000)
                    (EvWaitForSelector sel 5000) ;;
               call (fun h => page_click page h sel) (EvPageClick sel) ;;
               console_log (LogClickedSelector sel) ;;
               ret true)
              (fun error =>
                 console_error (LogFailedClick sel error) ;;
                 ret false)
        | None => ret false
        end
    end
  else if String.eqb (action a) "type" then
    match JS.truthy_string (targetSelector a), JS.truthy_string (inputText a) with
    | Some sel, Some text =>
        try_catch
          (call (fun h => page_waitForSelector page h sel 5000)
                (EvWaitForSelector sel 5000) ;;
           call (fun h => page_type page h sel text) (EvPageType sel text) ;;
           console_log (LogTyped text sel) ;;
           ret true)
          (fun error =>
             console_error (LogFailedType sel error) ;;
             ret false)
    | _, _ => ret false
    end
  else if String.eqb (action a) "scroll" then
    match JS.truthy_number (scrollAmount a) with
    | Some amount =>
        call (fun h => page_scrollBy page h amount) (EvScrollBy amount) ;;
        console_log (LogScrolled amount) ;;
        ret true
    | None => ret false
    end
  else if String.eqb (action a) "wait" then
    match JS.truthy_number (waitTime a) with
    | Some ms =>
        emit (EvSetTimeout ms) ;;
        console_log (LogWaited ms) ;;
        ret true
    | None => ret false
    end
  else
    console_log LogNoActionTaken ;;
    ret false
  end.

(** Lines 163-173, the Observing step: the screenshot and its copy on disk. *)
Definition observe (sys : Sys) (page : Page) (attempts maxAttempts : nat) : M string :=
  console_log (LogAttempt (attempts + 1) maxAttempts) ;;
  screenshot <- call (page_screenshot page) EvScreenshot ;;
  iso <- ask (date_toISOString sys) EvNow ;;
  let timestamp := JS.replace_colon_dot iso in
  let filename := ("screenshot-interaction-" ++ timestamp ++ ".png")%string in
  call (fun h => fs_writeFile sys h filename screenshot)
       (EvWriteFile filename screenshot) ;;
  console_log (LogSavedScreenshot filename) ;;
  ret screenshot.

(** How one pass through the body of the [while] ends. *)
Inductive LoopStep : Type :=
| Return (interactionFound : bool)
| Continue (interactionFound : bool).

(** Lines 184-197, the Acting and Settling steps, for an answer [v] whose
    tag renders as [tag] and whose reason is [r]. *)
Definition act_and_settle (page : Page) (interactionFound : bool) (v : JSONValue)
    (tag : string) (r : option string) : M LoopStep :=
  actionSuccess <- executeAction page v ;;
  if (actionSuccess : bool) then
    console_log (LogSuccess tag r) ;;
    emit (EvSetTimeout 2000) ;;
    ret (Continue true)
  else
    console_log (LogFailedAction tag) ;;
    ret (Continue interactionFound).

(** Lines 163-197: the body of the [while] loop.  Line 179 reads the tag of
    the classifier's answer: on [null] that read throws, and a tag that is
    no string is not ['none']. *)
Definition attempt (sys : Sys) (page : Page) (maxAttempts : nat)
    (interactionFound : bool) (attempts : nat) : M LoopStep :=
  screenshot <- observe sys page attempts maxAttempts ;;
  v <- analyzePageWithAI sys screenshot ;;
  match v with
  | JSON_null => throw (TypeError_null "action")
  | JSON_action a =>
      if String.eqb (action a) "none" then
        console_log (LogNoInteractionsNeeded (reason a)) ;;
        ret (Return interactionFound)
      else act_and_settle page interactionFound v (action a) (reason a)
  | JSON_other shown r => act_and_settle page interactionFound v shown r
  end.

(** The [while (attempts < maxAttempts)] loop; it ends with the locals
    [(interactionFound, attempts)]. *)
Fixpoint handlePageInteractions_loop (fuel : nat) (sys : Sys) (page : Page)
    (maxAttempts : nat) (interactionFound : bool) (attempts : nat)
  : M (bool * nat) :=
  if (attempts <? maxAttempts)%nat then
    match fuel with
    | O => out_of_fuel
    | S fuel' =>
        step <- attempt sys page maxAttempts interactionFound attempts ;;
        match step with
        | Return found => ret (found, attempts)
        | Continue found =>
            handlePageInteractions_loop fuel' sys page maxAttempts found (attempts + 1)
        end
    end
  else ret (interactionFound, attempts).

(** The locals at the end of [handlePageInteractions]. *)
Definition handlePageInteractions_locals (sys : Sys) (page : Page) (maxAttempts : nat)
  : M (bool * nat) :=
  handlePageInteractions_loop maxAttempts sys page maxAttempts false 0.

Definition handlePageInteractions (sys : Sys) (page : Page) (maxAttempts : nat)
  : M bool :=
  locals <- handlePageInteractions_locals sys page maxAttempts ;;
  ret (fst locals).

(* ===================================================================== *)
(** * utils/markdown-formatters.ts: the [codeBlocks] rule *)
(* ===================================================================== *)

(** What the rule reads of the [pre] node. *)
Record CodeElement : Type := { className : string }.

Record PreElement : Type := {
  (** [htmlNode.querySelector('code')] *)
  querySelector_code : option CodeElement;
  (** [htmlNode.getAttribute('data-language')] *)
  data_language : option string
}.

(** The class [\w]. *)
Definition is_word_char (c : ascii) : bool :=
  let n := nat_of_ascii c in
  ((48 <=? n)%nat && (n <=? 57)%nat) || ((65 <=? n)%nat && (n <=? 90)%nat)
  || ((97 <=? n)%nat && (n <=? 122)%nat) || (n =? 95)%nat.

(** The longest prefix matched by [\w*]. *)
Fixpoint take_word (s : string) : string :=
  match s with
  | EmptyString => EmptyString
  | String c s' => if is_word_char c then String c (take_word s') else EmptyString
  end.

(** Every code unit of [w] is in [\w]. *)
Fixpoint all_word (w : string) : bool :=
  match w with
  | EmptyString => true
  | String c w' => is_word_char c && all_word w'
  end.

(** [/language-(\w+)/] tried at the start of [s]: the captured group. *)
Definition language_here (s : string) : option string :=
  if String.prefix "language-" s then
    match take_word (JS.drop 9 s) with
    | EmptyString => None
    | w => Some w
    end
  else None.

(** [s.match(/language-(\w+)/)?.[1]]: the group of the leftmost match. *)
Fixpoint match_language (s : string) : option string :=
  match language_here s with
  | Some w => Some w
  | None =>
      match s with
      | EmptyString => None
      | String _ s' => match_language s'
      end
  end.

(** The tag as the claim words it: [w] is the word of the leftmost
    [language-xxx] of the class attribute [s].  The attribute reads
    [pre ++ "language-" ++ w ++ post], where [w] is a run of one or more
    word characters that [post] does not continue, and no [language-] that
    a word character follows begins before it. *)
Definition is_language_of (s w : string) : Prop :=
  exists pre post,
    s = (pre ++ "language-" ++ w ++ post)%string
    /\ w <> ""
    /\ all_word w = true
    /\ match post with
       | String c _ => is_word_char c = false
       | EmptyString => True
       end
    /\ forall pre' c rest,
         s = (pre' ++ "language-" ++ String c rest)%string ->
         is_word_char c = true ->
         String.length pre <= String.length pre'.

(** The class attribute has no [language-xxx]: wherever it reads
    [language-], no word character follows. *)
Definition has_no_language (s : string) : Prop :=
  forall pre c rest,
    s = (pre ++ "language-" ++ String c rest)%string -> is_word_char c = false.

(** [code?.className?.match(/language-(\w+)/)?.[1]]. *)
Definition class_language (node : PreElement) : option string :=
  match querySelector_code node with
  | Some code => match_language (className code)
  | None => None
  end.

(** Lines 21-24. *)
Definition resolve_language (node : PreElement) : string :=
  match class_language node with
  | Some w => w
  | None =>
      match JS.truthy_string (data_language node) with
      | Some d => d
      | None => "yaml"
      end
  end.

(** [/^\n+/] removed. *)
Fixpoint strip_leading_newlines (s : string) : string :=
  match s with
  | String c s' => if Ascii.eqb c JS.nl then strip_leading_newlines s' else s
  | EmptyString => EmptyString
  end.

(** [/\n+$/] removed. *)
Fixpoint strip_trailing_newlines (s : string) : string :=
  match s with
  | EmptyString => EmptyString
  | String c s' =>
      match strip_trailing_newlines s' with
      | EmptyString => if Ascii.eqb c JS.nl then EmptyString else String c EmptyString
      | r => String c r
      end
  end.

(** [.replace(/\n\n+/g, '\n')]: of every run of newlines the last one stays. *)
Fixpoint collapse_newlines (s : string) : string :=
  match s with
  | EmptyString => EmptyString
  | String c s' =>
      match s' with
      | String c' _ =>
          if (Ascii.eqb c JS.nl && Ascii.eqb c' JS.nl)%bool then collapse_newlines s'
          else String c (collapse_newlines s')
      | EmptyString => String c EmptyString
      end
  end.

(** Lines 26-28. *)
Definition cleanContent (content : string) : string :=
  collapse_newlines (strip_trailing_newlines (strip_leading_newlines content)).

Definition fence : string := "```".

(** Line 30. *)
Definition codeBlocks_replacement (content : string) (node : PreElement) : string :=
  (JS.NL ++ fence ++ resolve_language node ++ JS.NL
     ++ cleanContent content ++ JS.NL ++ fence ++ JS.NL)%string.

(** ** Lines of a text, to state what the cleaning does *)

(** [s.split('\n')]. *)
Fixpoint lines (s : string) : list string :=
  match s with
  | EmptyString => [EmptyString]
  | String c s' =>
      if Ascii.eqb c JS.nl then EmptyString :: lines s'
      else
        match lines s' with
        | l :: ls => String c l :: ls
        | [] => [String c EmptyString]
        end
  end.

(** The lines after the first, each behind its newline. *)
Fixpoint rest_lines (ls : list string) : string :=
  match ls with
  | [] => EmptyString
  | l :: rest => (JS.NL ++ l ++ rest_lines rest)%string
  end.

(** [ls.join('\n')]. *)
Definition unlines (ls : list string) : string :=
  match ls with
  | [] => EmptyString
  | l :: rest => (l ++ rest_lines rest)%string
  end.

Definition is_blank (l : string) : bool := String.eqb l "".

Definition nonblank (l : string) : bool := negb (is_blank l).

(** The cleaning as the specification words it: blank lines trimmed at both
    ends and every run of two or more blank lines collapsed to one blank
    line. *)
Fixpoint drop_leading_blank (ls : list string) : list string :=
  match ls with
  | l :: rest => if is_blank l then drop_leading_blank rest else ls
  | [] => []
  end.

Fixpoint collapse_blank_runs (ls : list string) : list string :=
  match ls with
  | l :: rest =>
      match rest with
      | l' :: _ =>
          if (is_blank l && is_blank l')%bool then collapse_blank_runs rest
          else l :: collapse_blank_runs rest
      | [] => [l]
      end
  | [] => []
  end.

Definition claimed_cleanContent (content : string) : string :=
  unlines (collapse_blank_runs
             (rev (drop_leading_blank (rev (drop_leading_blank (lines content)))))).

(* ===================================================================== *)
(** * server/tools.ts: the response of [scrape-webpage] *)
(* ===================================================================== *)

Record ScrapeError : Type := { error_message : string }.

(** [ScrapeResult]. *)
Record ScrapeResult : Type := {
  data : option string;
  error : option ScrapeError
}.

Record ResponseMeta : Type := {
  meta_message : string;
  meta_success : bool;
  meta_contentSize : option Z
}.

(** The tool response; [response_text] is [content[0].text]. *)
Record ToolResponse : Type := {
  response_text : string;
  response_meta : ResponseMeta;
  isError : bool
}.

Definition createSuccessResponse (text message : string) : ToolResponse :=
  {| response_text := text;
     response_meta := {| meta_message := message; meta_success := true;
                         meta_contentSize := Some (JS.length text) |};
     isError := false |}.

Definition createErrorResponse (message : string) : ToolResponse :=
  {| response_text := "";
     response_meta := {| meta_message := message; meta_success := false;
                         meta_contentSize := None |};
     isError := true |}.

Definition maxLength : Z := 100000.

(** Lines 36-47: from the scraped Markdown to the text and the message of
    the response. *)
Definition limit_content (data : option string) : string * string :=
  let markdownContent :=
    match JS.truthy_string data with
    | Some s => s
    | None => ""
    end in
  if (maxLength <? JS.length markdownContent)%Z then
    let markdownContent := JS.substring markdownContent 0 maxLength in
    (markdownContent,
     ("Content truncated due to size (total size: "
        ++ JS.number_to_string (JS.length markdownContent) ++ " characters)")%string)
  else (markdownContent, "Scraping successful").

(** Lines 23-51: the handler, given how [await visitWebPage(...)] ended
    (the console lines, which do not reach the response, are left out). *)
Definition scrape_webpage_response (visited : Settled ScrapeResult) : ToolResponse :=
  match visited with
  | Resolved result =>
      match error result with
      | Some err => createErrorResponse (error_message err)
      | None =>
          let '(markdownContent, message) := limit_content (data result) in
          createSuccessResponse markdownContent message
      end
  | Rejected e => createErrorResponse ("Error scraping webpage: " ++ e)
  end.

(* ===================================================================== *)
(** * Reading a trace *)
(* ===================================================================== *)

Definition count_events (p : Event -> bool) (es : list Event) : nat :=
  List.length (filter p es).

(** A call of the vision model, that is one classification. *)
Definition is_classifier_call (ev : Event) : bool :=
  match ev with EvChatCreate _ _ => true | _ => false end.

Definition is_screenshot (ev : Event) : bool :=
  match ev with EvScreenshot _ => true | _ => false end.

(** The first line of the loop body: an attempt begins. *)
Definition is_attempt_start (ev : Event) : bool :=
  match ev with EvLog (LogAttempt _ _) => true | _ => false end.

(** Line 180: the classifier's answer was the [none] action. *)
Definition is_none_decision (ev : Event) : bool :=
  match ev with EvLog (LogNoInteractionsNeeded _) => true | _ => false end.

(** Any timer, the settle delay of line 192 or a [wait] action's. *)
Definition is_timer (ev : Event) : bool :=
  match ev with EvSetTimeout _ => true | _ => false end.

(** The events of the loop's own lines, which no callee emits. *)
Definition is_loop_event (ev : Event) : bool :=
  is_classifier_call ev || is_screenshot ev || is_attempt_start ev
  || is_none_decision ev.

(** What a frame contributes to the totals of [clickElementsByText], read
    off the frame alone: the number of its matching elements when its two
    queries resolve and there is a match, nothing otherwise. *)
Definition frame_matches (searchText : string) (f : Frame) : option nat :=
  match frame_eval f with
  | Rejected _ => None
  | Resolved els =>
      match List.length (matching_indexes els searchText) with
      | O => None
      | S n =>
          match frame_query f with
          | Rejected _ => None
          | Resolved _ => Some (S n)
          end
      end
  end.

Definition matched_frames (searchText : string) (frames : list Frame) : list Frame :=
  filter (fun f => match frame_matches searchText f with
                   | Some _ => true
                   | None => false
                   end) frames.

Definition matches_of (searchText : string) (f : Frame) : nat :=
  match frame_matches searchText f with
  | Some n => n
  | None => 0
  end.

Definition total_matches (searchText : string) (frames : list Frame) : nat :=
  list_sum (map (matches_of searchText) frames).

(* ===================================================================== *)
(** * Sample worlds, for the concrete runs *)
(* ===================================================================== *)

(** [JSON.parse] on the texts of a table; any other text is a SyntaxError. *)
Fixpoint table_parse (table : list (string * JSONValue)) (text : string)
  : Settled JSONValue :=
  match table with
  | [] => Rejected "SyntaxError: Unexpected token"
  | (t, a) :: rest => if String.eqb t text then Resolved a else table_parse rest text
  end.

Definition json_none : string := fallback_content.

Definition json_scroll_300 : string :=
  "{" ++ JS.dq ++ "action" ++ JS.dq ++ ": " ++ JS.dq ++ "scroll" ++ JS.dq ++ ", "
      ++ JS.dq ++ "scrollAmount" ++ JS.dq ++ ": 300}".

Definition json_click_accept : string :=
  "{" ++ JS.dq ++ "action" ++ JS.dq ++ ": " ++ JS.dq ++ "click" ++ JS.dq ++ ", "
      ++ JS.dq ++ "targetText" ++ JS.dq ++ ": " ++ JS.dq ++ "Accept" ++ JS.dq ++ "}".

Definition json_click_missing : string :=
  "{" ++ JS.dq ++ "action" ++ JS.dq ++ ": " ++ JS.dq ++ "click" ++ JS.dq ++ ", "
      ++ JS.dq ++ "targetSelector" ++ JS.dq ++ ": " ++ JS.dq ++ "#gone" ++ JS.dq ++ "}".

Definition scroll_300 : AIAction :=
  mkAction "scroll" None None None (Some 300%Z) None None.

Definition scroll_0 : AIAction :=
  mkAction "scroll" None None None (Some 0%Z) None None.

Definition click_accept : AIAction :=
  mkAction "click" (Some "Accept") None None None None None.

Definition click_missing : AIAction :=
  mkAction "click" None (Some "#gone") None None None None.

Definition sample_table : list (string * JSONValue) :=
  [ (json_none, JSON_action (none_action "Failed to get response"));
    (json_scroll_300, JSON_action scroll_300);
    (json_click_accept, JSON_action click_accept);
    (json_click_missing, JSON_action click_missing);
    ("null", JSON_null);
    ("{}", JSON_other "undefined" None);
    ("42", JSON_other "undefined" None) ].

Definition reply (text : string) : Settled ChatResponse :=
  Resolved {| choices := [ {| message := Some {| content := Some text |} |} ] |}.

(** A system whose [n]-th classification receives the [n]-th reply of the
    script and whose every write of a screenshot ends as [write]. *)
Definition scripted_sys (replies : list (Settled ChatResponse)) (write : Settled unit)
  : Sys :=
  {| date_toISOString := fun _ => "2024-05-06T07:08:09.123Z";
     fs_writeFile := fun _ _ _ => write;
     openai_create := fun h _ =>
       nth (count_events is_classifier_call h) replies
           (Rejected "429 rate limit exceeded");
     JSON_parse := table_parse sample_table |}.

Definition link (text : string) : Element := {| textContent := Some text |}.
Definition clickable : ElementHandle := {| element_click := Resolved tt |}.
Definition detached : ElementHandle :=
  {| element_click := Rejected "Node is detached from document" |}.

(** Three frames: the main frame with two matching buttons (one of which
    cannot be clicked), a consent frame with one, and an ad frame whose
    query rejects. *)
Definition main_frame : Frame :=
  {| frame_name := ""; frame_url := "https://example.org/";
     frame_eval := Resolved [link "Home"; link "ACCEPT all"; link "Accept"];
     frame_query := Resolved [clickable; clickable; detached] |}.

Definition consent_frame : Frame :=
  {| frame_name := "consent"; frame_url := "https://cmp.example/";
     frame_eval := Resolved [link "I accept"];
     frame_query := Resolved [clickable] |}.

Definition ad_frame : Frame :=
  {| frame_name := "ad"; frame_url := "about:blank";
     frame_eval := Rejected "Execution context was destroyed";
     frame_query := Rejected "Execution context was destroyed" |}.

(** A frame whose one link reads [été], written with the code units 233,
    116, 233, and the same word in capitals, 201, 84, 201. *)
Definition ete : string :=
  String "233"%char (String "t"%char (String "233"%char EmptyString)).

Definition ETE : string :=
  String "201"%char (String "T"%char (String "201"%char EmptyString)).

Definition summer_frame : Frame :=
  {| frame_name := "main"; frame_url := "https://example.org/";
     frame_eval := Resolved [link ete];
     frame_query := Resolved [clickable] |}.

(** A page with the given frames, on which the selector [#gone] never
    appears, every other call resolves and a scroll ends as [scrolled]. *)
Definition sample_page (frames : list Frame) (scrolled : Settled unit) : Page :=
  {| page_screenshot := fun _ => Resolved "iVBORw0KGgo=";
     page_waitForSelector := fun _ sel _ =>
       if String.eqb sel "#gone"
       then Rejected "TimeoutError: waiting for selector failed"
       else Resolved tt;
     page_click := fun _ _ => Resolved tt;
     page_type := fun _ _ _ => Resolved tt;
     page_scrollBy := fun _ _ => scrolled;
     page_frames := fun _ => frames |}.

Definition three_frames : Page :=
  sample_page [main_frame; consent_frame; ad_frame] (Resolved tt).

(** A text of [n] letters. *)
Fixpoint filler (n : nat) : string :=
  match n with
  | O => EmptyString
  | S n' => String "a" (filler n')
  end.

(* ===================================================================== *)
(** * Properties of computations *)
(* ===================================================================== *)

(** [m] never runs out of fuel and emits only events that satisfy [P]. *)
Definition behaves {A} (P : Event -> bool) (m : M A) : Prop :=
  forall h, fst (m h) <> OutOfFuel /\ forallb P (snd (m h)) = true.

(** [m] returns a value whatever the history: it neither throws nor runs
    out of fuel. *)
Definition returns {A} (m : M A) : Prop :=
  forall h, exists a, fst (m h) = Ok a.

Definition any_event (ev : Event) : bool := true.

Definition not_loop_event (ev : Event) : bool := negb (is_loop_event ev).

(** The events of the classifier: one call of the model and console lines. *)
Definition classifier_event (ev : Event) : bool :=
  negb (is_screenshot ev || is_attempt_start ev || is_none_decision ev).

(** What the click of the element [idx] of a frame leaves in the trace,
    read off that element alone: nothing when [$$] returned no handle for
    it, else the click and, when it rejected, the error line of its
    [catch]. *)
Definition click_events (f : Frame) (allElements : list ElementHandle) (idx : nat)
  : list Event :=
  match nth_error allElements idx with
  | Some el =>
      EvElementClick (frame_label f) idx (element_click el)
      :: match element_click el with
         | Rejected e => [EvError (LogClickError idx e)]
         | Resolved _ => []
         end
  | None => []
  end.

(** What a frame leaves in the trace, read off that frame alone: the query
    for the matching elements; when there is a match, the query for the
    handles and a click on every matching element; the error line of the
    frame's [catch] when one of the two queries rejected. *)
Definition frame_events (searchText : string) (f : Frame) : list Event :=
  match frame_eval f with
  | Rejected e =>
      [EvFrameEval (frame_label f) (Rejected e);
       EvError (LogFrameError (frame_label f) e)]
  | Resolved els =>
      let elementIndexes := matching_indexes els searchText in
      EvFrameEval (frame_label f) (Resolved elementIndexes)
      :: match elementIndexes with
         | [] => []
         | _ :: _ =>
             match frame_query f with
             | Rejected e =>
                 [EvFrameQuery (frame_label f) (Rejected e);
                  EvError (LogFrameError (frame_label f) e)]
             | Resolved allElements =>
                 EvFrameQuery (frame_label f) (Resolved (List.length allElements))
                 :: flat_map (click_events f allElements) elementIndexes
             end
         end
  end.

(** What [clickElementsByText] reports on the console at its end. *)
Definition click_report (targetText : string) (frames : list Frame) : list Event :=
  let searchText := JS.toLowerCase targetText in
  match matched_frames searchText frames with
  | [] => [EvLog (LogNoElementsFound targetText)]
  | matched =>
      EvLog (LogFoundAndClicked (total_matches searchText frames) targetText
                                (List.length matched))
      :: map (fun f => EvLog (LogFrameCount (frame_label f) (matches_of searchText f)))
             matched
  end.


(* ===================================================================== *)
(** * More readings of a trace *)
(* ===================================================================== *)

(** A line on the console, as opposed to a call of the page, of the file
    system, of the model or of a timer. *)
Definition is_console (ev : Event) : bool :=
  match ev with
  | EvLog _ | EvError _ => true
  | _ => false
  end.

(** Line 189: the executor reported success. *)
Definition is_success_line (ev : Event) : bool :=
  match ev with EvLog (LogSuccess _ _) => true | _ => false end.

(** A call of [page.waitForSelector], [page.click] or [page.type]. *)
Definition is_selector_call (ev : Event) : bool :=
  match ev with
  | EvWaitForSelector _ _ _ | EvPageClick _ _ | EvPageType _ _ _ => true
  | _ => false
  end.

Definition is_page_click (ev : Event) : bool :=
  match ev with EvPageClick _ _ => true | _ => false end.

Definition is_page_type (ev : Event) : bool :=
  match ev with EvPageType _ _ _ => true | _ => false end.

(** The events [clickElementsByText] can emit. *)
Definition frame_event (ev : Event) : bool :=
  match ev with
  | EvFrames _ | EvFrameEval _ _ | EvFrameQuery _ _ | EvElementClick _ _ _ => true
  | EvError (LogClickError _ _) | EvError (LogFrameError _ _) => true
  | EvLog (LogFoundAndClicked _ _ _) | EvLog (LogFrameCount _ _)
  | EvLog (LogNoElementsFound _) => true
  | _ => false
  end.

(** The events [executeAction] can emit. *)
Definition executor_event (ev : Event) : bool :=
  frame_event ev ||
  match ev with
  | EvLog (LogExecutingAction _) | EvLog (LogClickedSelector _) | EvLog (LogTyped _ _)
  | EvLog (LogScrolled _) | EvLog (LogWaited _) | EvLog LogNoActionTaken => true
  | EvError (LogFailedClick _ _) | EvError (LogFailedType _ _) => true
  | EvWaitForSelector _ _ _ | EvPageClick _ _ | EvPageType _ _ _ => true
  | EvScrollBy _ _ | EvSetTimeout _ => true
  | _ => false
  end.

(** The action carries the fields that the branch of its tag tests. *)
Definition actionable (a : AIAction) : bool :=
  if String.eqb (action a) "click" then
    match JS.truthy_string (targetText a), JS.truthy_string (targetSelector a) with
    | None, None => false
    | _, _ => true
    end
  else if String.eqb (action a) "type" then
    match JS.truthy_string (targetSelector a), JS.truthy_string (inputText a) with
    | Some _, Some _ => true
    | _, _ => false
    end
  else if String.eqb (action a) "scroll" then
    match JS.truthy_number (scrollAmount a) with Some _ => true | None => false end
  else if String.eqb (action a) "wait" then
    match JS.truthy_number (waitTime a) with Some _ => true | None => false end
  else false.

(** The event is a call of the page or of the file system that rejected
    with [e]: a screenshot, the write of a screenshot or a scroll. *)
Definition rejected_with (e : Error) (ev : Event) : Prop :=
  match ev with
  | EvScreenshot (Rejected e') => e' = e
  | EvWriteFile _ _ (Rejected e') => e' = e
  | EvScrollBy _ (Rejected e') => e' = e
  | _ => False
  end.

(** What makes the loop throw [e], read off the last event [ev] of the run:
    a call that rejected with [e], or the console line of an answer of the
    classifier that parsed to [null], whose tag line 179 cannot read. *)
Definition thrown_by (sys : Sys) (e : Error) (ev : Event) : Prop :=
  rejected_with e ev
  \/ (e = TypeError_null "action"
      /\ exists text,
           ev = EvLog (LogAIAnalysis text)
           /\ JSON_parse sys text = Resolved JSON_null).






(** Sample actions and pages for the runs of the executor. *)
Definition type_email : AIAction :=
  mkAction "type" None (Some "#email") (Some "a@b.c") None None None.

Definition type_without_text : AIAction :=
  mkAction "type" None (Some "#email") None None None None.

Definition hover : AIAction :=
  mkAction "hover" (Some "Menu") None None None None None.

Definition stuck_page : Page :=
  sample_page [] (Rejected "Execution context was destroyed").

(** The promise resolved. *)
Definition resolved {A} (p : Settled A) : bool :=
  match p with
  | Resolved _ => true
  | Rejected _ => false
  end.

Definition click_by_selector : AIAction :=
  mkAction "click" None (Some "#accept") None None None None.

(* ===================================================================== *)
(** * utils/markdown-formatters.ts: the table rules *)
(* ===================================================================== *)

(** White space as [trim] sees it, among the code units below 256: tab,
    line feed, vertical tab, form feed, carriage return, space and the
    no-break space. *)
Definition is_white (c : ascii) : bool :=
  let n := nat_of_ascii c in
  ((9 <=? n)%nat && (n <=? 13)%nat) || (n =? 32)%nat || (n =? 160)%nat.

(** [s.trimStart()]. *)
Fixpoint trimStart (s : string) : string :=
  match s with
  | String c s' => if is_white c then trimStart s' else s
  | EmptyString => EmptyString
  end.

(** [s.trimEnd()]. *)
Fixpoint trimEnd (s : string) : string :=
  match s with
  | EmptyString => EmptyString
  | String c s' =>
      match trimEnd s' with
      | EmptyString => if is_white c then EmptyString else String c EmptyString
      | r => String c r
      end
  end.

(** [s.trim()]. *)
Definition trim (s : string) : string := trimEnd (trimStart s).

Definition pipe : ascii := "|"%char.
Definition backslash : ascii := "\"%char.

(** [s.replace(/\|/g, '\\|')]: a backslash in front of every pipe. *)
Fixpoint escape_pipes (s : string) : string :=
  match s with
  | EmptyString => EmptyString
  | String c s' =>
      if Ascii.eqb c pipe then String backslash (String pipe (escape_pipes s'))
      else String c (escape_pipes s')
  end.

(** What the [tableCell] rule reads of a [th] or [td] node: the text
    contents of the [p] elements below it, in document order. *)
Record CellNode : Type := { cell_paragraphs : list string }.

(** [ps.join(' ')]. *)
Fixpoint join_spaces (ps : list string) : string :=
  match ps with
  | [] => EmptyString
  | [p] => p
  | p :: rest => (p ++ " " ++ join_spaces rest)%string
  end.

(** Lines 40-49: the text of the cell. *)
Definition cellContent (content : string) (node : CellNode) : string :=
  match cell_paragraphs node with
  | [] => trim content
  | ps => trim (join_spaces ps)
  end.

(** The replacement of the [tableCell] rule (lines 37-52). *)
Definition tableCell_replacement (content : string) (node : CellNode) : string :=
  (" " ++ escape_pipes (cellContent content node) ++ " |")%string.

(** What the [tableRow] rule reads of a [tr] node. *)
Record RowNode : Type := {
  (** [htmlNode.cells.length] *)
  row_cells : nat;
  (** [htmlNode.parentNode?.nodeName === 'THEAD'] *)
  row_in_thead : bool;
  (** [htmlNode.nextElementSibling] is not null *)
  row_has_next : bool
}.

(** [cells.map(() => '---').join(' | ')]. *)
Fixpoint separator (cells : nat) : string :=
  match cells with
  | O => EmptyString
  | S O => "---"
  | S n => ("--- | " ++ separator n)%string
  end.

(** The replacement of the [tableRow] rule (lines 58-77). *)
Definition tableRow_replacement (content : string) (node : RowNode) : string :=
  let output := ("|" ++ trimEnd content)%string in
  let output :=
    if row_in_thead node
    then (output ++ JS.NL ++ "|" ++ separator (row_cells node) ++ "|")%string
    else output in
  if (negb (row_in_thead node) || negb (row_has_next node))%bool
  then (output ++ JS.NL)%string
  else output.

(** The replacement of the [table] rule (lines 83-86); [/\n+/g] replaced by
    one newline is what [collapse_newlines] computes. *)
Definition table_replacement (content : string) : string :=
  (JS.NL ++ trim (collapse_newlines content) ++ JS.NL)%string.

(** No newline is followed by a newline: the text has no empty line inside
    and ends in at most one newline. *)
Fixpoint no_blank_line (s : string) : bool :=
  match s with
  | EmptyString => true
  | String c s' =>
      match s' with
      | String c' _ => negb (Ascii.eqb c JS.nl && Ascii.eqb c' JS.nl) && no_blank_line s'
      | EmptyString => true
      end
  end.

(** The number of occurrences of a code unit. *)
Fixpoint count_char (x : ascii) (s : string) : nat :=
  match s with
  | EmptyString => 0
  | String c s' => (if Ascii.eqb c x then 1 else 0) + count_char x s'
  end.

(** The pipes that do not come right after a backslash. *)
Fixpoint bare_pipes_after (previous : ascii) (s : string) : nat :=
  match s with
  | EmptyString => 0
  | String c s' =>
      (if (Ascii.eqb c pipe && negb (Ascii.eqb previous backslash))%bool then 1 else 0)
      + bare_pipes_after c s'
  end.

Definition bare_pipes (s : string) : nat := bare_pipes_after " "%char s.

(** The inverse of [escape_pipes]: a backslash right before a pipe goes. *)
Fixpoint unescape_pipes (s : string) : string :=
  match s with
  | EmptyString => EmptyString
  | String c s' =>
      match s' with
      | String c' _ =>
          if (Ascii.eqb c backslash && Ascii.eqb c' pipe)%bool then unescape_pipes s'
          else String c (unescape_pipes s')
      | EmptyString => String c EmptyString
      end
  end.

(* ===================================================================== *)
(** * scrapers/webpage-scraper.ts *)
(* ===================================================================== *)

(** [WebpageScrapeOptions]; an absent option takes the default of the
    parameter list of [visitWebPage]. *)
Record WebpageScrapeOptions : Type := {
  url : string;
  autoInteract : option bool;
  maxInteractionAttempts : option nat;
  waitForNetworkIdle : option bool
}.

(** [x = d] in a destructuring parameter list. *)
Definition or_default {A} (o : option A) (d : A) : A :=
  match o with
  | Some x => x
  | None => d
  end.

(** The console lines of [visitWebPage]. *)
Inductive ScrapeLog : Type :=
| LogVisiting (url : string)
| LogChecking
| LogScraped (url : string)
| LogErrorScraping (url : string) (message : string)
| LogUnknownError (url : string).

(** What [visitWebPage] does to the world; [SvInteraction] wraps what the
    interaction loop does. *)
Inductive ScrapeEvent : Type :=
| SvLaunch (r : Settled unit)
| SvNewPage (r : Settled unit)
| SvSetViewport (width height : Z) (r : Settled unit)
| SvGoto (url waitUntil : string) (r : Settled unit)
| SvSetTimeout (ms : Z)
| SvInteraction (ev : Event)
| SvMainHTML (r : Settled string)
| SvClose (r : Settled unit)
| SvLog (m : ScrapeLog)
| SvError (m : ScrapeLog).

Definition ScrapeTrace := list ScrapeEvent.

(** The browser: every capability answers from the history so far.
    [the_page] is the page that [newPage] opened, as it will behave during
    the interaction loop; [main_innerHTML] is the [page.evaluate] of lines
    157-165; [thrown_is_Error] is [error instanceof Error] (of a thrown
    value the model keeps its message). *)
Record Browser : Type := {
  puppeteer_launch : ScrapeTrace -> Settled unit;
  browser_newPage : ScrapeTrace -> Settled unit;
  page_setViewport : ScrapeTrace -> Z -> Z -> Settled unit;
  page_goto : ScrapeTrace -> string -> string -> Settled unit;
  the_page : ScrapeTrace -> Page;
  main_innerHTML : ScrapeTrace -> Settled string;
  browser_close : ScrapeTrace -> Settled unit;
  thrown_is_Error : Error -> bool
}.

(** The computations of [visitWebPage]: as [M], over [ScrapeEvent]. *)
Definition Scrape (A : Type) : Type := ScrapeTrace -> Outcome A * list ScrapeEvent.

Definition sret {A} (a : A) : Scrape A := fun _ => (Ok a, []).

Definition sbind {A B} (m : Scrape A) (f : A -> Scrape B) : Scrape B :=
  fun h =>
    match m h with
    | (Ok a, es) => let '(r, es') := f a (h ++ es) in (r, es ++ es')
    | (Throw e, es) => (Throw e, es)
    | (OutOfFuel, es) => (OutOfFuel, es)
    end.

Definition stry {A} (m : Scrape A) (handler : Error -> Scrape A) : Scrape A :=
  fun h =>
    match m h with
    | (Throw e, es) => let '(r, es') := handler e (h ++ es) in (r, es ++ es')
    | res => res
    end.

Definition semit (ev : ScrapeEvent) : Scrape unit := fun _ => (Ok tt, [ev]).

Definition scall {A} (f : ScrapeTrace -> Settled A) (ev : Settled A -> ScrapeEvent)
  : Scrape A :=
  fun h => let r := f h in (await r, [ev r]).

Definition ssettle {A} (p : Settled A) : Scrape A := fun _ => (await p, []).

(** The events of the interaction loop among those of the scrape. *)
Fixpoint interaction_events (h : ScrapeTrace) : Trace :=
  match h with
  | [] => []
  | SvInteraction ev :: rest => ev :: interaction_events rest
  | _ :: rest => interaction_events rest
  end.

(** A computation of the interaction loop, run inside the scrape: it reads
    the loop's own part of the history. *)
Definition interact {A} (m : ScrapeTrace -> M A) : Scrape A :=
  fun h => let '(r, es) := m h (interaction_events h) in (r, map SvInteraction es).

Declare Scope scrape_scope.
Delimit Scope scrape_scope with scrape.
Notation "x <- c1 ;; c2" := (sbind c1 (fun x => c2))
  (at level 61, c1 at next level, right associativity) : scrape_scope.
Notation "c1 ;; c2" := (sbind c1 (fun _ => c2))
  (at level 61, right associativity) : scrape_scope.

(** [visitWebPage]; [processHtmlContent] is a parameter: it resolves with
    the Markdown of the HTML or rejects. *)
Definition visitWebPage (sys : Sys) (browser : Browser)
    (processHtmlContent : string -> Settled string) (options : WebpageScrapeOptions)
  : Scrape ScrapeResult :=
  let url := url options in
  let autoInteract := or_default (autoInteract options) true in
  let maxInteractionAttempts := or_default (maxInteractionAttempts options) 3 in
  let waitForNetworkIdle := or_default (waitForNetworkIdle options) true in
  (scall (puppeteer_launch browser) SvLaunch ;;
   stry
     (semit (SvLog (LogVisiting url)) ;;
      scall (browser_newPage browser) SvNewPage ;;
      scall (fun h => page_setViewport browser h 1280 800) (SvSetViewport 1280 800) ;;
      let waitUntil :=
        if waitForNetworkIdle then "networkidle2" else "domcontentloaded" in
      scall (fun h => page_goto browser h url waitUntil) (SvGoto url waitUntil) ;;
      semit (SvSetTimeout 2000) ;;
      (if autoInteract then
         semit (SvLog LogChecking) ;;
         interact (fun h =>
                     handlePageInteractions sys (the_page browser h)
                                            maxInteractionAttempts) ;;
         sret tt
       else sret tt) ;;
      htmlContent <- scall (main_innerHTML browser) SvMainHTML ;;
      markdown <- ssettle (processHtmlContent htmlContent) ;;
      scall (browser_close browser) SvClose ;;
      semit (SvLog (LogScraped url)) ;;
      sret {| data := Some markdown; error := None |})
     (fun error =>
        scall (browser_close browser) SvClose ;;
        if thrown_is_Error browser error then
          semit (SvError (LogErrorScraping url error)) ;;
          sret {| data := None; error := Some {| error_message := error |} |}
        else
          semit (SvError (LogUnknownError url)) ;;
          sret {| data := None;
                  error := Some {| error_message := "An unknown error occurred" |} |}))%scrape.

Definition is_close (ev : ScrapeEvent) : bool :=
  match ev with SvClose _ => true | _ => false end.

Definition is_interaction (ev : ScrapeEvent) : bool :=
  match ev with SvInteraction _ => true | _ => false end.

Definition count_scrape (p : ScrapeEvent -> bool) (es : list ScrapeEvent) : nat :=
  List.length (filter p es).

(** A browser on which everything resolves, whose page is [page] and whose
    main element holds [html]; [close] ends as given. *)
Definition sample_browser (page : Page) (html : string) (closed : Settled unit)
  : Browser :=
  {| puppeteer_launch := fun _ => Resolved tt;
     browser_newPage := fun _ => Resolved tt;
     page_setViewport := fun _ _ _ => Resolved tt;
     page_goto := fun _ _ _ => Resolved tt;
     the_page := fun _ => page;
     main_innerHTML := fun _ => Resolved html;
     browser_close := fun _ => closed;
     thrown_is_Error := fun _ => true |}.

(** A stand-in for [processHtmlContent]: no article in an empty document. *)
Definition sample_process (html : string) : Settled string :=
  if String.eqb html "" then Rejected "Failed to parse the article content."
  else Resolved ("# " ++ html)%string.

Definition sample_options (interact : bool) : WebpageScrapeOptions :=
  {| url := "https://example.org/"; autoInteract := Some interact;
     maxInteractionAttempts := None; waitForNetworkIdle := None |}.

Definition is_scrape_console (ev : ScrapeEvent) : bool :=
  match ev with
  | SvLog _ | SvError _ => true
  | _ => false
  end.

Definition is_main_html (ev : ScrapeEvent) : bool :=
  match ev with SvMainHTML _ => true | _ => false end.

(** The last event that is not a console line. *)
Definition last_call (es : list ScrapeEvent) : option ScrapeEvent :=
  fold_left (fun found ev => if is_scrape_console ev then found else Some ev) es None.

(* ===================================================================== *)
(** * utils/html-helpers.ts and the marking of scrapers/content-processor.ts *)
(* ===================================================================== *)

(** An element of the document, as the marking code reads and writes it.
    The elements of a document are numbered in document order; a
    reference to an element is its number. *)
Record DomElement : Type := {
  (** in lower case *)
  tagName : string;
  parentElement : option nat;
  classList : list string;
  attributes : list (string * string)
}.

Definition Document := list DomElement.

(** The document is a tree: an element comes after its parent. *)
Definition is_tree (doc : Document) : Prop :=
  forall i e p, nth_error doc i = Some e -> parentElement e = Some p -> p < i.

(** The same, decided. *)
Definition is_treeb (doc : Document) : bool :=
  forallb (fun i => match nth_error doc i with
                    | Some e => match parentElement e with
                                | Some p => (p <? i)%nat
                                | None => true
                                end
                    | None => true
                    end)
          (seq 0 (List.length doc)).

(** The element [i] of the document replaced by [f] of it. *)
Fixpoint update_element (i : nat) (f : DomElement -> DomElement) (doc : Document)
  : Document :=
  match doc, i with
  | [], _ => []
  | e :: rest, O => f e :: rest
  | e :: rest, S i' => e :: update_element i' f rest
  end.

(** [classList.add(c)]. *)
Definition classList_add (c : string) (classes : list string) : list string :=
  if existsb (String.eqb c) classes then classes else classes ++ [c].

(** [setAttribute(name, value)]. *)
Fixpoint setAttribute (name value : string) (attrs : list (string * string))
  : list (string * string) :=
  match attrs with
  | [] => [(name, value)]
  | (n, v) :: rest =>
      if String.eqb n name then (name, value) :: rest
      else (n, v) :: setAttribute name value rest
  end.

(** [getAttribute(name)]. *)
Fixpoint getAttribute (name : string) (attrs : list (string * string)) : option string :=
  match attrs with
  | [] => None
  | (n, v) :: rest => if String.eqb n name then Some v else getAttribute name rest
  end.

(** [el.classList.add('article-content')]. *)
Definition add_article_class (e : DomElement) : DomElement :=
  {| tagName := tagName e; parentElement := parentElement e;
     classList := classList_add "article-content" (classList e);
     attributes := attributes e |}.

(** [el.classList.add('article-content');
     el.setAttribute('data-readable-content-score', '100')]. *)
Definition mark_readable (e : DomElement) : DomElement :=
  {| tagName := tagName e; parentElement := parentElement e;
     classList := classList_add "article-content" (classList e);
     attributes := setAttribute "data-readable-content-score" "100" (attributes e) |}.

(** [node.parentElement]. *)
Definition parent_of (doc : Document) (i : nat) : option nat :=
  match nth_error doc i with
  | Some e => parentElement e
  | None => None
  end.

(** The chain [node], its parent, its grandparent, ... *)
Fixpoint ancestors (fuel : nat) (doc : Document) (node : option nat) : list nat :=
  match fuel, node with
  | S fuel', Some i => i :: ancestors fuel' doc (parent_of doc i)
  | _, _ => []
  end.

Definition is_pre (tag : string) : bool := String.eqb tag "pre".

Definition is_pre_or_code (tag : string) : bool :=
  String.eqb tag "pre" || String.eqb tag "code".

(** [node.querySelector('pre, code')] is not null: some [pre] or [code]
    element has [node] among its ancestors. *)
Definition contains_code (doc : Document) (i : nat) : bool :=
  existsb (fun j =>
             match nth_error doc j with
             | Some e =>
                 is_pre_or_code (tagName e)
                 && existsb (Nat.eqb i)
                            (ancestors (List.length doc) doc (parentElement e))
             | None => false
             end)
          (seq 0 (List.length doc)).

(** [markCodeParents(node)]; [None] when the fuel runs out. *)
Fixpoint markCodeParents (fuel : nat) (doc : Document) (node : option nat)
  : option Document :=
  match node with
  | None => Some doc
  | Some i =>
      match fuel with
      | O => None
      | S fuel' =>
          let doc :=
            if contains_code doc i then update_element i mark_readable doc else doc in
          markCodeParents fuel' doc (parent_of doc i)
      end
  end.

(** [document.querySelectorAll(selector)], for a selector on tag names:
    the matching elements in document order. *)
Definition querySelectorAll (matches : string -> bool) (doc : Document) : list nat :=
  filter (fun i => match nth_error doc i with
                   | Some e => matches (tagName e)
                   | None => false
                   end)
         (seq 0 (List.length doc)).

(** content-processor.ts, lines 18-28: the [forEach] over the [pre]
    elements. *)
Definition mark_pre_elements (doc : Document) : Document :=
  fold_left
    (fun d pre =>
       let d := update_element pre mark_readable d in
       match parent_of d pre with
       | Some p => update_element p add_article_class d
       | None => d
       end)
    (querySelectorAll is_pre doc) doc.

(** content-processor.ts, lines 30-32: the [forEach] over the [pre] and
    [code] elements. *)
Definition mark_code_parents (doc : Document) : option Document :=
  fold_left
    (fun marked el =>
       match marked with
       | Some d => markCodeParents (List.length d) d (parent_of d el)
       | None => None
       end)
    (querySelectorAll is_pre_or_code doc) (Some doc).

(** Lines 17-32 of [processHtmlContent]: the document as handed to
    Readability. *)
Definition prepare_document (doc : Document) : option Document :=
  mark_code_parents (mark_pre_elements doc).

(** The element has the preservation marks. *)
Definition is_marked (e : DomElement) : bool :=
  existsb (String.eqb "article-content") (classList e)
  && match getAttribute "data-readable-content-score" (attributes e) with
     | Some v => String.eqb v "100"
     | None => false
     end.

(** The chain of [i] in a tree: [i] steps are enough. *)
Definition chain (doc : Document) (i : nat) : list nat :=
  ancestors (S i) doc (Some i).

Definition element (tag : string) (parent : option nat) : DomElement :=
  {| tagName := tag; parentElement := parent; classList := []; attributes := [] |}.

(** [html > (head, body > (nav, div > section > pre > code, p > code,
    footer))]. *)
Definition sample_document : Document :=
  [ element "html" None; element "head" (Some 0); element "body" (Some 0); element "nav" (Some 2);
    element "div" (Some 2); element "section" (Some 4); element "pre" (Some 5); element "code" (Some 6);
    element "p" (Some 2); element "code" (Some 8); element "footer" (Some 2) ].

(** What the marking never touches: the tags and the parents. *)
Definition skeleton (doc : Document) : list (string * option nat) :=
  map (fun e => (tagName e, parentElement e)) doc.

(** [d] is [doc] with the elements of [M] marked and, of the others, the
    elements of [C] given the class. *)
Definition described (doc : Document) (M C : nat -> bool) (d : Document) : Prop :=
  forall k,
    nth_error d k
    = option_map (fun e => if M k then mark_readable e
                           else if C k then add_article_class e else e)
                 (nth_error doc k).

Definition with_index (S : nat -> bool) (i : nat) : nat -> bool :=
  fun k => (k =? i)%nat || S k.

Definition nowhere : nat -> bool := fun _ => false.

(** The elements that [markCodeParents(node)] marks: the chain of [node],
    as far as its elements contain code. *)
Definition marked_from (doc : Document) (node : option nat) (k : nat) : bool :=
  match node with
  | Some i => existsb (Nat.eqb k) (chain doc i) && contains_code doc k
  | None => false
  end.


(** The sample document after the marking. *)
Definition sample_prepared : Document := Eval cbv in
  match prepare_document sample_document with
  | Some d => d
  | None => []
  end.
(* ===================================================================== *)
(** * The laws of the monad *)
(* ===================================================================== *)

Lemma bind_Ok {A B} (m : M A) (f : A -> M B) h a es :
  m h = (Ok a, es) ->
  bind m f h = (fst (f a (h ++ es)), es ++ snd (f a (h ++ es))).
Proof.
  intros E. unfold bind. rewrite E. now destruct (f a (h ++ es)).
Qed.

Lemma bind_Throw {A B} (m : M A) (f : A -> M B) h e es :
  m h = (Throw e, es) -> bind m f h = (Throw e, es).
Proof. intros E. unfold bind. now rewrite E. Qed.

Lemma try_catch_Ok {A} (m : M A) handler h a es :
  m h = (Ok a, es) -> try_catch m handler h = (Ok a, es).
Proof. intros E. unfold try_catch. now rewrite E. Qed.

Lemma try_catch_Throw {A} (m : M A) handler h e es :
  m h = (Throw e, es) ->
  try_catch m handler h
  = (fst (handler e (h ++ es)), es ++ snd (handler e (h ++ es))).
Proof.
  intros E. unfold try_catch. rewrite E. now destruct (handler e (h ++ es)).
Qed.

(** ** Rules for [behaves] *)

Section Behaves.
Context (P : Event -> bool).

Lemma behaves_ret {A} (a : A) : behaves P (ret a).
Proof. intros h. cbn. split; [discriminate | reflexivity]. Qed.

Lemma behaves_throw {A} e : behaves P (@throw A e).
Proof. intros h. cbn. split; [discriminate | reflexivity]. Qed.

Lemma behaves_emit ev : P ev = true -> behaves P (emit ev).
Proof. intros Hev h. cbn. rewrite Hev. split; [discriminate | reflexivity]. Qed.

Lemma behaves_log m : P (EvLog m) = true -> behaves P (console_log m).
Proof. apply behaves_emit. Qed.

Lemma behaves_error m : P (EvError m) = true -> behaves P (console_error m).
Proof. apply behaves_emit. Qed.

Lemma behaves_call {A} (f : Trace -> Settled A) ev :
  (forall r, P (ev r) = true) -> behaves P (call f ev).
Proof.
  intros Hev h. unfold call. cbn. rewrite Hev. split; [|reflexivity].
  now destruct (f h).
Qed.

Lemma behaves_ask {A} (f : Trace -> A) ev :
  (forall a, P (ev a) = true) -> behaves P (ask f ev).
Proof.
  intros Hev h. unfold ask. cbn. rewrite Hev. split; [discriminate | reflexivity].
Qed.

Lemma behaves_settle {A} (p : Settled A) : behaves P (settle p).
Proof. intros h. unfold settle. cbn. split; [now destruct p | reflexivity]. Qed.

Lemma behaves_bind {A B} (m : M A) (f : A -> M B) :
  behaves P m -> (forall a, behaves P (f a)) -> behaves P (bind m f).
Proof.
  intros Hm Hf h. unfold bind.
  destruct (Hm h) as [Hfuel Hes].
  destruct (m h) as [[a | e |] es]; cbn in *.
  - destruct (Hf a (h ++ es)) as [Hfuel' Hes'].
    destruct (f a (h ++ es)) as [r es']; cbn in *.
    split; [assumption|]. rewrite forallb_app, Hes, Hes'. reflexivity.
  - split; [discriminate | assumption].
  - contradiction.
Qed.

Lemma behaves_try_catch {A} (m : M A) handler :
  behaves P m -> (forall e, behaves P (handler e)) -> behaves P (try_catch m handler).
Proof.
  intros Hm Hf h. unfold try_catch.
  destruct (Hm h) as [Hfuel Hes].
  destruct (m h) as [[a | e |] es]; cbn in *.
  - split; [discriminate | assumption].
  - destruct (Hf e (h ++ es)) as [Hfuel' Hes'].
    destruct (handler e (h ++ es)) as [r es']; cbn in *.
    split; [assumption|]. rewrite forallb_app, Hes, Hes'. reflexivity.
  - contradiction.
Qed.

Lemma behaves_Promise_all {A} (ms : list (M A)) :
  Forall (behaves P) ms -> behaves P (Promise_all ms).
Proof.
  induction 1 as [| m ms Hm _ IH]; cbn.
  - apply behaves_ret.
  - apply behaves_bind; [assumption|]. intros a.
    apply behaves_bind; [assumption|]. intros rest. apply behaves_ret.
Qed.

Lemma behaves_forEach {A} (xs : list A) (f : A -> M unit) :
  (forall x, behaves P (f x)) -> behaves P (forEach xs f).
Proof.
  intros Hf. induction xs as [| x xs IH]; cbn.
  - apply behaves_ret.
  - apply behaves_bind; [apply Hf | intros _; exact IH].
Qed.
End Behaves.

Lemma behaves_weaken {A} (P Q : Event -> bool) (m : M A) :
  (forall ev, P ev = true -> Q ev = true) -> behaves P m -> behaves Q m.
Proof.
  intros HPQ Hm h. destruct (Hm h) as [Hfuel Hes]. split; [assumption|].
  rewrite forallb_forall in *. auto.
Qed.

(** ** Rules for [returns] *)

Lemma returns_ret {A} (a : A) : returns (ret a).
Proof. intros h. now exists a. Qed.

Lemma returns_emit ev : returns (emit ev).
Proof. intros h. now exists tt. Qed.

Lemma returns_ask {A} (f : Trace -> A) ev : returns (ask f ev).
Proof. intros h. now exists (f h). Qed.

Lemma returns_bind {A B} (m : M A) (f : A -> M B) :
  returns m -> (forall a, returns (f a)) -> returns (bind m f).
Proof.
  intros Hm Hf h. destruct (Hm h) as [a Ha].
  destruct (m h) as [r es] eqn:E. cbn in Ha. subst r.
  rewrite (bind_Ok _ _ _ _ _ E). cbn. apply Hf.
Qed.

(** A [try] whose handler returns cannot throw. *)
Lemma returns_try_catch {A} (m : M A) handler :
  (forall h, fst (m h) <> OutOfFuel) ->
  (forall e, returns (handler e)) -> returns (try_catch m handler).
Proof.
  intros Hm Hf h. specialize (Hm h). unfold try_catch.
  destruct (m h) as [[a | e |] es]; cbn in *.
  - now exists a.
  - destruct (Hf e (h ++ es)) as [a Ha].
    destruct (handler e (h ++ es)) as [r es']. cbn in *. now exists a.
  - contradiction.
Qed.

Lemma returns_Promise_all {A} (ms : list (M A)) :
  Forall returns ms -> returns (Promise_all ms).
Proof.
  induction 1 as [| m ms Hm _ IH]; cbn.
  - apply returns_ret.
  - apply returns_bind; [assumption|]. intros a.
    apply returns_bind; [assumption|]. intros rest. apply returns_ret.
Qed.

Lemma returns_forEach {A} (xs : list A) (f : A -> M unit) :
  (forall x, returns (f x)) -> returns (forEach xs f).
Proof.
  intros Hf. induction xs as [| x xs IH]; cbn.
  - apply returns_ret.
  - apply returns_bind; [apply Hf | intros _; exact IH].
Qed.

(** Splitting a run: the value and the events of a computation. *)
Lemma run_eta {A} (m : M A) h : m h = (fst (m h), snd (m h)).
Proof. now destruct (m h). Qed.

Lemma count_events_app p es es' :
  count_events p (es ++ es') = count_events p es + count_events p es'.
Proof. unfold count_events. now rewrite filter_app, length_app. Qed.

Lemma count_events_none p q es :
  (forall ev, q ev = true -> p ev = false) ->
  forallb q es = true -> count_events p es = 0.
Proof.
  intros Hpq. unfold count_events. induction es as [| ev es IH]; cbn; [reflexivity|].
  intros H. apply andb_true_iff in H as [Hq Hes].
  rewrite (Hpq _ Hq). auto.
Qed.

(* ===================================================================== *)
(** * What each function emits *)
(* ===================================================================== *)

Ltac behave :=
  repeat first
    [ apply behaves_ret
    | apply behaves_throw
    | apply behaves_settle
    | apply behaves_log; reflexivity
    | apply behaves_error; reflexivity
    | apply behaves_emit; reflexivity
    | apply behaves_call; intro; reflexivity
    | apply behaves_ask; intro; reflexivity
    | apply behaves_bind; [| intro]
    | apply behaves_try_catch; [| intro]
    | match goal with
      | |- behaves _ (if ?c then _ else _) => destruct c
      | |- behaves _ (match ?x with _ => _ end) => destruct x
      end ].

Lemma click_index_behaves P f allElements idx :
  (forall ev, is_loop_event ev = false -> P ev = true) ->
  behaves P (click_index f allElements idx).
Proof.
  intros HP. unfold click_index.
  apply behaves_try_catch; [| intro; apply behaves_emit; now apply HP].
  destruct (nth_error allElements idx); [| apply behaves_ret].
  apply behaves_call. intro. now apply HP.
Qed.

Lemma click_in_frame_behaves searchText f :
  behaves not_loop_event (click_in_frame searchText f).
Proof.
  unfold click_in_frame.
  apply behaves_try_catch; [| intro; behave].
  apply behaves_bind; [behave | intros idxs].
  destruct (List.length idxs =? 0)%nat; [behave |].
  apply behaves_bind; [behave | intros hs].
  apply behaves_bind; [| intro; behave].
  apply behaves_Promise_all, Forall_forall. intros m Hm.
  apply in_map_iff in Hm as [idx [<- _]].
  apply click_index_behaves. intros ev Hev. unfold not_loop_event. now rewrite Hev.
Qed.

Lemma clickElementsByText_behaves page targetText :
  behaves not_loop_event (clickElementsByText page targetText).
Proof.
  unfold clickElementsByText.
  apply behaves_bind; [behave | intros frames].
  apply behaves_bind.
  - apply behaves_Promise_all, Forall_forall. intros m Hm.
    apply in_map_iff in Hm as [f [<- _]]. apply click_in_frame_behaves.
  - intros results.
    destruct (0 <? _)%nat; [| behave].
    apply behaves_bind; [behave | intros _].
    apply behaves_forEach. intros r. behave.
Qed.

Lemma executeAction_behaves page v :
  behaves not_loop_event (executeAction page v).
Proof.
  unfold executeAction. destruct v as [| a | shown r]; [behave | | behave].
  apply behaves_bind; [behave | intros _].
  destruct (action a =? "click").
  { destruct (JS.truthy_string (targetText a)).
    - apply behaves_bind; [apply clickElementsByText_behaves | intro; behave].
    - behave. }
  behave.
Qed.

Lemma analyzePageWithAI_behaves sys base64Image :
  behaves classifier_event (analyzePageWithAI sys base64Image).
Proof.
  unfold analyzePageWithAI. behave.
Qed.

Lemma observe_behaves sys page attempts maxAttempts :
  behaves any_event (observe sys page attempts maxAttempts).
Proof. unfold observe. behave. Qed.

(* ===================================================================== *)
(** * The interaction loop *)
(* ===================================================================== *)

Lemma observe_counts sys page attempts maxAttempts h :
  let es := snd (observe sys page attempts maxAttempts h) in
  count_events is_attempt_start es = 1
  /\ count_events is_screenshot es = 1
  /\ count_events is_classifier_call es = 0
  /\ count_events is_none_decision es = 0.
Proof.
  unfold observe, bind, call, ask, console_log, emit, ret. cbn.
  destruct (page_screenshot page _); cbn; [| now repeat split].
  destruct (fs_writeFile sys _ _ _); cbn; now repeat split.
Qed.

Lemma analyzePageWithAI_counts sys base64Image h :
  let es := snd (analyzePageWithAI sys base64Image h) in
  count_events is_classifier_call es = 1
  /\ count_events is_screenshot es = 0
  /\ count_events is_attempt_start es = 0
  /\ count_events is_none_decision es = 0.
Proof.
  unfold analyzePageWithAI, try_catch, bind, call,
    console_log, console_error, emit, ret, settle. cbn.
  destruct (openai_create sys h base64Image) as [response | e]; cbn;
    [| now repeat split].
  destruct (first_choice_content response) as [got | e]; cbn; [| now repeat split].
  destruct (JSON_parse sys _); cbn; now repeat split.
Qed.

Lemma executeAction_counts page v h :
  let es := snd (executeAction page v h) in
  count_events is_classifier_call es = 0
  /\ count_events is_screenshot es = 0
  /\ count_events is_attempt_start es = 0
  /\ count_events is_none_decision es = 0.
Proof.
  destruct (executeAction_behaves page v h) as [_ Hes]. cbn.
  repeat split; apply (count_events_none _ not_loop_event); try assumption;
    intros ev; unfold not_loop_event, is_loop_event; destruct ev as [[] | | | | | | | | | | | | | |];
    cbn; congruence.
Qed.

(** The Acting and Settling steps, spelled out by the executor's run. *)
Lemma act_and_settle_unfold page found v tag r h :
  act_and_settle page found v tag r h =
  let x := executeAction page v h in
  match fst x with
  | Ok b =>
      (Ok (Continue (if b then true else found)),
       snd x ++ (if b then [EvLog (LogSuccess tag r); EvSetTimeout 2000]
                 else [EvLog (LogFailedAction tag)]))
  | Throw e => (Throw e, snd x)
  | OutOfFuel => (OutOfFuel, snd x)
  end.
Proof.
  unfold act_and_settle. cbv zeta. unfold bind at 1.
  destruct (executeAction page v h) as [[b | e |] es]; cbn [fst snd]; try reflexivity.
  destruct b; reflexivity.
Qed.

(** One pass through the loop body, spelled out by its three callees. *)
Lemma attempt_unfold sys page maxAttempts found attempts h :
  attempt sys page maxAttempts found attempts h =
  let o := observe sys page attempts maxAttempts h in
  match fst o with
  | Ok screenshot =>
      let d := analyzePageWithAI sys screenshot (h ++ snd o) in
      let acted (v : JSONValue) tag r :=
        let x := executeAction page v (h ++ snd o ++ snd d) in
        match fst x with
        | Ok b =>
            (Ok (Continue (if b then true else found)),
             snd o ++ snd d ++ snd x
               ++ (if b then [EvLog (LogSuccess tag r); EvSetTimeout 2000]
                   else [EvLog (LogFailedAction tag)]))
        | Throw e => (Throw e, snd o ++ snd d ++ snd x)
        | OutOfFuel => (OutOfFuel, snd o ++ snd d ++ snd x)
        end in
      match fst d with
      | Ok JSON_null => (Throw (TypeError_null "action"), snd o ++ snd d)
      | Ok (JSON_action a) =>
          if action a =? "none" then
            (Ok (Return found),
             snd o ++ snd d ++ [EvLog (LogNoInteractionsNeeded (reason a))])
          else acted a (action a) (reason a)
      | Ok (JSON_other shown r) => acted (JSON_other shown r) shown r
      | Throw e => (Throw e, snd o ++ snd d)
      | OutOfFuel => (OutOfFuel, snd o ++ snd d)
      end
  | Throw e => (Throw e, snd o)
  | OutOfFuel => (OutOfFuel, snd o)
  end.
Proof.
  unfold attempt. cbv zeta. unfold bind at 1.
  destruct (observe sys page attempts maxAttempts h) as [[shot | e |] es1]; cbn [fst snd];
    try reflexivity.
  unfold bind at 1.
  destruct (analyzePageWithAI sys shot (h ++ es1)) as [[[| a | shown r] | e |] es2];
    cbn [fst snd]; try reflexivity.
  - cbn. now rewrite app_nil_r.
  - destruct (action a =? "none"); [reflexivity|].
    rewrite act_and_settle_unfold. cbv zeta. rewrite <- !app_assoc.
    destruct (executeAction page a (h ++ es1 ++ es2)) as [[b | e |] es3]; cbn [fst snd];
      reflexivity.
Qed.

(** What one pass through the loop body leaves in the trace. *)
Lemma attempt_spec sys page maxAttempts found attempts h :
  let r := fst (attempt sys page maxAttempts found attempts h) in
  let es := snd (attempt sys page maxAttempts found attempts h) in
  count_events is_attempt_start es = 1
  /\ count_events is_screenshot es = 1
  /\ match r with
     | Ok (Return _) =>
         count_events is_classifier_call es = 1
         /\ exists es0 rs,
              es = es0 ++ [EvLog (LogNoInteractionsNeeded rs)]
              /\ count_events is_none_decision es0 = 0
     | Ok (Continue _) =>
         count_events is_classifier_call es = 1
         /\ count_events is_none_decision es = 0
     | Throw _ =>
         count_events is_classifier_call es <= 1
         /\ count_events is_none_decision es = 0
     | OutOfFuel => False
     end.
Proof.
  cbv zeta. rewrite attempt_unfold. cbv zeta.
  pose proof (observe_counts sys page attempts maxAttempts h) as Ho.
  destruct (observe_behaves sys page attempts maxAttempts h) as [Hfo _].
  cbv zeta in Ho. destruct Ho as (Ho1 & Ho2 & Ho3 & Ho4).
  destruct (observe sys page attempts maxAttempts h) as [[shot | e |] es1];
    cbn [fst snd] in *; [| repeat split; auto; lia | contradiction].
  pose proof (analyzePageWithAI_counts sys shot (h ++ es1)) as Hd.
  destruct (analyzePageWithAI_behaves sys shot (h ++ es1)) as [Hfd _].
  cbv zeta in Hd. destruct Hd as (Hd1 & Hd2 & Hd3 & Hd4).
  destruct (analyzePageWithAI sys shot (h ++ es1)) as [[v | e |] es2];
    cbn [fst snd] in *; [| rewrite !count_events_app; repeat split; lia | contradiction].
  pose proof (executeAction_counts page v (h ++ es1 ++ es2)) as Hx.
  destruct (executeAction_behaves page v (h ++ es1 ++ es2)) as [Hfx _].
  cbv zeta in Hx. destruct Hx as (Hx1 & Hx2 & Hx3 & Hx4).
  destruct v as [| a | shown r].
  - cbn [fst snd]. rewrite !count_events_app. repeat split; lia.
  - destruct (action a =? "none"); cbn [fst snd].
    + rewrite !count_events_app, Ho1, Ho2, Ho3, Hd1, Hd2, Hd3. cbn.
      repeat split; try lia.
      exists (es1 ++ es2), (reason a). rewrite <- app_assoc, count_events_app.
      split; [reflexivity | lia].
    + destruct (executeAction page a (h ++ es1 ++ es2)) as [[b | e |] es3];
        cbn [fst snd] in *;
        [| rewrite !count_events_app; repeat split; lia | contradiction].
      rewrite !count_events_app, Ho1, Ho2, Ho3, Ho4, Hd1, Hd2, Hd3, Hd4,
        Hx1, Hx2, Hx3, Hx4.
      destruct b; cbn; repeat split; lia.
  - destruct (executeAction page (JSON_other shown r) (h ++ es1 ++ es2))
      as [[b | e |] es3];
      cbn [fst snd] in *;
      [| rewrite !count_events_app; repeat split; lia | contradiction].
    rewrite !count_events_app, Ho1, Ho2, Ho3, Ho4, Hd1, Hd2, Hd3, Hd4,
      Hx1, Hx2, Hx3, Hx4.
    destruct b; cbn; repeat split; lia.
Qed.

(** The loop, from any state that has not passed the cap. *)
Lemma handlePageInteractions_loop_spec fuel :
  forall sys page maxAttempts found attempts h,
    attempts <= maxAttempts ->
    maxAttempts - attempts <= fuel ->
    let r := fst (handlePageInteractions_loop fuel sys page maxAttempts found attempts h) in
    let es := snd (handlePageInteractions_loop fuel sys page maxAttempts found attempts h) in
    let started := count_events is_attempt_start es in
    r <> OutOfFuel
    /\ count_events is_screenshot es = started
    /\ count_events is_classifier_call es <= started
    /\ attempts + started <= maxAttempts
    /\ ((exists es0 rs,
            es = es0 ++ [EvLog (LogNoInteractionsNeeded rs)]
            /\ count_events is_none_decision es0 = 0
            /\ (exists locals, r = Ok locals)
            /\ count_events is_classifier_call es = started
            /\ 1 <= started)
        \/ (count_events is_none_decision es = 0
            /\ forall locals, r = Ok locals ->
                 count_events is_classifier_call es = started
                 /\ attempts + started = maxAttempts
                 /\ snd locals = maxAttempts)).
Proof.
  induction fuel as [| fuel IH]; intros sys page maxAttempts found attempts h Hle Hfuel;
    cbn [handlePageInteractions_loop]; destruct (Nat.ltb_spec attempts maxAttempts) as [Hlt | Hge].
  - lia.
  - cbn. repeat split; try discriminate; try lia.
    right. split; [reflexivity|]. intros locals [= <-]. cbn. repeat split; lia.
  - unfold bind.
    pose proof (attempt_spec sys page maxAttempts found attempts h) as Ha.
    cbv zeta in Ha. destruct Ha as (Ha1 & Ha2 & Ha3).
    destruct (attempt sys page maxAttempts found attempts h) as [[[f | f] | e |] es1];
      cbn [fst snd] in *.
    + (* the classifier answered none *)
      destruct Ha3 as (Hc & es0 & rs & Hes & Hn).
      cbn [ret fst snd]. rewrite !app_nil_r. rewrite Ha1, Ha2, Hc.
      repeat split; try discriminate; try lia.
      left. exists es0, rs. repeat split; try assumption; try lia. now eexists.
    + (* the loop goes round *)
      destruct Ha3 as (Hc & Hn).
      specialize (IH sys page maxAttempts f (attempts + 1) (h ++ es1)).
      cbv zeta in IH.
      destruct IH as (Hr & Hs & Hcl & Hcap & Hcases); [lia | lia |].
      destruct (handlePageInteractions_loop fuel sys page maxAttempts f (attempts + 1)
                  (h ++ es1)) as [r es2]; cbn [fst snd] in *.
      rewrite !count_events_app, Ha1, Ha2, Hc.
      repeat split; try assumption; try lia.
      destruct Hcases as [(es0 & rs & -> & Hn0 & Hret & Hcl' & Hst) | (Hn0 & Hret)].
      * left. exists (es1 ++ es0), rs. rewrite app_assoc, count_events_app.
        repeat split; try assumption; try lia.
      * right. split; [lia|]. intros locals Hl. specialize (Hret locals Hl). lia.
    + (* an error escapes the loop body *)
      destruct Ha3 as (Hc & Hn).
      rewrite Ha1, Ha2. repeat split; try discriminate; try lia.
      right. split; [assumption|]. intros locals [=].
    + contradiction.
  - cbn. repeat split; try discriminate; try lia.
    right. split; [reflexivity|]. intros locals [= <-]. cbn. repeat split; lia.
Qed.

(** The model loop is given enough fuel: the function always ends, in a
    value or in a thrown error. *)
Lemma handlePageInteractions_total sys page maxAttempts h :
  fst (handlePageInteractions sys page maxAttempts h) <> OutOfFuel.
Proof.
  unfold handlePageInteractions, handlePageInteractions_locals, bind.
  destruct (handlePageInteractions_loop_spec maxAttempts sys page maxAttempts false 0 h)
    as (Hr & _); [lia | lia |].
  destruct (handlePageInteractions_loop maxAttempts sys page maxAttempts false 0 h)
    as [[locals | e |] es]; cbn in *; congruence.
Qed.

(** Bounds that hold of every run, also of one that an error cuts short:
    the loop ends; it starts at most [maxAttempts] attempts, each with one
    screenshot and at most one classification; a line 180 is the last event
    of the run. *)
Lemma handlePageInteractions_bounds :
  forall sys page maxAttempts h,
    let r := fst (handlePageInteractions sys page maxAttempts h) in
    let es := snd (handlePageInteractions sys page maxAttempts h) in
    let attempts := count_events is_attempt_start es in
    let classified := count_events is_classifier_call es in
    r <> OutOfFuel
    /\ classified <= attempts
    /\ attempts <= maxAttempts
    /\ count_events is_screenshot es = attempts
    /\ ((exists es0 rs,
            es = es0 ++ [EvLog (LogNoInteractionsNeeded rs)]
            /\ count_events is_none_decision es0 = 0
            /\ (exists b, r = Ok b)
            /\ classified = attempts
            /\ 1 <= attempts)
        \/ (count_events is_none_decision es = 0
            /\ forall b, r = Ok b ->
                 classified = maxAttempts /\ attempts = maxAttempts)).
Proof.
  intros sys page maxAttempts h. cbv zeta.
  unfold handlePageInteractions, handlePageInteractions_locals, bind.
  destruct (handlePageInteractions_loop_spec maxAttempts sys page maxAttempts false 0 h)
    as (Hr & Hs & Hc & Hcap & Hcases); [lia | lia |].
  destruct (handlePageInteractions_loop maxAttempts sys page maxAttempts false 0 h)
    as [[locals | e |] es]; cbn [fst snd ret] in *; rewrite ?app_nil_r;
    try contradiction; (repeat split; [discriminate | lia | lia | lia |]).
  - destruct Hcases as [(es0 & rs & Hes & Hn & _ & Hcl & Hst) | (Hn & Hret)].
    + left. exists es0, rs. repeat split; try assumption. now eexists.
    + right. split; [assumption|]. intros b _.
      destruct (Hret locals eq_refl) as (H1 & H2 & _). lia.
  - destruct Hcases as [(es0 & rs & Hes & Hn & [locals [=]] & _) | (Hn & Hret)].
    right. split; [assumption|]. intros b [=].
Qed.

(** C2.  With [maxAttempts = 0] the loop body is never entered: nothing is
    emitted (no screenshot, no classification) and the function returns
    [false], its locals being [interactionFound = false] and
    [attempts = 0]. *)
Theorem handlePageInteractions_zero_attempts :
  forall sys page h,
    handlePageInteractions sys page 0 h = (Ok false, [])
    /\ handlePageInteractions_locals sys page 0 h = (Ok (false, 0), []).
Proof. intros sys page h. split; reflexivity. Qed.

(** Two runs with a cap of three: the classifier answers [none] at the
    second attempt, and the classifier never answers [none]. *)
Example handlePageInteractions_none_at_second_attempt :
  let run :=
    handlePageInteractions_locals
      (scripted_sys [reply json_scroll_300; reply json_none; reply json_click_accept]
                    (Resolved tt))
      three_frames 3 [] in
  fst run = Ok (true, 1)
  /\ count_events is_attempt_start (snd run) = 2
  /\ count_events is_classifier_call (snd run) = 2
  /\ last (snd run) (EvFrames 0)
     = EvLog (LogNoInteractionsNeeded (Some "Failed to get response")).
Proof. repeat split. Qed.

Example handlePageInteractions_cap_reached :
  let run :=
    handlePageInteractions_locals
      (scripted_sys [reply json_click_missing; reply json_scroll_300;
                     reply json_click_accept; reply json_none]
                    (Resolved tt))
      three_frames 3 [] in
  fst run = Ok (true, 3)
  /\ count_events is_attempt_start (snd run) = 3
  /\ count_events is_classifier_call (snd run) = 3
  /\ count_events is_none_decision (snd run) = 0
  /\ count_events is_timer (snd run) = 2.
Proof. repeat split. Qed.

(** C3.  The write of the screenshot (line 172) is awaited outside any
    [try]: when it rejects, the error leaves [handlePageInteractions] in the
    first attempt, before the classifier is asked. *)
Theorem handlePageInteractions_write_failure_aborts :
  handlePageInteractions
    (scripted_sys [reply json_scroll_300; reply json_none]
                  (Rejected "EACCES: permission denied"))
    three_frames 3 []
  = (Throw "EACCES: permission denied",
     [ EvLog (LogAttempt 1 3);
       EvScreenshot (Resolved "iVBORw0KGgo=");
       EvNow "2024-05-06T07:08:09.123Z";
       EvWriteFile "screenshot-interaction-2024-05-06T07-08-09-123Z.png"
                   "iVBORw0KGgo=" (Rejected "EACCES: permission denied") ]).
Proof. reflexivity. Qed.

(** The same at every attempt of every run: a rejected write ends the
    attempt with the write's error. *)
Lemma attempt_write_failure sys page maxAttempts found attempts h screenshot e :
  page_screenshot page (h ++ [EvLog (LogAttempt (attempts + 1) maxAttempts)])
    = Resolved screenshot ->
  (forall h' filename, fs_writeFile sys h' filename screenshot = Rejected e) ->
  fst (attempt sys page maxAttempts found attempts h) = Throw e.
Proof.
  intros Hshot Hwrite. unfold attempt, observe, bind, call, ask, console_log, emit.
  cbn. rewrite Hshot. cbn. rewrite Hwrite. reflexivity.
Qed.



(* ===================================================================== *)
(** * The executor: scrolling *)
(* ===================================================================== *)

Lemma executeAction_scroll_unfold page a h :
  action a = "scroll" ->
  executeAction page a h =
  match JS.truthy_number (scrollAmount a) with
  | Some amount =>
      match page_scrollBy page (h ++ [EvLog (LogExecutingAction a)]) amount with
      | Resolved u =>
          (Ok true,
           [ EvLog (LogExecutingAction a);
             EvScrollBy amount (Resolved u);
             EvLog (LogScrolled amount) ])
      | Rejected e =>
          (Throw e, [EvLog (LogExecutingAction a); EvScrollBy amount (Rejected e)])
      end
  | None => (Ok false, [EvLog (LogExecutingAction a)])
  end.
Proof.
  intros Htag. unfold executeAction. rewrite Htag. cbn [String.eqb Ascii.eqb Bool.eqb].
  unfold bind, call, console_log, emit, ret. cbn.
  destruct (JS.truthy_number (scrollAmount a)) as [amount |]; [| reflexivity].
  destruct (page_scrollBy page _ amount); reflexivity.
Qed.

(** C4, as the code has it.  For a [scroll] action whose amount is present
    and not zero, [executeAction] asks the page to scroll by that many
    pixels and, when the page has done so, reports [true]; it reports
    [false], without scrolling, when the amount is absent or zero, and only
    then. *)
Theorem executeAction_scroll :
  forall page a h,
    action a = "scroll" ->
    let logged := EvLog (LogExecutingAction a) in
    (forall amount,
        scrollAmount a = Some amount -> amount <> 0%Z ->
        let r := page_scrollBy page (h ++ [logged]) amount in
        In (EvScrollBy amount r) (snd (executeAction page a h))
        /\ (forall u, r = Resolved u ->
            executeAction page a h
            = (Ok true, [logged; EvScrollBy amount r; EvLog (LogScrolled amount)])))
    /\ (scrollAmount a = None \/ scrollAmount a = Some 0%Z ->
        executeAction page a h = (Ok false, [logged]))
    /\ (fst (executeAction page a h) = Ok false ->
        scrollAmount a = None \/ scrollAmount a = Some 0%Z).
Proof.
  intros page a h Htag logged. rewrite (executeAction_scroll_unfold _ _ _ Htag).
  fold logged. split; [| split].
  - intros amount Ha Hnz r. rewrite Ha. cbn.
    destruct (Z.eqb_spec amount 0) as [-> | _]; [contradiction|].
    fold r. destruct r as [u | e]; cbn.
    + split; [now right; left|]. now intros u' [= <-].
    + split; [now right; left|]. intros u' [=].
  - intros [-> | ->]; reflexivity.
  - destruct (scrollAmount a) as [amount |]; [| now left]. cbn.
    destruct (Z.eqb_spec amount 0) as [-> | _]; [now right|].
    destruct (page_scrollBy page _ amount); cbn; discriminate.
Qed.

Lemma executeAction_scroll_witness :
  executeAction three_frames scroll_300 []
  = (Ok true,
     [ EvLog (LogExecutingAction scroll_300);
       EvScrollBy 300 (Resolved tt);
       EvLog (LogScrolled 300) ]).
Proof.
  exact (proj2 (proj1 (executeAction_scroll three_frames scroll_300 [] eq_refl)
                  300%Z eq_refl ltac:(discriminate)) tt eq_refl).
Defined.

(** C4 as stated fails: the amount is present, yet nothing is scrolled and
    [false] is reported, because [0] is falsy in [if (action.scrollAmount)]. *)
Lemma executeAction_scroll_zero_reports_false :
  scrollAmount scroll_0 = Some 0%Z
  /\ executeAction three_frames scroll_0 []
     = (Ok false, [EvLog (LogExecutingAction scroll_0)])
  /\ ~ (forall page a h amount,
          action a = "scroll" -> scrollAmount a = Some amount ->
          fst (executeAction page a h) = Ok true).
Proof.
  split; [reflexivity|]. split; [reflexivity|].
  intros H. specialize (H three_frames scroll_0 [] 0%Z eq_refl eq_refl). discriminate.
Qed.

(* ===================================================================== *)
(** * The classifier *)
(* ===================================================================== *)

Lemma analyzePageWithAI_unfold sys base64Image h :
  analyzePageWithAI sys base64Image h =
  let asked := openai_create sys h base64Image in
  let failed e :=
    (Ok (JSON_action (none_action "Error parsing AI response")),
     [EvError (LogFailedParse e)]) in
  match asked with
  | Rejected e =>
      (fst (failed e), EvChatCreate base64Image asked :: snd (failed e))
  | Resolved response =>
      match first_choice_content response with
      | Rejected e =>
          (fst (failed e), EvChatCreate base64Image asked :: snd (failed e))
      | Resolved got =>
          let text := content_or_fallback got in
          match JSON_parse sys text with
          | Resolved a =>
              (Ok a, [EvChatCreate base64Image asked; EvLog (LogAIAnalysis text)])
          | Rejected e =>
              (fst (failed e),
               EvChatCreate base64Image asked :: EvLog (LogAIAnalysis text)
                 :: snd (failed e))
          end
      end
  end.
Proof.
  unfold analyzePageWithAI, try_catch, bind, call, console_log, console_error,
    emit, ret, settle. cbn.
  destruct (openai_create sys h base64Image) as [response | e]; cbn; [| reflexivity].
  destruct (first_choice_content response) as [got | e]; cbn; [| reflexivity].
  destruct (JSON_parse sys _); reflexivity.
Qed.



(** A run in which the model's content is missing and a run in which its
    text is not JSON. *)
Example analyzePageWithAI_degrades :
  fst (analyzePageWithAI
         (scripted_sys [Resolved {| choices := [] |}] (Resolved tt)) "iVBORw0KGgo=" [])
  = Ok (JSON_action (none_action "Failed to get response"))
  /\ fst (analyzePageWithAI
            (scripted_sys [reply "Sorry, I cannot help with that"] (Resolved tt))
            "iVBORw0KGgo=" [])
     = Ok (JSON_action (none_action "Error parsing AI response"))
  /\ fst (analyzePageWithAI (scripted_sys [] (Resolved tt)) "iVBORw0KGgo=" [])
     = Ok (JSON_action (none_action "Error parsing AI response")).
Proof. repeat split. Qed.

(* ===================================================================== *)
(** * Clicking by text across the frames *)
(* ===================================================================== *)

Lemma click_index_returns f allElements idx :
  returns (click_index f allElements idx).
Proof.
  unfold click_index. apply returns_try_catch.
  - intros h. destruct (nth_error allElements idx) as [el |]; cbn; [| discriminate].
    now destruct (element_click el).
  - intros e. apply returns_emit.
Qed.

(** What one frame's callback resolves to depends on that frame alone. *)
Lemma click_in_frame_result searchText f h :
  exists r es,
    click_in_frame searchText f h = (Ok r, es)
    /\ fr_frame r = frame_label f
    /\ fr_found r = match frame_matches searchText f with
                    | Some _ => true
                    | None => false
                    end
    /\ fr_count r = matches_of searchText f.
Proof.
  unfold matches_of, frame_matches.
  destruct (frame_eval f) as [els | e] eqn:Heval.
  - destruct (List.length (matching_indexes els searchText)) as [| n] eqn:Hlen.
    + unfold click_in_frame, try_catch, bind, call. rewrite Heval. cbn. rewrite Hlen. cbn.
      eexists _, _. split; [reflexivity|]. now repeat split.
    + destruct (frame_query f) as [hs | e] eqn:Hquery.
      * set (clicks := Promise_all
                         (map (click_index f hs) (matching_indexes els searchText))).
        assert (Hclicks : returns clicks).
        { apply returns_Promise_all, Forall_forall. intros m Hm.
          apply in_map_iff in Hm as [idx [<- _]]. apply click_index_returns. }
        unfold click_in_frame, try_catch, bind, call. rewrite Heval. cbn. rewrite Hlen. cbn.
        rewrite Hquery. cbn. fold clicks.
        match goal with |- context [clicks ?h'] => destruct (Hclicks h') as [us Hus];
          destruct (clicks h') as [r' es'] end.
        cbn in Hus. subst r'. cbn.
        eexists _, _. split; [reflexivity|]. now repeat split.
      * unfold click_in_frame, try_catch, bind, call. rewrite Heval. cbn. rewrite Hlen. cbn.
        rewrite Hquery. cbn.
        eexists _, _. split; [reflexivity|]. now repeat split.
  - unfold click_in_frame, try_catch, bind, call. rewrite Heval. cbn.
    eexists _, _. split; [reflexivity|]. now repeat split.
Qed.

(** The frames' callbacks all resolve, each to its own frame's result. *)
Lemma click_in_frames_results searchText frames :
  forall h, exists rs es,
    Promise_all (map (click_in_frame searchText) frames) h = (Ok rs, es)
    /\ Forall2 (fun f r =>
                  fr_frame r = frame_label f
                  /\ fr_found r = match frame_matches searchText f with
                                  | Some _ => true
                                  | None => false
                                  end
                  /\ fr_count r = matches_of searchText f) frames rs.
Proof.
  induction frames as [| f frames IH]; intros h; cbn [map Promise_all].
  - exists [], []. split; [reflexivity | constructor].
  - destruct (click_in_frame_result searchText f h) as (r & es1 & Hr & Hprops).
    destruct (IH (h ++ es1)) as (rs & es2 & Hrs & Hall).
    exists (r :: rs), (es1 ++ es2 ++ []).
    split; [| now constructor].
    rewrite (bind_Ok _ _ _ _ _ Hr). rewrite (bind_Ok _ _ _ _ _ Hrs). reflexivity.
Qed.

Lemma fold_left_sum {A} (g : A -> nat) (xs : list A) (acc : nat) :
  fold_left (fun sum r => sum + g r) xs acc = acc + list_sum (map g xs).
Proof.
  revert acc. induction xs as [| x xs IH]; intros acc; cbn [fold_left map].
  - cbn. lia.
  - rewrite IH. change (list_sum (g x :: map g xs)) with (g x + list_sum (map g xs)). lia.
Qed.

Lemma forEach_log {A} (g : A -> LogMsg) (xs : list A) h :
  forEach xs (fun r => console_log (g r)) h = (Ok tt, map (fun r => EvLog (g r)) xs).
Proof.
  revert h. induction xs as [| x xs IH]; intros h; cbn [forEach map]; [reflexivity|].
  unfold bind. cbn. now rewrite IH.
Qed.

(** The successful frames' results are those of the matched frames. *)
Lemma successful_frames searchText frames rs :
  Forall2 (fun f r =>
             fr_frame r = frame_label f
             /\ fr_found r = match frame_matches searchText f with
                             | Some _ => true
                             | None => false
                             end
             /\ fr_count r = matches_of searchText f) frames rs ->
  map (fun r => EvLog (LogFrameCount (fr_frame r) (fr_count r))) (filter fr_found rs)
  = map (fun f => EvLog (LogFrameCount (frame_label f) (matches_of searchText f)))
        (matched_frames searchText frames)
  /\ List.length (filter fr_found rs) = List.length (matched_frames searchText frames)
  /\ list_sum (map fr_count (filter fr_found rs)) = total_matches searchText frames.
Proof.
  unfold total_matches, matched_frames.
  induction 1 as [| f r frames rs (Hl & Hf & Hc) _ (IH1 & IH2 & IH3)];
    [now repeat split|].
  cbn [filter map]. unfold matches_of in *.
  assert (Hcons : forall x l, list_sum (x :: l) = x + list_sum l) by reflexivity.
  destruct (frame_matches searchText f) as [n |] eqn:Hm; rewrite Hf;
    cbn [map List.length]; rewrite ?Hm, ?Hcons, ?Hl, ?Hc, IH1, IH2, IH3;
    now repeat split.
Qed.

(** One click leaves [click_events], and never throws. *)
Lemma click_index_run f allElements idx h :
  click_index f allElements idx h = (Ok tt, click_events f allElements idx).
Proof.
  unfold click_index, click_events, try_catch, call, console_error, emit, ret.
  destruct (nth_error allElements idx) as [el |]; [| reflexivity].
  destruct (element_click el) as [[] | e]; reflexivity.
Qed.

Lemma click_indexes_run f allElements idxs :
  forall h,
    Promise_all (map (click_index f allElements) idxs) h
    = (Ok (map (fun _ => tt) idxs), flat_map (click_events f allElements) idxs).
Proof.
  induction idxs as [| idx idxs IH]; intros h; cbn [map Promise_all flat_map];
    [reflexivity|].
  rewrite (bind_Ok _ _ _ _ _ (click_index_run f allElements idx h)).
  rewrite (bind_Ok _ _ _ _ _ (IH _)). cbn. now rewrite app_nil_r.
Qed.

(** One frame leaves [frame_events], whatever the history. *)
Lemma click_in_frame_run searchText f h :
  snd (click_in_frame searchText f h) = frame_events searchText f.
Proof.
  unfold click_in_frame, frame_events, try_catch.
  destruct (frame_eval f) as [els | e] eqn:Hels.
  - remember (matching_indexes els searchText) as idxs eqn:Hidxs.
    assert (Heval : forall A (ev : Settled (list nat) -> Event) (k : list nat -> M A),
               bind (call (fun _ => Resolved idxs) ev) k h
               = (fst (k idxs (h ++ [ev (Resolved idxs)])),
                  ev (Resolved idxs) :: snd (k idxs (h ++ [ev (Resolved idxs)]))))
      by (intros; unfold bind, call; cbn; now destruct (k idxs _)).
    cbn [map_settled]. rewrite <- Hidxs, Heval. cbv zeta.
    destruct idxs as [| idx rest]; [reflexivity|].
    cbn [List.length Nat.eqb].
    destruct (frame_query f) as [hs | e] eqn:Hquery; [| reflexivity].
    match goal with
    | |- context [bind (call ?c ?ev) ?k ?h'] =>
        assert (Hinner : bind (call c ev) k h'
                         = (Ok {| fr_frame := frame_label f; fr_found := true;
                                  fr_count := List.length (idx :: rest);
                                  fr_error := None |},
                            EvFrameQuery (frame_label f) (Resolved (List.length hs))
                            :: flat_map (click_events f hs) (idx :: rest)))
    end.
    { unfold bind at 1, call at 1. cbn [await].
      rewrite (bind_Ok _ _ _ _ _ (click_indexes_run f hs (idx :: rest) _)).
      cbn [fst snd ret map_settled app]. now rewrite app_nil_r. }
    rewrite Hinner. reflexivity.
  - reflexivity.
Qed.

Lemma click_in_frames_run searchText frames :
  forall h rs es,
    Promise_all (map (click_in_frame searchText) frames) h = (Ok rs, es) ->
    es = flat_map (frame_events searchText) frames.
Proof.
  induction frames as [| f frames IH]; intros h rs es; cbn [map Promise_all flat_map].
  - now intros [= _ <-].
  - destruct (click_in_frame_result searchText f h) as (r & es1 & Hr & _).
    pose proof (click_in_frame_run searchText f h) as Hes1.
    rewrite Hr in Hes1. cbn in Hes1. subst es1.
    rewrite (bind_Ok _ _ _ _ _ Hr).
    destruct (click_in_frames_results searchText frames (h ++ frame_events searchText f))
      as (rs' & es2 & Hrs & _).
    rewrite (bind_Ok _ _ _ _ _ Hrs). cbn. intros [= _ <-].
    now rewrite app_nil_r, (IH _ _ _ Hrs).
Qed.

(** C6.  [clickElementsByText] returns normally whatever the frames do: a
    frame whose query rejects and an element whose click rejects are caught
    where they happen.  Its trace is fixed frame by frame and element by
    element: after [page.frames()], every frame contributes [frame_events],
    which is read off that frame alone, and in it every matching element
    contributes [click_events], read off that element alone; so every
    matching element of every frame whose two queries resolve is clicked,
    whatever the other frames and elements do.  The closing report is
    [click_report]: the number of matching elements of every frame whose
    two queries resolved with a match, their total and the number of such
    frames, or the line saying that nothing was found when no frame has a
    match. *)
Theorem clickElementsByText_never_fails :
  forall page targetText h,
    let frames := page_frames page h in
    let searchText := JS.toLowerCase targetText in
    clickElementsByText page targetText h
    = (Ok tt,
       EvFrames (List.length frames)
       :: flat_map (frame_events searchText) frames
          ++ click_report targetText frames)
    /\ (forall f els allElements idx el,
          In f frames ->
          frame_eval f = Resolved els ->
          frame_query f = Resolved allElements ->
          In idx (matching_indexes els searchText) ->
          nth_error allElements idx = Some el ->
          In (EvElementClick (frame_label f) idx (element_click el))
             (snd (clickElementsByText page targetText h))).
Proof.
  intros page targetText h frames searchText.
  assert (Hrun : clickElementsByText page targetText h
                 = (Ok tt,
                    EvFrames (List.length frames)
                    :: flat_map (frame_events searchText) frames
                       ++ click_report targetText frames)).
  { unfold clickElementsByText.
    destruct (click_in_frames_results (JS.toLowerCase targetText) frames
                (h ++ [EvFrames (List.length frames)])) as (rs & es & Hrs & Hall).
    pose proof (click_in_frames_run _ _ _ _ _ Hrs) as Hes. fold searchText in Hes.
    destruct (successful_frames _ _ _ Hall) as (Hlogs & Hlen & Hsum).
    assert (Hask : ask (page_frames page) (fun fs => EvFrames (List.length fs)) h
                   = (Ok frames, [EvFrames (List.length frames)])) by reflexivity.
    assert (Htail : forall h',
               (if (0 <? List.length (filter fr_found rs))%nat
                then
                  console_log
                    (LogFoundAndClicked
                       (fold_left (fun sum r => sum + fr_count r) (filter fr_found rs) 0)
                       targetText (List.length (filter fr_found rs))) ;;
                  forEach (filter fr_found rs)
                    (fun r => console_log (LogFrameCount (fr_frame r) (fr_count r)))
                else console_log (LogNoElementsFound targetText)) h'
               = (Ok tt, click_report targetText frames)).
    { intros h'. unfold click_report. fold frames.
      rewrite fold_left_sum, Hsum, Hlen. cbn [Nat.add].
      destruct (matched_frames (JS.toLowerCase targetText) frames) as [| f fs].
      - reflexivity.
      - cbn [List.length Nat.ltb Nat.leb].
        unfold bind, console_log at 1, emit. rewrite forEach_log, Hlogs. reflexivity. }
    rewrite (bind_Ok _ _ _ _ _ Hask). rewrite (bind_Ok _ _ _ _ _ Hrs).
    cbn [fst snd]. rewrite Htail, Hes. reflexivity. }
  split; [exact Hrun|].
  intros f els allElements idx el Hf Hels Hquery Hidx Hel. rewrite Hrun. cbn [snd].
  right. apply in_or_app. left. apply in_flat_map. exists f. split; [exact Hf|].
  unfold frame_events. rewrite Hels. cbv zeta.
  destruct (matching_indexes els searchText) as [| i0 idxs] eqn:Hidxs; [contradiction|].
  rewrite Hquery. right. right. apply in_flat_map. exists idx. split; [exact Hidx|].
  unfold click_events. rewrite Hel. now left.
Qed.

Example clickElementsByText_three_frames :
  clickElementsByText three_frames "Accept" []
  = (Ok tt,
     [ EvFrames 3;
       EvFrameEval "https://example.org/" (Resolved [1; 2]);
       EvFrameQuery "https://example.org/" (Resolved 3);
       EvElementClick "https://example.org/" 1 (Resolved tt);
       EvElementClick "https://example.org/" 2 (Rejected "Node is detached from document");
       EvError (LogClickError 2 "Node is detached from document");
       EvFrameEval "consent" (Resolved [0]);
       EvFrameQuery "consent" (Resolved 1);
       EvElementClick "consent" 0 (Resolved tt);
       EvFrameEval "ad" (Rejected "Execution context was destroyed");
       EvError (LogFrameError "ad" "Execution context was destroyed");
       EvLog (LogFoundAndClicked 3 "Accept" 2);
       EvLog (LogFrameCount "https://example.org/" 2);
       EvLog (LogFrameCount "consent" 1) ]).
Proof. reflexivity. Qed.

(** The comparison in lower case reaches the accented letters too. *)
Example clickElementsByText_accented :
  JS.toLowerCase ETE = ete
  /\ clickElementsByText (sample_page [summer_frame] (Resolved tt)) ETE []
     = (Ok tt,
        [ EvFrames 1;
          EvFrameEval "main" (Resolved [0]);
          EvFrameQuery "main" (Resolved 1);
          EvElementClick "main" 0 (Resolved tt);
          EvLog (LogFoundAndClicked 1 ETE 1);
          EvLog (LogFrameCount "main" 1) ]).
Proof. split; reflexivity. Qed.

(* ===================================================================== *)
(** * The code-block rule *)
(* ===================================================================== *)

Lemma append_nil_r (s : string) : (s ++ "")%string = s.
Proof. induction s as [| c s IH]; cbn; [reflexivity | now rewrite IH]. Qed.

Lemma append_assoc (s t u : string) : ((s ++ t) ++ u = s ++ t ++ u)%string.
Proof. induction s as [| c s IH]; cbn; [reflexivity | now rewrite IH]. Qed.

Lemma lines_cons s : exists l ls, lines s = l :: ls.
Proof.
  induction s as [| c s (l & ls & IH)]; cbn [lines]; [now eexists _, _|].
  destruct (Ascii.eqb c JS.nl); [now eexists _, _|]. rewrite IH. now eexists _, _.
Qed.

Lemma strip_trailing_head c s c1 r1 :
  strip_trailing_newlines (String c s) = String c1 r1 -> c1 = c.
Proof.
  cbn [strip_trailing_newlines].
  destruct (strip_trailing_newlines s); [destruct (Ascii.eqb c JS.nl)|];
    congruence.
Qed.

Lemma collapse_cons_other c s :
  Ascii.eqb c JS.nl = false ->
  collapse_newlines (String c s) = String c (collapse_newlines s).
Proof.
  intros Hc. cbn [collapse_newlines]. rewrite Hc. now destruct s.
Qed.

Lemma collapse_cons2 c c' r :
  collapse_newlines (String c (String c' r))
  = if (Ascii.eqb c JS.nl && Ascii.eqb c' JS.nl)%bool
    then collapse_newlines (String c' r)
    else String c (collapse_newlines (String c' r)).
Proof. reflexivity. Qed.

(** After the trailing newlines are gone, collapsing the runs keeps the
    first line and every later line that is not blank. *)
Lemma collapse_strip_trailing s :
  forall l ls, lines s = l :: ls ->
    collapse_newlines (strip_trailing_newlines s)
    = (l ++ rest_lines (filter nonblank ls))%string.
Proof.
  induction s as [| c s IH]; intros l ls Hlines.
  - cbn in Hlines. injection Hlines as <- <-. reflexivity.
  - destruct (lines_cons s) as (l' & ls' & Hs). specialize (IH _ _ Hs).
    cbn [lines] in Hlines. rewrite Hs in Hlines.
    destruct (Ascii.eqb c JS.nl) eqn:Hc.
    + injection Hlines as <- <-. apply Ascii.eqb_eq in Hc. subst c.
      cbn [strip_trailing_newlines].
      destruct (strip_trailing_newlines s) as [| c1 r1] eqn:Hstrip.
      * cbn in IH |- *.
        destruct l' as [| c' l'']; [cbn; exact IH | discriminate IH].
      * cbn [String.append].
        destruct s as [| c2 s2]; [discriminate Hstrip|].
        pose proof (strip_trailing_head _ _ _ _ Hstrip) as ->.
        rewrite collapse_cons2, Ascii.eqb_refl. cbn [andb]. cbn [lines] in Hs.
        destruct (Ascii.eqb c2 JS.nl) eqn:Hc2.
        -- injection Hs as <- <-. exact IH.
        -- destruct (lines s2) as [| m ms]; injection Hs as <- <-;
             cbn [filter nonblank is_blank String.eqb negb rest_lines String.append JS.NL]
               in IH |- *;
             now rewrite IH.
    + injection Hlines as <- <-.
      cbn [strip_trailing_newlines]. rewrite Hc.
      assert (Hstrip : match strip_trailing_newlines s with
                       | EmptyString => String c EmptyString
                       | String a s0 => String c (String a s0)
                       end = String c (strip_trailing_newlines s))
        by now destruct (strip_trailing_newlines s).
      rewrite Hstrip, (collapse_cons_other _ _ Hc), IH. reflexivity.
Qed.

(** [cleanContent] keeps exactly the lines that are not blank. *)
Lemma cleanContent_lines content :
  cleanContent content = unlines (filter nonblank (lines content)).
Proof.
  unfold cleanContent. induction content as [| c s IH].
  - reflexivity.
  - cbn [strip_leading_newlines lines]. destruct (Ascii.eqb c JS.nl) eqn:Hc.
    + exact IH.
    + destruct (lines_cons (String c s)) as (l & ls & Hl).
      rewrite (collapse_strip_trailing _ _ _ Hl).
      cbn [lines] in Hl. rewrite Hc in Hl.
      destruct (lines s) as [| m ms]; injection Hl as <- <-; reflexivity.
Qed.

Lemma prefix_drop p s :
  String.prefix p s = true -> s = (p ++ JS.drop (String.length p) s)%string.
Proof.
  revert s. induction p as [| c p IH]; intros s; [reflexivity|].
  destruct s as [| c' s]; cbn; [discriminate|].
  destruct (ascii_dec c c') as [<- | _]; [| discriminate].
  intros H. now rewrite <- (IH s H).
Qed.

Lemma prefix_append p s : String.prefix p (p ++ s) = true.
Proof.
  induction p as [| c p IH]; cbn; [now destruct s|].
  destruct (ascii_dec c c) as [_ | Hc]; [exact IH | contradiction].
Qed.

Lemma drop_append p s : JS.drop (String.length p) (p ++ s) = s.
Proof. induction p as [| c p IH]; cbn; [now destruct s | exact IH]. Qed.

Lemma take_word_split s :
  all_word (take_word s) = true /\ exists post, s = (take_word s ++ post)%string.
Proof.
  induction s as [| c s (IHw & post & IHs)]; cbn; [split; [reflexivity | now exists ""]|].
  destruct (is_word_char c) eqn:Hc; cbn.
  - rewrite Hc, IHw. split; [reflexivity|]. exists post. now rewrite <- IHs.
  - split; [reflexivity|]. now eexists.
Qed.

Lemma take_word_all w post :
  all_word w = true ->
  match post with
  | EmptyString => True
  | String c _ => is_word_char c = false
  end ->
  take_word (w ++ post) = w.
Proof.
  intros Hw Hpost. induction w as [| c w IH]; cbn in *.
  - destruct post as [| c post]; [reflexivity|]. cbn. now rewrite Hpost.
  - apply andb_true_iff in Hw as [Hc Hw]. rewrite Hc. now rewrite (IH Hw).
Qed.

(** [take_word] stops at the end of the text or at a character that is
    not of a word. *)
Lemma take_word_max s :
  exists post,
    s = (take_word s ++ post)%string
    /\ match post with
       | String c _ => is_word_char c = false
       | EmptyString => True
       end.
Proof.
  induction s as [| c s (post & IHs & IHpost)]; cbn [take_word].
  - now exists "".
  - destruct (is_word_char c) eqn:Hc.
    + exists post. cbn. now rewrite <- IHs.
    + exists (String c s). now split.
Qed.

Lemma language_here_Some s w :
  language_here s = Some w
  <-> exists post,
        s = ("language-" ++ w ++ post)%string
        /\ w <> "" /\ all_word w = true
        /\ match post with
           | String c _ => is_word_char c = false
           | EmptyString => True
           end.
Proof.
  unfold language_here. split.
  - destruct (String.prefix "language-" s) eqn:Hp; [| discriminate].
    apply prefix_drop in Hp. cbn [String.length] in Hp.
    destruct (take_word_split (JS.drop 9 s)) as (Hw & _).
    destruct (take_word_max (JS.drop 9 s)) as (post & Hsplit & Hpost).
    destruct (take_word (JS.drop 9 s)) as [| c1 w1] eqn:Htw; [discriminate|].
    intros [= <-]. exists post. rewrite <- Hsplit. now repeat split.
  - intros (post & -> & Hne & Hw & Hpost).
    rewrite prefix_append. change 9 with (String.length "language-").
    rewrite drop_append, (take_word_all _ _ Hw Hpost). now destruct w.
Qed.

Lemma language_here_None s :
  language_here s = None
  <-> forall c rest,
        s = ("language-" ++ String c rest)%string -> is_word_char c = false.
Proof.
  unfold language_here. split.
  - intros H c rest ->. rewrite prefix_append in H.
    change 9 with (String.length "language-") in H. rewrite drop_append in H.
    cbn [take_word] in H. now destruct (is_word_char c).
  - intros H. destruct (String.prefix "language-" s) eqn:Hp; [| reflexivity].
    apply prefix_drop in Hp. cbn [String.length] in Hp.
    destruct (JS.drop 9 s) as [| c rest]; [reflexivity|].
    cbn [take_word]. now rewrite (H c rest Hp).
Qed.

Lemma match_language_cons c s :
  match_language (String c s)
  = match language_here (String c s) with
    | Some w => Some w
    | None => match_language s
    end.
Proof. reflexivity. Qed.

(** The match is the leftmost [language-xxx] and its whole word. *)
Lemma match_language_Some s w :
  match_language s = Some w <-> is_language_of s w.
Proof.
  split.
  - revert w. induction s as [| c s IH]; intros w; [discriminate|].
    rewrite match_language_cons.
    destruct (language_here (String c s)) as [w' |] eqn:Hhere.
    + intros [= ->]. apply language_here_Some in Hhere
        as (post & Hs & Hne & Hw & Hpost).
      exists "", post. repeat split; try assumption. intros. cbn. lia.
    + intros H. destruct (IH w H) as (pre & post & -> & Hne & Hw & Hpost & Hleft).
      exists (String c pre), post. repeat split; try assumption.
      intros [| c' pre'] c0 rest Heq Hc0.
      * rewrite (proj1 (language_here_None _) Hhere c0 rest Heq) in Hc0. discriminate.
      * injection Heq as _ Heq. cbn [String.length].
        apply le_n_S. exact (Hleft pre' c0 rest Heq Hc0).
  - intros (pre & post & -> & Hne & Hw & Hpost & Hleft).
    induction pre as [| c pre IH].
    + assert (Hhere : language_here ("language-" ++ w ++ post) = Some w)
        by (apply language_here_Some; now exists post).
      change ("" ++ "language-" ++ w ++ post)%string
        with ("language-" ++ w ++ post)%string.
      destruct ("language-" ++ w ++ post)%string; cbn [match_language];
        now rewrite Hhere.
    + change (String c pre ++ "language-" ++ w ++ post)%string
        with (String c (pre ++ "language-" ++ w ++ post)) in *.
      rewrite match_language_cons.
      destruct (language_here (String c (pre ++ "language-" ++ w ++ post)))
        as [w' |] eqn:Hhere.
      * apply language_here_Some in Hhere as (post' & Hs & Hne' & Hw' & _).
        destruct w' as [| c1 w1]; [contradiction|].
        apply andb_true_iff in Hw' as [Hc1 _].
        specialize (Hleft "" c1 (w1 ++ post')%string Hs Hc1). cbn in Hleft. lia.
      * apply IH. intros pre' c0 rest Heq Hc0.
        apply le_S_n. apply (Hleft (String c pre') c0 rest); [| exact Hc0].
        change (String c pre' ++ "language-" ++ String c0 rest)%string
          with (String c (pre' ++ "language-" ++ String c0 rest)).
        now rewrite Heq.
Qed.

(** There is no match exactly when the class has no [language-xxx]. *)
Lemma match_language_None s :
  match_language s = None <-> has_no_language s.
Proof.
  unfold has_no_language. split.
  - induction s as [| c s IH]; intros H pre c0 rest Heq.
    + destruct pre; discriminate.
    + rewrite match_language_cons in H.
      destruct (language_here (String c s)) eqn:Hhere; [discriminate|].
      destruct pre as [| c' pre].
      * exact (proj1 (language_here_None _) Hhere c0 rest Heq).
      * injection Heq as _ Heq. exact (IH H pre c0 rest Heq).
  - induction s as [| c s IH]; intros H; [reflexivity|].
    rewrite match_language_cons.
    assert (Hhere : language_here (String c s) = None)
      by (apply language_here_None; intros c0 rest; apply (H "")).
    rewrite Hhere. apply IH. intros pre c0 rest Heq.
    apply (H (String c pre) c0 rest).
    change (String c pre ++ "language-" ++ String c0 rest)%string
      with (String c (pre ++ "language-" ++ String c0 rest)).
    now rewrite Heq.
Qed.

(** C8, as the code has it.  A [pre] element is rendered as a fence of
    three backticks with a language tag, the cleaned content and a closing
    fence.  The tag is resolved in order.  First the class attribute of the
    nested [code] element: the rule finds a tag there exactly when the
    attribute has a [language-] that a word character follows, and the tag
    is then the whole word after the leftmost such [language-].  Else a
    non-empty [data-language] attribute of the block; else [yaml].  The
    cleaned content is the lines of the content that are not empty, in
    order, one per line: leading and trailing newlines are removed and
    every run of two or more newlines becomes one newline, so that no blank
    line stays inside the block. *)
Theorem codeBlocks_replacement_spec :
  forall content node,
    codeBlocks_replacement content node
    = (JS.NL ++ "```" ++ resolve_language node ++ JS.NL
         ++ unlines (filter nonblank (lines content)) ++ JS.NL ++ "```" ++ JS.NL)%string
    /\ (forall code w,
          querySelector_code node = Some code ->
          (match_language (className code) = Some w
           <-> is_language_of (className code) w)
          /\ (is_language_of (className code) w -> resolve_language node = w))
    /\ (class_language node = None
        <-> match querySelector_code node with
            | Some code => has_no_language (className code)
            | None => True
            end)
    /\ (forall d,
          class_language node = None ->
          data_language node = Some d -> d <> "" ->
          resolve_language node = d)
    /\ (class_language node = None ->
        data_language node = None \/ data_language node = Some "" ->
        resolve_language node = "yaml").
Proof.
  intros content node. split; [| split; [| split; [| split]]].
  - unfold codeBlocks_replacement, fence. now rewrite cleanContent_lines.
  - intros code w Hcode. split; [apply match_language_Some|].
    intros Hw. apply match_language_Some in Hw.
    unfold resolve_language, class_language. now rewrite Hcode, Hw.
  - unfold class_language. destruct (querySelector_code node) as [code |].
    + apply match_language_None.
    + now split.
  - intros d Hclass Hd Hne. unfold resolve_language. rewrite Hclass, Hd. cbn.
    apply String.eqb_neq in Hne. now rewrite Hne.
  - intros Hclass Hd. unfold resolve_language. rewrite Hclass.
    destruct Hd as [-> | ->]; reflexivity.
Qed.

(** The leftmost [language-] that a word follows decides, and the word
    ends where the word characters end. *)
Example codeBlocks_leftmost_language :
  resolve_language
    {| querySelector_code := Some {| className := "hljs language- language-js language-ts" |};
       data_language := Some "python" |}
  = "js"
  /\ resolve_language
       {| querySelector_code := Some {| className := "xlanguage-py3.8" |};
          data_language := None |}
     = "py3"
  /\ resolve_language
       {| querySelector_code := Some {| className := "lang-js language-" |};
          data_language := Some "python" |}
     = "python".
Proof. repeat split. Qed.

(** The specification's sample: [language-python] and trailing newlines. *)
Example codeBlocks_python :
  codeBlocks_replacement ("print(1)" ++ JS.NL ++ JS.NL ++ JS.NL)
    {| querySelector_code := Some {| className := "language-python" |};
       data_language := None |}
  = (JS.NL ++ "```python" ++ JS.NL ++ "print(1)" ++ JS.NL ++ "```" ++ JS.NL)%string.
Proof. reflexivity. Qed.

(** C8 as stated fails.  Two blank lines between [a] and [b] are not
    collapsed to one blank line, they are removed, and so is a single blank
    line; and an empty [data-language] attribute gives [yaml], not the
    attribute. *)
Lemma codeBlocks_blank_lines_removed :
  cleanContent ("a" ++ JS.NL ++ JS.NL ++ JS.NL ++ "b") = ("a" ++ JS.NL ++ "b")%string
  /\ claimed_cleanContent ("a" ++ JS.NL ++ JS.NL ++ JS.NL ++ "b")
     = ("a" ++ JS.NL ++ JS.NL ++ "b")%string
  /\ cleanContent ("a" ++ JS.NL ++ JS.NL ++ "b") = ("a" ++ JS.NL ++ "b")%string
  /\ claimed_cleanContent ("a" ++ JS.NL ++ JS.NL ++ "b")
     = ("a" ++ JS.NL ++ JS.NL ++ "b")%string
  /\ codeBlocks_replacement "x"
       {| querySelector_code := None; data_language := Some "" |}
     = (JS.NL ++ "```yaml" ++ JS.NL ++ "x" ++ JS.NL ++ "```" ++ JS.NL)%string.
Proof. repeat split. Qed.

(* ===================================================================== *)
(** * The size limit of the tool response *)
(* ===================================================================== *)

Lemma take_length n s :
  n <= String.length s -> String.length (JS.take n s) = n.
Proof.
  revert s. induction n as [| n IH]; intros s Hn; [reflexivity|].
  destruct s as [| c s]; cbn in *; [lia|]. rewrite IH; lia.
Qed.

Lemma take_drop n s : (JS.take n s ++ JS.drop n s)%string = s.
Proof.
  revert s. induction n as [| n IH]; intros s; [reflexivity|].
  destruct s as [| c s]; cbn; [reflexivity | now rewrite IH].
Qed.

Lemma take_all n s : String.length s <= n -> JS.take n s = s.
Proof.
  revert s. induction n as [| n IH]; intros s Hn.
  - destruct s; [reflexivity | cbn in Hn; lia].
  - destruct s as [| c s]; cbn in *; [reflexivity|]. rewrite IH; [reflexivity | lia].
Qed.

(** [s.substring(0, n)] is the first [n] code units when [s] has them. *)
Lemma substring_prefix s n :
  (0 <= n <= JS.length s)%Z -> JS.substring s 0 n = JS.take (Z.to_nat n) s.
Proof.
  intros Hn. unfold JS.substring.
  rewrite (Z.max_l 0 0) by lia. rewrite (Z.min_l 0 (JS.length s)) by lia.
  rewrite (Z.max_l n 0) by lia. rewrite (Z.min_l n (JS.length s)) by lia.
  rewrite (Z.min_l 0 n) by lia. rewrite (Z.max_r 0 n) by lia.
  rewrite Z.sub_0_r. reflexivity.
Qed.

Lemma markdownContent_or_empty s :
  match JS.truthy_string (Some s) with Some t => t | None => "" end = s.
Proof. cbn. destruct (String.eqb_spec s ""); [now subst | reflexivity]. Qed.

Lemma truncated_length s :
  (maxLength < JS.length s)%Z ->
  JS.length (JS.substring s 0 maxLength) = maxLength.
Proof.
  intros Hlong. rewrite substring_prefix by (unfold maxLength in *; lia).
  unfold JS.length in *. rewrite take_length; [apply Z2Nat.id; discriminate|].
  apply Nat2Z.inj_le. rewrite Z2Nat.id; [lia | discriminate].
Qed.

Lemma limit_content_short s :
  (JS.length s <= maxLength)%Z -> limit_content (Some s) = (s, "Scraping successful").
Proof.
  intros Hshort. unfold limit_content. rewrite markdownContent_or_empty.
  destruct (Z.ltb_spec maxLength (JS.length s)); [lia | reflexivity].
Qed.

Lemma limit_content_long s :
  (maxLength < JS.length s)%Z ->
  limit_content (Some s)
  = (JS.substring s 0 maxLength,
     "Content truncated due to size (total size: 100000 characters)").
Proof.
  intros Hlong. unfold limit_content. rewrite markdownContent_or_empty.
  destruct (Z.ltb_spec maxLength (JS.length s)); [| lia].
  rewrite (truncated_length s Hlong). reflexivity.
Qed.

(** Two numbers with the same decimal rendering are equal. *)
Lemma number_to_string_inj n m :
  JS.number_to_string n = JS.number_to_string m -> n = m.
Proof.
  unfold JS.number_to_string. intros H.
  assert (Hnz : forall z, Z.to_int z <> Decimal.Pos Decimal.Nil
                          /\ Z.to_int z <> Decimal.Neg Decimal.Nil).
  { intros [| p | p]; cbn; split; try discriminate;
      intros [= Hp]; exact (Unsigned.to_uint_nonnil p Hp). }
  apply to_int_inj.
  destruct (Hnz n) as [Hn1 Hn2]. destruct (Hnz m) as [Hm1 Hm2].
  pose proof (NilZero.isi _ Hn1 Hn2) as En. pose proof (NilZero.isi _ Hm1 Hm2) as Em.
  rewrite H in En. congruence.
Qed.

(** C9.  The text of the response is the rendered Markdown itself when it
    has at most 100,000 characters, with the message
    [Scraping successful]; when it has more, the text is its first
    100,000 characters and the message says that the content was
    truncated. *)
Theorem scrape_response_size_limit :
  forall markdown,
    let response :=
      scrape_webpage_response (Resolved {| data := Some markdown; error := None |}) in
    isError response = false
    /\ ((JS.length markdown <= 100000)%Z ->
        response_text response = markdown
        /\ meta_message (response_meta response) = "Scraping successful")
    /\ ((100000 < JS.length markdown)%Z ->
        JS.length (response_text response) = 100000%Z
        /\ response_text response = JS.take (Z.to_nat 100000) markdown
        /\ (exists rest, markdown = (response_text response ++ rest)%string)
        /\ meta_message (response_meta response)
           = ("Content truncated due to size (total size: "
                ++ JS.number_to_string (JS.length (response_text response))
                ++ " characters)")%string
        /\ meta_message (response_meta response) <> "Scraping successful").
Proof.
  intros markdown response. subst response. unfold scrape_webpage_response.
  cbn [error data]. split; [now destruct (limit_content (Some markdown))|]. split.
  - intros Hshort. now rewrite (limit_content_short _ Hshort).
  - intros Hlong. rewrite (limit_content_long _ Hlong).
    cbn [createSuccessResponse response_text response_meta meta_message].
    pose proof (truncated_length _ Hlong) as Hlen. fold maxLength.
    assert (Htake : JS.substring markdown 0 maxLength = JS.take (Z.to_nat maxLength) markdown)
      by (apply substring_prefix; unfold maxLength in *; lia).
    repeat split.
    + exact Hlen.
    + rewrite Htake. reflexivity.
    + exists (JS.drop (Z.to_nat maxLength) markdown). rewrite Htake.
      symmetry. apply take_drop.
    + rewrite Hlen. reflexivity.
    + discriminate.
Qed.

Lemma scrape_response_size_limit_witness :
  response_text
    (scrape_webpage_response
       (Resolved {| data := Some "# Title"; error := None |})) = "# Title"
  /\ JS.length
       (response_text
          (scrape_webpage_response
             (Resolved {| data := Some (filler (Z.to_nat 100001)); error := None |})))
     = 100000%Z.
Proof.
  split.
  - exact (proj1 (proj1 (proj2 (scrape_response_size_limit "# Title"))
                    ltac:(vm_compute; discriminate))).
  - exact (proj1 (proj2 (proj2 (scrape_response_size_limit (filler (Z.to_nat 100001))))
                    ltac:(vm_compute; reflexivity))).
Defined.

(** C10.  When the rendered Markdown has more than 100,000 characters, the
    size written into the message is the length of the truncated text,
    100000, and not the length of the Markdown: the message is built after
    [markdownContent] was overwritten with its prefix. *)
Theorem truncation_message_reports_truncated_length :
  forall markdown,
    (100000 < JS.length markdown)%Z ->
    let response :=
      scrape_webpage_response (Resolved {| data := Some markdown; error := None |}) in
    meta_message (response_meta response)
    = "Content truncated due to size (total size: 100000 characters)"
    /\ JS.number_to_string (JS.length (response_text response)) = "100000"
    /\ JS.number_to_string (JS.length markdown) <> "100000"
    /\ meta_contentSize (response_meta response) = Some 100000%Z.
Proof.
  intros markdown Hlong response. subst response. unfold scrape_webpage_response.
  cbn [error data]. rewrite (limit_content_long _ Hlong).
  cbn [createSuccessResponse response_text response_meta meta_message meta_contentSize].
  rewrite (truncated_length _ Hlong). repeat split.
  intros H. change "100000" with (JS.number_to_string 100000) in H.
  apply number_to_string_inj in H. lia.
Qed.

Lemma truncation_message_witness :
  meta_message
    (response_meta
       (scrape_webpage_response
          (Resolved {| data := Some (filler (Z.to_nat 100001)); error := None |})))
  = "Content truncated due to size (total size: 100000 characters)".
Proof.
  apply (truncation_message_reports_truncated_length (filler (Z.to_nat 100001))).
  vm_compute. reflexivity.
Defined.

(* ===================================================================== *)
(** * The executor, branch by branch *)
(* ===================================================================== *)

Lemma click_in_frame_frame_events searchText f :
  behaves frame_event (click_in_frame searchText f).
Proof.
  unfold click_in_frame.
  apply behaves_try_catch; [| intro; behave].
  apply behaves_bind; [behave | intros idxs].
  destruct (List.length idxs =? 0)%nat; [behave |].
  apply behaves_bind; [behave | intros hs].
  apply behaves_bind; [| intro; behave].
  apply behaves_Promise_all, Forall_forall. intros m Hm.
  apply in_map_iff in Hm as [idx [<- _]].
  unfold click_index. behave.
Qed.

Lemma clickElementsByText_frame_events page targetText :
  behaves frame_event (clickElementsByText page targetText).
Proof.
  unfold clickElementsByText.
  apply behaves_bind; [behave | intros frames].
  apply behaves_bind.
  - apply behaves_Promise_all, Forall_forall. intros m Hm.
    apply in_map_iff in Hm as [f [<- _]]. apply click_in_frame_frame_events.
  - intros results.
    destruct (0 <? _)%nat; [| behave].
    apply behaves_bind; [behave | intros _].
    apply behaves_forEach. intros r. behave.
Qed.

Lemma clickElementsByText_returns page targetText :
  returns (clickElementsByText page targetText).
Proof.
  unfold clickElementsByText.
  apply returns_bind; [apply returns_ask | intros frames].
  apply returns_bind.
  - intros h.
    destruct (click_in_frames_results (JS.toLowerCase targetText) frames h)
      as (rs & es & Hrs & _).
    exists rs. now rewrite Hrs.
  - intros results. destruct (0 <? _)%nat; [| apply returns_emit].
    apply returns_bind; [apply returns_emit | intros _].
    apply returns_forEach. intros r. apply returns_emit.
Qed.

Lemma executeAction_executor_events page v :
  behaves executor_event (executeAction page v).
Proof.
  unfold executeAction. destruct v as [| a | shown r]; [behave | | behave].
  apply behaves_bind; [behave | intros _].
  destruct (action a =? "click").
  { destruct (JS.truthy_string (targetText a)).
    - apply behaves_bind; [| intro; behave].
      apply (behaves_weaken frame_event); [| apply clickElementsByText_frame_events].
      intros ev Hev. unfold executor_event. now rewrite Hev.
    - behave. }
  behave.
Qed.

(** A [try] whose body is made of calls and whose handler returns. *)
Lemma returns_guarded {A} (m : M A) handler :
  behaves any_event m -> (forall e, returns (handler e)) ->
  returns (try_catch m handler).
Proof.
  intros Hm Hh. apply returns_try_catch; [| exact Hh].
  intros h. apply (Hm h).
Qed.

Lemma executeAction_returns_unless_scroll page (a : AIAction) :
  action a <> "scroll" -> returns (executeAction page a).
Proof.
  intros Hscroll. unfold executeAction.
  apply returns_bind; [apply returns_emit | intros _].
  destruct (action a =? "click").
  { destruct (JS.truthy_string (targetText a)) as [text |].
    - apply returns_bind; [apply clickElementsByText_returns | intros _; apply returns_ret].
    - destruct (JS.truthy_string (targetSelector a)) as [sel |]; [| apply returns_ret].
      apply returns_guarded; [behave |].
      intros e. apply returns_bind; [apply returns_emit | intros _; apply returns_ret]. }
  destruct (action a =? "type").
  { destruct (JS.truthy_string (targetSelector a)) as [sel |]; [| apply returns_ret].
    destruct (JS.truthy_string (inputText a)) as [text |]; [| apply returns_ret].
    apply returns_guarded; [behave |].
    intros e. apply returns_bind; [apply returns_emit | intros _; apply returns_ret]. }
  destruct (String.eqb_spec (action a) "scroll") as [Heq | _]; [contradiction|].
  destruct (action a =? "wait").
  { destruct (JS.truthy_number (waitTime a)) as [ms |]; [| apply returns_ret].
    apply returns_bind; [apply returns_emit | intros _].
    apply returns_bind; [apply returns_emit | intros _; apply returns_ret]. }
  apply returns_bind; [apply returns_emit | intros _; apply returns_ret].
Qed.

(** X1.  Called on an action, a value of its parameter's type, the only
    error that [executeAction] lets escape is the rejection of the page's
    scroll: whenever it throws, the action is a [scroll] with
    a non-zero amount and the error is the one [page.evaluate] rejected
    with.  Every other failure (a selector that never appears, a click or a
    keystroke that fails, a frame or an element that cannot be queried or
    clicked) is caught and reported as [true] or [false]. *)
Theorem executeAction_throws_only_from_scroll :
  forall page (a : AIAction) h e,
    fst (executeAction page a h) = Throw e ->
    action a = "scroll"
    /\ exists amount,
         scrollAmount a = Some amount /\ amount <> 0%Z
         /\ page_scrollBy page (h ++ [EvLog (LogExecutingAction a)]) amount = Rejected e.
Proof.
  intros page a h e Hthrow.
  destruct (String.eqb_spec (action a) "scroll") as [Htag | Htag].
  - split; [exact Htag|].
    rewrite (executeAction_scroll_unfold _ _ _ Htag) in Hthrow.
    destruct (scrollAmount a) as [amount |]; cbn [JS.truthy_number] in Hthrow;
      [| discriminate].
    destruct (Z.eqb_spec amount 0) as [Hz | Hnz]; [discriminate|].
    exists amount. repeat split; [assumption|].
    destruct (page_scrollBy page _ amount) as [u | e']; cbn in Hthrow; congruence.
  - destruct (executeAction_returns_unless_scroll page a Htag h) as [b Hb]. congruence.
Qed.

Lemma executeAction_throws_only_from_scroll_witness :
  action scroll_300 = "scroll"
  /\ exists amount,
       scrollAmount scroll_300 = Some amount /\ amount <> 0%Z
       /\ page_scrollBy stuck_page ([] ++ [EvLog (LogExecutingAction scroll_300)]) amount
          = Rejected "Execution context was destroyed".
Proof.
  exact (executeAction_throws_only_from_scroll stuck_page scroll_300 []
           "Execution context was destroyed" eq_refl).
Defined.

(** X2.  A [click] action with a target text always reports [true]: the
    result of [clickElementsByText] is not looked at, so the action counts
    as carried out even when no frame holds a matching element, and the
    selector of the action, if any, is never waited for nor clicked. *)
Theorem executeAction_click_by_text_reports_true :
  forall page a h text,
    action a = "click" ->
    JS.truthy_string (targetText a) = Some text ->
    let logged := EvLog (LogExecutingAction a) in
    fst (executeAction page a h) = Ok true
    /\ snd (executeAction page a h)
       = logged :: snd (clickElementsByText page text (h ++ [logged]))
    /\ count_events is_selector_call (snd (executeAction page a h)) = 0.
Proof.
  intros page a h text Htag Htext logged.
  assert (Hrun : executeAction page a h
                 = (Ok true, logged :: snd (clickElementsByText page text (h ++ [logged])))).
  { unfold executeAction. rewrite Htag, Htext. cbn [String.eqb Ascii.eqb Bool.eqb].
    unfold bind at 1. cbn [console_log emit]. fold logged.
    destruct (clickElementsByText_returns page text (h ++ [logged])) as [u Hu].
    unfold bind. destruct (clickElementsByText page text (h ++ [logged])) as [r es].
    cbn in Hu. subst r. cbn. now rewrite app_nil_r. }
  rewrite Hrun. cbn [fst snd]. repeat split.
  destruct (clickElementsByText_frame_events page text (h ++ [logged])) as [_ Hes].
  change (logged :: ?l) with ([logged] ++ l). rewrite count_events_app.
  assert (Hpq : forall ev, frame_event ev = true -> is_selector_call ev = false)
    by (intros ev; destruct ev as [[] | [] | | | | | | | | | | | | |]; cbn; congruence).
  now rewrite (count_events_none is_selector_call frame_event _ Hpq Hes).
Qed.

Lemma executeAction_click_by_text_witness :
  executeAction (sample_page [] (Resolved tt)) click_accept []
  = (Ok true,
     [ EvLog (LogExecutingAction click_accept);
       EvFrames 0;
       EvLog (LogNoElementsFound "Accept") ]).
Proof.
  pose proof (executeAction_click_by_text_reports_true
                (sample_page [] (Resolved tt)) click_accept [] "Accept" eq_refl eq_refl)
    as (H1 & H2 & _).
  rewrite (run_eta (executeAction _ _) []), H1, H2. reflexivity.
Defined.

Lemma executeAction_click_selector_unfold page a h sel :
  action a = "click" ->
  JS.truthy_string (targetText a) = None ->
  JS.truthy_string (targetSelector a) = Some sel ->
  executeAction page a h =
  let logged := EvLog (LogExecutingAction a) in
  let waited := page_waitForSelector page (h ++ [logged]) sel 5000 in
  let wait_event := EvWaitForSelector sel 5000 waited in
  match waited with
  | Rejected e => (Ok false, [logged; wait_event; EvError (LogFailedClick sel e)])
  | Resolved _ =>
      let clicked := page_click page ((h ++ [logged]) ++ [wait_event]) sel in
      match clicked with
      | Rejected e =>
          (Ok false,
           [logged; wait_event; EvPageClick sel clicked; EvError (LogFailedClick sel e)])
      | Resolved _ =>
          (Ok true,
           [logged; wait_event; EvPageClick sel clicked; EvLog (LogClickedSelector sel)])
      end
  end.
Proof.
  intros Htag Htext Hsel. unfold executeAction. rewrite Htag, Htext, Hsel.
  cbn [String.eqb Ascii.eqb Bool.eqb].
  unfold try_catch, bind, call, console_log, console_error, emit, ret. cbn.
  destruct (page_waitForSelector page _ sel 5000); cbn; [| reflexivity].
  destruct (page_click page _ sel); reflexivity.
Qed.

Lemma executeAction_type_unfold page a h sel text :
  action a = "type" ->
  JS.truthy_string (targetSelector a) = Some sel ->
  JS.truthy_string (inputText a) = Some text ->
  executeAction page a h =
  let logged := EvLog (LogExecutingAction a) in
  let waited := page_waitForSelector page (h ++ [logged]) sel 5000 in
  let wait_event := EvWaitForSelector sel 5000 waited in
  match waited with
  | Rejected e => (Ok false, [logged; wait_event; EvError (LogFailedType sel e)])
  | Resolved _ =>
      let typed := page_type page ((h ++ [logged]) ++ [wait_event]) sel text in
      match typed with
      | Rejected e =>
          (Ok false,
           [logged; wait_event; EvPageType sel text typed; EvError (LogFailedType sel e)])
      | Resolved _ =>
          (Ok true,
           [logged; wait_event; EvPageType sel text typed; EvLog (LogTyped text sel)])
      end
  end.
Proof.
  intros Htag Hsel Htext. unfold executeAction. rewrite Htag, Hsel, Htext.
  cbn [String.eqb Ascii.eqb Bool.eqb].
  unfold try_catch, bind, call, console_log, console_error, emit, ret. cbn.
  destruct (page_waitForSelector page _ sel 5000); cbn; [| reflexivity].
  destruct (page_type page _ sel text); reflexivity.
Qed.

(** X3.  A click or a keystroke by selector is guarded: [executeAction]
    never throws; it reports [true] exactly when both the wait for the
    selector and the click (or the typing) resolve; and the element is
    clicked (or typed into) once when the wait resolved and not at all when
    it rejected. *)
Theorem executeAction_by_selector_is_guarded :
  forall page a h sel,
    JS.truthy_string (targetSelector a) = Some sel ->
    let logged := EvLog (LogExecutingAction a) in
    let waited := page_waitForSelector page (h ++ [logged]) sel 5000 in
    let after_wait := (h ++ [logged]) ++ [EvWaitForSelector sel 5000 waited] in
    (action a = "click" ->
     JS.truthy_string (targetText a) = None ->
     fst (executeAction page a h)
     = Ok (resolved waited && resolved (page_click page after_wait sel))
     /\ count_events is_page_click (snd (executeAction page a h))
        = if resolved waited then 1 else 0)
    /\ (forall text,
          action a = "type" ->
          JS.truthy_string (inputText a) = Some text ->
          fst (executeAction page a h)
          = Ok (resolved waited && resolved (page_type page after_wait sel text))
          /\ count_events is_page_type (snd (executeAction page a h))
             = if resolved waited then 1 else 0).
Proof.
  intros page a h sel Hsel logged waited after_wait. split.
  - intros Htag Htext.
    rewrite (executeAction_click_selector_unfold _ _ _ _ Htag Htext Hsel).
    cbv zeta. fold logged. fold waited. fold after_wait.
    destruct waited as [u | e]; [| now split].
    destruct (page_click page after_wait sel); now split.
  - intros text Htag Htext.
    rewrite (executeAction_type_unfold _ _ _ _ _ Htag Hsel Htext).
    cbv zeta. fold logged. fold waited. fold after_wait.
    destruct waited as [u | e]; [| now split].
    destruct (page_type page after_wait sel text); now split.
Qed.

Lemma executeAction_by_selector_witness :
  fst (executeAction three_frames click_missing []) = Ok false
  /\ count_events is_page_click (snd (executeAction three_frames click_missing [])) = 0
  /\ fst (executeAction three_frames type_email []) = Ok true
  /\ count_events is_page_type (snd (executeAction three_frames type_email [])) = 1.
Proof.
  pose proof (proj1 (executeAction_by_selector_is_guarded
                       three_frames click_missing [] "#gone" eq_refl)
                eq_refl eq_refl) as [H1 H2].
  pose proof (proj2 (executeAction_by_selector_is_guarded
                       three_frames type_email [] "#email" eq_refl)
                "a@b.c" eq_refl eq_refl) as [H3 H4].
  repeat split; assumption.
Defined.

Lemma run_bind_emit {B} ev (k : unit -> M B) h :
  bind (emit ev) k h = (fst (k tt (h ++ [ev])), ev :: snd (k tt (h ++ [ev]))).
Proof. unfold bind, emit. now destruct (k tt (h ++ [ev])). Qed.

Lemma events_bind_first {A B} (P : Event -> bool) (m : M A) (k : A -> M B) h :
  forallb P (snd (m h)) = false -> forallb P (snd (bind m k h)) = false.
Proof.
  unfold bind. destruct (m h) as [[a | e |] es]; cbn [snd]; try easy.
  intros Hes. destruct (k a (h ++ es)) as [r es']. cbn [snd].
  now rewrite forallb_app, Hes.
Qed.

Lemma events_try_first {A} (P : Event -> bool) (m : M A) handler h :
  forallb P (snd (m h)) = false -> forallb P (snd (try_catch m handler h)) = false.
Proof.
  unfold try_catch. destruct (m h) as [[a | e |] es]; cbn [snd]; try easy.
  intros Hes. destruct (handler e (h ++ es)) as [r es']. cbn [snd].
  now rewrite forallb_app, Hes.
Qed.

Lemma events_call_first {A} (P : Event -> bool) (f : Trace -> Settled A) ev h :
  (forall r, P (ev r) = false) -> forallb P (snd (call f ev h)) = false.
Proof. intros Hev. unfold call. cbn. now rewrite Hev. Qed.

(** X4.  An action that lacks a field its tag requires, and an action with
    an unknown tag, is a no-op: [executeAction] reports [false] and writes
    to the console only.  An action that has its fields always engages the
    page or a timer. *)
Theorem executeAction_engages_iff_actionable :
  forall page a h,
    (actionable a = false ->
     fst (executeAction page a h) = Ok false
     /\ forallb is_console (snd (executeAction page a h)) = true)
    /\ (actionable a = true ->
        forallb is_console (snd (executeAction page a h)) = false).
Proof.
  intros page a h. unfold actionable, executeAction, console_log.
  rewrite (run_bind_emit (EvLog (LogExecutingAction a))). cbn [fst snd forallb is_console andb].
  set (h1 := h ++ [EvLog (LogExecutingAction a)]).
  destruct (action a =? "click").
  { destruct (JS.truthy_string (targetText a)) as [text |].
    - split; [discriminate | intros _].
      apply events_bind_first. unfold clickElementsByText.
      now apply events_bind_first.
    - destruct (JS.truthy_string (targetSelector a)) as [sel |].
      + split; [discriminate | intros _].
        apply events_try_first, events_bind_first. now apply events_call_first.
      + split; [now split | discriminate]. }
  destruct (action a =? "type").
  { destruct (JS.truthy_string (targetSelector a)) as [sel |];
      [| split; [now split | discriminate]].
    destruct (JS.truthy_string (inputText a)) as [text |];
      [| split; [now split | discriminate]].
    split; [discriminate | intros _].
    apply events_try_first, events_bind_first. now apply events_call_first. }
  destruct (action a =? "scroll").
  { destruct (JS.truthy_number (scrollAmount a)) as [amount |];
      [| split; [now split | discriminate]].
    split; [discriminate | intros _].
    apply events_bind_first. now apply events_call_first. }
  destruct (action a =? "wait").
  { destruct (JS.truthy_number (waitTime a)) as [ms |];
      [| split; [now split | discriminate]].
    split; [discriminate | now intros _]. }
  split; [now split | discriminate].
Qed.

Lemma executeAction_engages_iff_actionable_witness :
  (fst (executeAction three_frames type_without_text []) = Ok false
   /\ forallb is_console (snd (executeAction three_frames type_without_text [])) = true)
  /\ (fst (executeAction three_frames hover []) = Ok false
      /\ forallb is_console (snd (executeAction three_frames hover [])) = true)
  /\ forallb is_console (snd (executeAction three_frames type_email [])) = false.
Proof.
  split; [| split].
  - exact (proj1 (executeAction_engages_iff_actionable three_frames type_without_text [])
             eq_refl).
  - exact (proj1 (executeAction_engages_iff_actionable three_frames hover []) eq_refl).
  - exact (proj2 (executeAction_engages_iff_actionable three_frames type_email [])
             eq_refl).
Defined.

(* ===================================================================== *)
(** * The loop: what it returns and what escapes it *)
(* ===================================================================== *)

Lemma count_success_observe sys page attempts maxAttempts h :
  count_events is_success_line (snd (observe sys page attempts maxAttempts h)) = 0.
Proof.
  unfold observe, bind, call, ask, console_log, emit, ret. cbn.
  destruct (page_screenshot page _); cbn; [| reflexivity].
  destruct (fs_writeFile sys _ _ _); reflexivity.
Qed.

Lemma count_success_analyze sys base64Image h :
  count_events is_success_line (snd (analyzePageWithAI sys base64Image h)) = 0.
Proof.
  rewrite analyzePageWithAI_unfold. cbv zeta.
  destruct (openai_create sys h base64Image) as [response | e]; [| reflexivity].
  destruct (first_choice_content response) as [got | e]; [| reflexivity].
  destruct (JSON_parse sys _); reflexivity.
Qed.

Lemma count_success_execute page a h :
  count_events is_success_line (snd (executeAction page a h)) = 0.
Proof.
  destruct (executeAction_executor_events page a h) as [_ Hes].
  apply (count_events_none _ executor_event); [| exact Hes].
  intros ev. destruct ev as [[] | [] | | | | | | | | | | | | |]; cbn; congruence.
Qed.

Lemma attempt_success_lines sys page maxAttempts found attempts h :
  match fst (attempt sys page maxAttempts found attempts h) with
  | Ok (Return f) =>
      f = found
      /\ count_events is_success_line
           (snd (attempt sys page maxAttempts found attempts h)) = 0
  | Ok (Continue f) =>
      f = (found
           || (0 <? count_events is_success_line
                      (snd (attempt sys page maxAttempts found attempts h)))%nat)%bool
  | _ => True
  end.
Proof.
  rewrite attempt_unfold. cbv zeta.
  pose proof (count_success_observe sys page attempts maxAttempts h) as Ho.
  destruct (observe sys page attempts maxAttempts h) as [[shot | e |] es1];
    cbn [fst snd] in *; try exact I.
  pose proof (count_success_analyze sys shot (h ++ es1)) as Hd.
  destruct (analyzePageWithAI sys shot (h ++ es1)) as [[v | e |] es2];
    cbn [fst snd] in *; try exact I.
  pose proof (count_success_execute page v (h ++ es1 ++ es2)) as Hx.
  destruct v as [| a | shown r]; [exact I | |].
  - destruct (action a =? "none"); cbn [fst snd].
    + split; [reflexivity|]. rewrite !count_events_app, Ho, Hd. reflexivity.
    + destruct (executeAction page a (h ++ es1 ++ es2)) as [[b | e |] es3];
        cbn [fst snd] in *; try exact I.
      rewrite !count_events_app, Ho, Hd, Hx.
      destruct b; cbn; [now rewrite orb_true_r | now rewrite orb_false_r].
  - destruct (executeAction page (JSON_other shown r) (h ++ es1 ++ es2))
      as [[b | e |] es3]; cbn [fst snd] in *; try exact I.
    rewrite !count_events_app, Ho, Hd, Hx.
    destruct b; cbn; [now rewrite orb_true_r | now rewrite orb_false_r].
Qed.

Lemma handlePageInteractions_loop_flag fuel :
  forall sys page maxAttempts found attempts h locals,
    fst (handlePageInteractions_loop fuel sys page maxAttempts found attempts h)
    = Ok locals ->
    fst locals
    = (found
       || (0 <? count_events is_success_line
                  (snd (handlePageInteractions_loop fuel sys page maxAttempts found
                          attempts h)))%nat)%bool.
Proof.
  induction fuel as [| fuel IH]; intros sys page maxAttempts found attempts h locals;
    cbn [handlePageInteractions_loop]; destruct (attempts <? maxAttempts)%nat.
  - discriminate.
  - cbn. intros [= <-]. cbn. now rewrite orb_false_r.
  - unfold bind.
    pose proof (attempt_success_lines sys page maxAttempts found attempts h) as Ha.
    destruct (attempt sys page maxAttempts found attempts h) as [[[f | f] | e |] es1];
      cbn [fst snd] in *; try discriminate.
    + destruct Ha as [-> Hn]. cbn [ret fst snd]. intros [= <-]. cbn [fst].
      rewrite app_nil_r, Hn. now rewrite orb_false_r.
    + specialize (IH sys page maxAttempts f (attempts + 1) (h ++ es1)).
      destruct (handlePageInteractions_loop fuel sys page maxAttempts f (attempts + 1)
                  (h ++ es1)) as [r es2]; cbn [fst snd] in *.
      intros Hr. rewrite (IH locals Hr), Ha, count_events_app.
      destruct found; cbn [orb]; [reflexivity|].
      destruct (count_events is_success_line es1), (count_events is_success_line es2);
        reflexivity.
  - cbn. intros [= <-]. cbn. now rewrite orb_false_r.
Qed.

(** X5.  When [handlePageInteractions] returns, its value tells whether
    some action succeeded during the run: it is [true] exactly when the
    executor reported success in at least one attempt, whatever happened in
    the later attempts and however the loop ended. *)
Theorem handlePageInteractions_returns_any_success :
  forall sys page maxAttempts h found,
    fst (handlePageInteractions sys page maxAttempts h) = Ok found ->
    found = (0 <? count_events is_success_line
                    (snd (handlePageInteractions sys page maxAttempts h)))%nat.
Proof.
  intros sys page maxAttempts h found.
  unfold handlePageInteractions, handlePageInteractions_locals, bind.
  pose proof (handlePageInteractions_loop_flag maxAttempts sys page maxAttempts false 0 h)
    as Hflag.
  destruct (handlePageInteractions_loop maxAttempts sys page maxAttempts false 0 h)
    as [[locals | e |] es]; cbn [fst snd ret] in *; try discriminate.
  intros [= <-]. rewrite app_nil_r. exact (Hflag locals eq_refl).
Qed.

Lemma handlePageInteractions_returns_any_success_witness :
  true
  = (0 <? count_events is_success_line
            (snd (handlePageInteractions
                    (scripted_sys [reply json_scroll_300; reply json_click_missing;
                                   reply json_none] (Resolved tt))
                    three_frames 5 [])))%nat.
Proof.
  exact (handlePageInteractions_returns_any_success
           (scripted_sys [reply json_scroll_300; reply json_click_missing;
                          reply json_none] (Resolved tt))
           three_frames 5 [] true eq_refl).
Defined.

Lemma handlePageInteractions_first_attempt sys page maxAttempts h es :
  0 < maxAttempts ->
  attempt sys page maxAttempts false 0 h = (Ok (Return false), es) ->
  handlePageInteractions sys page maxAttempts h = (Ok false, es).
Proof.
  intros Hpos Hrun. unfold handlePageInteractions, handlePageInteractions_locals.
  destruct maxAttempts as [| m]; [lia|].
  cbn [handlePageInteractions_loop Nat.ltb Nat.leb].
  unfold bind. rewrite Hrun. cbn. now rewrite !app_nil_r.
Qed.

(** X6.  A classifier that fails ends the loop as if the page needed no
    interaction.  When the request to the vision model is rejected in the
    first attempt, or its text cannot be parsed, [handlePageInteractions]
    returns [false] after that one attempt, without an error and without
    using the attempts that remain. *)
Theorem classifier_failure_ends_the_loop :
  forall sys page maxAttempts h screenshot,
    0 < maxAttempts ->
    let o := observe sys page 0 maxAttempts h in
    fst o = Ok screenshot ->
    let asked := openai_create sys (h ++ snd o) screenshot in
    let stopped :=
      EvLog (LogNoInteractionsNeeded (Some "Error parsing AI response")) in
    (forall e,
        asked = Rejected e ->
        handlePageInteractions sys page maxAttempts h
        = (Ok false,
           snd o ++ [EvChatCreate screenshot asked; EvError (LogFailedParse e); stopped]))
    /\ (forall response got e,
          asked = Resolved response ->
          first_choice_content response = Resolved got ->
          JSON_parse sys (content_or_fallback got) = Rejected e ->
          handlePageInteractions sys page maxAttempts h
          = (Ok false,
             snd o ++ [EvChatCreate screenshot asked;
                       EvLog (LogAIAnalysis (content_or_fallback got));
                       EvError (LogFailedParse e); stopped])).
Proof.
  intros sys page maxAttempts h screenshot Hpos o Ho asked stopped.
  split.
  - intros e Hasked. apply handlePageInteractions_first_attempt; [exact Hpos|].
    rewrite attempt_unfold. cbv zeta. fold o. rewrite Ho.
    rewrite analyzePageWithAI_unfold. cbv zeta. fold asked. rewrite Hasked.
    reflexivity.
  - intros response got e Hasked Hgot Hparse.
    apply handlePageInteractions_first_attempt; [exact Hpos|].
    rewrite attempt_unfold. cbv zeta. fold o. rewrite Ho.
    rewrite analyzePageWithAI_unfold. cbv zeta. fold asked.
    rewrite Hasked, Hgot, Hparse. reflexivity.
Qed.

Lemma classifier_failure_ends_the_loop_witness :
  fst (handlePageInteractions (scripted_sys [] (Resolved tt)) three_frames 10 [])
  = Ok false
  /\ count_events is_attempt_start
       (snd (handlePageInteractions (scripted_sys [] (Resolved tt)) three_frames 10 []))
     = 1.
Proof.
  pose proof (proj1 (classifier_failure_ends_the_loop
                       (scripted_sys [] (Resolved tt)) three_frames 10 []
                       "iVBORw0KGgo=" ltac:(lia) eq_refl)
                "429 rate limit exceeded" eq_refl) as H.
  rewrite H. split; reflexivity.
Defined.

Lemma observe_throws sys page attempts maxAttempts h e :
  fst (observe sys page attempts maxAttempts h) = Throw e ->
  exists es0 ev,
    snd (observe sys page attempts maxAttempts h) = es0 ++ [ev] /\ rejected_with e ev.
Proof.
  unfold observe, bind, call, ask, console_log, emit, ret. cbn.
  destruct (page_screenshot page _) as [shot | e1] eqn:Hshot; cbn.
  - destruct (fs_writeFile sys _ _ _) as [u | e2] eqn:Hwrite; cbn; [discriminate|].
    intros [= <-].
    eexists [_; _; _], _. split; [reflexivity|]. reflexivity.
  - intros [= <-]. eexists [_], _. split; [reflexivity|]. reflexivity.
Qed.

Lemma analyzePageWithAI_returns sys base64Image : returns (analyzePageWithAI sys base64Image).
Proof.
  intros h. rewrite analyzePageWithAI_unfold. cbv zeta.
  destruct (openai_create sys h base64Image) as [response | e]; [| now eexists].
  destruct (first_choice_content response) as [got | e]; [| now eexists].
  destruct (JSON_parse sys _); now eexists.
Qed.

Lemma analyzePageWithAI_null sys base64Image h :
  fst (analyzePageWithAI sys base64Image h) = Ok JSON_null ->
  exists es0 text,
    snd (analyzePageWithAI sys base64Image h) = es0 ++ [EvLog (LogAIAnalysis text)]
    /\ JSON_parse sys text = Resolved JSON_null.
Proof.
  rewrite analyzePageWithAI_unfold. cbv zeta.
  destruct (openai_create sys h base64Image) as [response | e]; [| discriminate].
  destruct (first_choice_content response) as [got | e]; [| discriminate].
  destruct (JSON_parse sys _) as [v | e] eqn:Hparse; cbn [fst snd]; [| discriminate].
  intros [= ->]. eexists [_], _. split; [reflexivity | exact Hparse].
Qed.

Lemma executeAction_throws page (a : AIAction) h e :
  fst (executeAction page a h) = Throw e ->
  exists es0 ev, snd (executeAction page a h) = es0 ++ [ev] /\ rejected_with e ev.
Proof.
  intros Hthrow.
  destruct (String.eqb_spec (action a) "scroll") as [Htag | Htag].
  - rewrite (executeAction_scroll_unfold _ _ _ Htag) in Hthrow |- *.
    destruct (JS.truthy_number (scrollAmount a)) as [amount |]; [| discriminate].
    destruct (page_scrollBy page _ amount) as [u | e']; cbn in Hthrow; [discriminate|].
    injection Hthrow as <-. eexists [_], _. split; reflexivity.
  - destruct (executeAction_returns_unless_scroll page a Htag h) as [b Hb]. congruence.
Qed.

Lemma attempt_throws sys page maxAttempts found attempts h e :
  fst (attempt sys page maxAttempts found attempts h) = Throw e ->
  exists es0 ev,
    snd (attempt sys page maxAttempts found attempts h) = es0 ++ [ev]
    /\ thrown_by sys e ev.
Proof.
  rewrite attempt_unfold. cbv zeta.
  pose proof (observe_throws sys page attempts maxAttempts h) as Ho.
  destruct (observe sys page attempts maxAttempts h) as [[shot | e1 |] es1];
    cbn [fst snd] in *; try discriminate.
  - destruct (analyzePageWithAI_returns sys shot (h ++ es1)) as [v Hv].
    pose proof (analyzePageWithAI_null sys shot (h ++ es1)) as Hnull.
    destruct (analyzePageWithAI sys shot (h ++ es1)) as [r es2]. cbn [fst snd] in *.
    subst r. destruct v as [| a | shown r].
    + intros [= <-]. destruct (Hnull eq_refl) as (es0 & text & -> & Hparse).
      exists (es1 ++ es0), (EvLog (LogAIAnalysis text)).
      split; [now rewrite app_assoc|]. right. split; [reflexivity|]. now exists text.
    + destruct (action a =? "none"); [discriminate|].
      pose proof (executeAction_throws page a (h ++ es1 ++ es2)) as Hx.
      destruct (executeAction page a (h ++ es1 ++ es2)) as [[b | e3 |] es3];
        cbn [fst snd] in *; try discriminate.
      intros [= <-]. destruct (Hx e3 eq_refl) as (es0 & ev & -> & Hev).
      exists (es1 ++ es2 ++ es0), ev. split; [| now left].
      now rewrite <- !app_assoc.
    + discriminate.
  - intros [= <-]. destruct (Ho e1 eq_refl) as (es0 & ev & Hes & Hev).
    exists es0, ev. split; [exact Hes | now left].
Qed.

Lemma handlePageInteractions_loop_throws fuel :
  forall sys page maxAttempts found attempts h e,
    fst (handlePageInteractions_loop fuel sys page maxAttempts found attempts h)
    = Throw e ->
    exists es0 ev,
      snd (handlePageInteractions_loop fuel sys page maxAttempts found attempts h)
      = es0 ++ [ev]
      /\ thrown_by sys e ev.
Proof.
  induction fuel as [| fuel IH]; intros sys page maxAttempts found attempts h e;
    cbn [handlePageInteractions_loop]; destruct (attempts <? maxAttempts)%nat;
    try (cbn; discriminate).
  unfold bind.
  pose proof (attempt_throws sys page maxAttempts found attempts h) as Ha.
  destruct (attempt sys page maxAttempts found attempts h) as [[[f | f] | e1 |] es1];
    cbn [fst snd] in *; try (cbn; discriminate).
  - specialize (IH sys page maxAttempts f (attempts + 1) (h ++ es1) e).
    destruct (handlePageInteractions_loop fuel sys page maxAttempts f (attempts + 1)
                (h ++ es1)) as [r es2]; cbn [fst snd] in *.
    intros Hr. destruct (IH Hr) as (es0 & ev & -> & Hev).
    exists (es1 ++ es0), ev. split; [now rewrite app_assoc | exact Hev].
  - intros [= <-]. exact (Ha e1 eq_refl).
Qed.

(** X7.  What [handlePageInteractions] throws.  When it throws, the last
    thing that happened tells why, and there are four cases.  Either it is
    a call that rejected with that very error: the screenshot, the write of
    the screenshot to disk, or the scroll of a [scroll] action.  Or it is the
    console line of a classifier text that [JSON.parse] turned into [null]:
    the error is then the TypeError of reading [action] of [null] at line
    179.  Failures of the model's request, texts that do not parse,
    selectors, clicks, keystrokes and frames never leave the loop. *)
Theorem handlePageInteractions_throws_only_four_errors :
  forall sys page maxAttempts h e,
    fst (handlePageInteractions sys page maxAttempts h) = Throw e ->
    exists es0 ev,
      snd (handlePageInteractions sys page maxAttempts h) = es0 ++ [ev]
      /\ (rejected_with e ev
          \/ (e = TypeError_null "action"
              /\ exists text,
                   ev = EvLog (LogAIAnalysis text)
                   /\ JSON_parse sys text = Resolved JSON_null)).
Proof.
  intros sys page maxAttempts h e.
  unfold handlePageInteractions, handlePageInteractions_locals, bind.
  pose proof (handlePageInteractions_loop_throws maxAttempts sys page maxAttempts false 0 h)
    as Hloop.
  destruct (handlePageInteractions_loop maxAttempts sys page maxAttempts false 0 h)
    as [[locals | e1 |] es]; cbn [fst snd ret] in *; try discriminate.
  intros [= <-]. exact (Hloop e1 eq_refl).
Qed.

Lemma handlePageInteractions_throws_witness :
  (exists es0 ev,
      snd (handlePageInteractions
             (scripted_sys [reply json_scroll_300] (Resolved tt)) stuck_page 3 [])
      = es0 ++ [ev]
      /\ (rejected_with "Execution context was destroyed" ev
          \/ ("Execution context was destroyed" = TypeError_null "action"
              /\ exists text,
                   ev = EvLog (LogAIAnalysis text)
                   /\ table_parse sample_table text = Resolved JSON_null)))
  /\ (exists es0 ev,
        snd (handlePageInteractions
               (scripted_sys [reply json_click_accept; reply "null"] (Resolved tt))
               three_frames 3 [])
        = es0 ++ [ev]
        /\ (rejected_with (TypeError_null "action") ev
            \/ (TypeError_null "action" = TypeError_null "action"
                /\ exists text,
                     ev = EvLog (LogAIAnalysis text)
                     /\ table_parse sample_table text = Resolved JSON_null))).
Proof.
  split.
  - exact (handlePageInteractions_throws_only_four_errors
             (scripted_sys [reply json_scroll_300] (Resolved tt)) stuck_page 3 []
             "Execution context was destroyed" eq_refl).
  - exact (handlePageInteractions_throws_only_four_errors
             (scripted_sys [reply json_click_accept; reply "null"] (Resolved tt))
             three_frames 3 [] (TypeError_null "action") eq_refl).
Defined.

(** The run that the second case is about: the classifier's second answer
    is the text [null]. *)
Example handlePageInteractions_null_answer :
  let run :=
    handlePageInteractions
      (scripted_sys [reply json_click_accept; reply "null"] (Resolved tt))
      three_frames 3 [] in
  fst run = Throw (TypeError_null "action")
  /\ count_events is_attempt_start (snd run) = 2
  /\ last (snd run) (EvFrames 0) = EvLog (LogAIAnalysis "null").
Proof. repeat split. Qed.

(* ===================================================================== *)
(** * The loop follows the classifier *)
(* ===================================================================== *)

Section Script.
Context (sys : Sys) (page : Page) (maxAttempts : nat) (h : Trace)
        (answer : nat -> JSONValue).
Hypothesis screenshot_resolves :
  forall h', exists s, page_screenshot page h' = Resolved s.
Hypothesis write_resolves :
  forall h' filename data, fs_writeFile sys h' filename data = Resolved tt.
Hypothesis scroll_resolves :
  forall h' amount, page_scrollBy page h' amount = Resolved tt.
Hypothesis classifier_answers :
  forall h' image,
    fst (analyzePageWithAI sys image (h ++ h'))
    = Ok (answer (count_events is_classifier_call h')).
Hypothesis no_null_answer : forall n, answer n <> JSON_null.




End Script.






(* ===================================================================== *)
(** * The table rules *)
(* ===================================================================== *)

Lemma escape_pipes_head s :
  match escape_pipes s with
  | String c _ => Ascii.eqb c pipe = false
  | EmptyString => True
  end.
Proof.
  destruct s as [| c s]; cbn; [exact I|].
  destruct (Ascii.eqb c pipe) eqn:Hc; [reflexivity | exact Hc].
Qed.

Lemma unescape_cons c s :
  (Ascii.eqb c backslash = false
   \/ match s with
      | String c' _ => Ascii.eqb c' pipe = false
      | EmptyString => True
      end) ->
  unescape_pipes (String c s) = String c (unescape_pipes s).
Proof.
  intros H. cbn [unescape_pipes]. destruct s as [| c' s]; [reflexivity|].
  destruct H as [-> | ->]; [reflexivity | now rewrite andb_false_r].
Qed.

Lemma unescape_escape s : unescape_pipes (escape_pipes s) = s.
Proof.
  induction s as [| c s IH]; [reflexivity|].
  cbn [escape_pipes]. destruct (Ascii.eqb c pipe) eqn:Hc.
  - apply Ascii.eqb_eq in Hc. subst c.
    change (unescape_pipes (String backslash (String pipe (escape_pipes s))))
      with (unescape_pipes (String pipe (escape_pipes s))).
    rewrite unescape_cons by (now left). now rewrite IH.
  - rewrite unescape_cons by (right; apply escape_pipes_head). now rewrite IH.
Qed.

Lemma bare_pipes_escape previous s rest :
  bare_pipes_after previous (escape_pipes s ++ String " " rest)
  = bare_pipes_after " " rest.
Proof.
  revert previous. induction s as [| c s IH]; intros previous; [reflexivity|].
  cbn [escape_pipes]. destruct (Ascii.eqb c pipe) eqn:Hc.
  - cbn. apply IH.
  - cbn [String.append bare_pipes_after]. rewrite Hc. cbn. apply IH.
Qed.

Lemma append_assoc3 (s t u : string) : ((s ++ t) ++ u = s ++ t ++ u)%string.
Proof. induction s as [| c s IH]; cbn; [reflexivity | now rewrite IH]. Qed.

Lemma bare_pipes_cell previous content node rest :
  bare_pipes_after previous (tableCell_replacement content node ++ rest)
  = S (bare_pipes_after pipe rest).
Proof.
  unfold tableCell_replacement. rewrite !append_assoc3.
  cbn [String.append bare_pipes_after]. rewrite bare_pipes_escape. reflexivity.
Qed.

(** X8.  The [tableCell] rule escapes losslessly and keeps the column
    structure: the escaped text has a backslash right before each of its
    pipes, un-escaping gives the text of the cell back, and however many
    pipes the cells of a row contain, the row's rendered cells hold exactly
    one pipe without a backslash per cell, the closing delimiter. *)
Theorem tableCell_keeps_one_delimiter_per_cell :
  forall cells : list (string * CellNode),
    bare_pipes
      (fold_right String.append ""
         (map (fun cell => tableCell_replacement (fst cell) (snd cell)) cells))
    = List.length cells
    /\ forall content node,
         exists body,
           tableCell_replacement content node = (" " ++ body ++ " |")%string
           /\ unescape_pipes body = cellContent content node
           /\ bare_pipes body = 0
           /\ String.length body
              = String.length (cellContent content node)
                + count_char pipe (cellContent content node).
Proof.
  intros cells. split.
  - unfold bare_pipes. generalize " "%char as previous.
    induction cells as [| [content node] cells IH]; intros previous; [reflexivity|].
    cbn [map fold_right fst snd List.length].
    rewrite bare_pipes_cell. f_equal. apply IH.
  - intros content node. exists (escape_pipes (cellContent content node)).
    split; [reflexivity|]. split; [apply unescape_escape|]. split.
    + unfold bare_pipes. generalize " "%char as previous.
      induction (cellContent content node) as [| c s IH]; intros previous; [reflexivity|].
      cbn [escape_pipes]. destruct (Ascii.eqb c pipe) eqn:Hc.
      * cbn. apply IH.
      * cbn [bare_pipes_after]. rewrite Hc. cbn. apply IH.
    + induction (cellContent content node) as [| c s IH]; [reflexivity|].
      cbn [escape_pipes count_char]. destruct (Ascii.eqb c pipe); cbn; rewrite IH; lia.
Qed.

Lemma separator_step n :
  separator (S (S n)) = ("--- | " ++ separator (S n))%string.
Proof. reflexivity. Qed.

Lemma count_char_append x s t :
  count_char x (s ++ t) = count_char x s + count_char x t.
Proof. induction s as [| c s IH]; cbn; [reflexivity | rewrite IH; lia]. Qed.

Lemma separator_counts n :
  count_char "-" (separator (S n)) = 3 * S n
  /\ count_char pipe (separator (S n)) = n.
Proof.
  induction n as [| n [IHd IHp]]; [now split|].
  rewrite separator_step, !count_char_append, IHd, IHp. cbn. split; lia.
Qed.

(** X9.  The separator line that the [tableRow] rule puts under a header
    row of [n] cells, [n >= 1], has one [---] per cell and [n + 1] pipes,
    as many as the delimiters of a row of [n] cells.  For a header row
    without cells the line is [||]. *)
Theorem tableRow_separator_columns :
  forall content node,
    row_in_thead node = true ->
    let line := ("|" ++ separator (row_cells node) ++ "|")%string in
    (exists tail,
        tableRow_replacement content node
        = ("|" ++ trimEnd content ++ JS.NL ++ line ++ tail)%string
        /\ tail = if row_has_next node then "" else JS.NL)
    /\ count_char "-" line = 3 * row_cells node
    /\ count_char pipe line = if (row_cells node =? 0)%nat then 2 else row_cells node + 1.
Proof.
  intros content node Hhead line. subst line. split; [| split].
  - exists (if row_has_next node then "" else JS.NL)%string. split; [| reflexivity].
    unfold tableRow_replacement. rewrite Hhead. cbn [negb orb].
    destruct (row_has_next node); cbn [negb];
      rewrite ?append_assoc3; cbn [String.append]; rewrite ?append_assoc3;
      try rewrite append_nil_r; reflexivity.
  - destruct (row_cells node) as [| n]; [reflexivity|].
    cbn [String.append count_char]. rewrite count_char_append.
    rewrite (proj1 (separator_counts n)). cbn. lia.
  - destruct (row_cells node) as [| n]; [reflexivity|].
    cbn [String.append count_char Nat.eqb]. rewrite count_char_append.
    rewrite (proj2 (separator_counts n)). cbn. lia.
Qed.

Lemma tableRow_separator_columns_witness :
  tableRow_replacement " Name | Age |"
    {| row_cells := 2; row_in_thead := true; row_has_next := true |}
  = ("| Name | Age |" ++ JS.NL ++ "|--- | ---|")%string.
Proof.
  destruct (proj1 (tableRow_separator_columns " Name | Age |"
                     {| row_cells := 2; row_in_thead := true; row_has_next := true |}
                     eq_refl)) as (tail & -> & ->).
  reflexivity.
Defined.

Lemma no_blank_line_cons c s :
  no_blank_line (String c s)
  = match s with
    | String c' _ => negb (Ascii.eqb c JS.nl && Ascii.eqb c' JS.nl) && no_blank_line s
    | EmptyString => true
    end.
Proof. reflexivity. Qed.

Lemma collapse_head s :
  forall c, exists r, collapse_newlines (String c s) = String c r.
Proof.
  induction s as [| c' s IH]; intros c; [now eexists|].
  rewrite collapse_cons2.
  destruct (Ascii.eqb c JS.nl && Ascii.eqb c' JS.nl)%bool eqn:Hcc; [| now eexists].
  apply andb_true_iff in Hcc as [Hc Hc'].
  apply Ascii.eqb_eq in Hc, Hc'. subst c c'. apply IH.
Qed.

Lemma collapse_no_blank_line s : no_blank_line (collapse_newlines s) = true.
Proof.
  induction s as [| c s IH]; [reflexivity|].
  destruct s as [| c' s]; [reflexivity|].
  rewrite collapse_cons2.
  destruct (Ascii.eqb c JS.nl && Ascii.eqb c' JS.nl)%bool eqn:Hcc; [exact IH|].
  rewrite no_blank_line_cons.
  destruct (collapse_newlines (String c' s)) as [| c1 r] eqn:Hr; [reflexivity|].
  rewrite IH, andb_true_r.
  assert (Hhead : c1 = c').
  { destruct (collapse_head s c') as [r' Hr']. congruence. }
  subst c1. now rewrite Hcc.
Qed.

Lemma trimStart_no_blank_line s :
  no_blank_line s = true -> no_blank_line (trimStart s) = true.
Proof.
  induction s as [| c s IH]; [reflexivity|].
  intros Hs. cbn [trimStart]. destruct (is_white c); [| exact Hs].
  apply IH. rewrite no_blank_line_cons in Hs.
  destruct s as [| c' s]; [reflexivity|]. now apply andb_true_iff in Hs as [_ Hs].
Qed.

Lemma trimEnd_head c s c1 r1 : trimEnd (String c s) = String c1 r1 -> c1 = c.
Proof.
  cbn [trimEnd]. destruct (trimEnd s); [destruct (is_white c)|]; congruence.
Qed.

(** After [trimEnd] a closing newline adds no blank line. *)
Lemma trimEnd_closed s :
  no_blank_line s = true ->
  no_blank_line (trimEnd s ++ JS.NL) = true.
Proof.
  induction s as [| c s IH]; [reflexivity|].
  intros Hs. rewrite no_blank_line_cons in Hs.
  cbn [trimEnd]. destruct (trimEnd s) as [| c1 r1] eqn:Hr.
  - destruct (is_white c) eqn:Hc; [reflexivity|].
    cbn. destruct (Ascii.eqb_spec c JS.nl) as [-> | _]; [discriminate Hc | reflexivity].
  - destruct s as [| c' s']; [discriminate Hr|].
    pose proof (trimEnd_head _ _ _ _ Hr) as ->.
    apply andb_true_iff in Hs as [Hcc Hs].
    change ((String c (String c' r1) ++ JS.NL)%string)
      with (String c (String c' r1 ++ JS.NL)%string).
    rewrite no_blank_line_cons. cbn [String.append]. rewrite Hcc. cbn [andb].
    exact (IH Hs).
Qed.

Lemma trimStart_head s :
  match trimStart s with
  | String c _ => is_white c = false
  | EmptyString => True
  end.
Proof.
  induction s as [| c s IH]; [exact I|].
  cbn [trimStart]. destruct (is_white c) eqn:Hc; [exact IH | exact Hc].
Qed.

(** X10.  The [table] rule wraps the table in single newlines and leaves no
    blank line in it: its output has no two newlines in a row as soon as
    the table has any text.  A table without text is the exception: its
    output is two newlines, a blank line. *)
Theorem table_replacement_has_no_blank_line :
  forall content,
    match trim (collapse_newlines content) with
    | EmptyString => table_replacement content = (JS.NL ++ JS.NL)%string
    | _ => no_blank_line (table_replacement content) = true
    end.
Proof.
  intros content. unfold table_replacement.
  destruct (trim (collapse_newlines content)) as [| c body] eqn:Hbody; [reflexivity|].
  rewrite <- Hbody. unfold trim in *.
  pose proof (trimStart_head (collapse_newlines content)) as Hhead.
  pose proof (trimStart_no_blank_line _ (collapse_no_blank_line content)) as Hstart.
  pose proof (trimEnd_closed _ Hstart) as Hclosed.
  destruct (trimStart (collapse_newlines content)) as [| c0 s0]; [discriminate Hbody|].
  pose proof (trimEnd_head _ _ _ _ Hbody) as ->.
  rewrite Hbody in *. cbn [String.append] in *.
  change (no_blank_line (String JS.nl (String c0 (body ++ JS.NL))) = true).
  rewrite no_blank_line_cons, Hclosed, andb_true_r.
  destruct (Ascii.eqb_spec c0 JS.nl) as [-> | _]; [discriminate Hhead | reflexivity].
Qed.

(* ===================================================================== *)
(** * The tool response, whatever the scrape did *)
(* ===================================================================== *)

Lemma limit_content_bounded data :
  (JS.length (fst (limit_content data)) <= maxLength)%Z.
Proof.
  unfold limit_content.
  set (markdown := match JS.truthy_string data with Some s => s | None => "" end).
  destruct (Z.ltb_spec maxLength (JS.length markdown)) as [Hlong | Hshort]; cbn [fst].
  - rewrite (truncated_length _ Hlong). lia.
  - exact Hshort.
Qed.

(** X11.  Whatever [visitWebPage] resolved or rejected with, the response
    of the tool is well formed: [success] is the opposite of [isError]; the
    text has at most 100,000 characters; an error response has an empty
    text and no size, a success response states the size of its text; and
    a result that carries an error is answered with that error's message,
    even when it carries data too. *)
Theorem scrape_webpage_response_is_well_formed :
  forall visited,
    let response := scrape_webpage_response visited in
    meta_success (response_meta response) = negb (isError response)
    /\ (JS.length (response_text response) <= 100000)%Z
    /\ (if isError response
        then response_text response = ""
             /\ meta_contentSize (response_meta response) = None
        else meta_contentSize (response_meta response)
             = Some (JS.length (response_text response)))
    /\ (forall result err,
          visited = Resolved result -> error result = Some err ->
          isError response = true
          /\ meta_message (response_meta response) = error_message err)
    /\ (forall e,
          visited = Rejected e ->
          isError response = true
          /\ meta_message (response_meta response)
             = ("Error scraping webpage: " ++ e)%string).
Proof.
  intros visited response. subst response. unfold scrape_webpage_response.
  destruct visited as [result | e].
  - destruct (error result) as [err |] eqn:Herr.
    + cbn. split; [reflexivity|]. split; [lia|]. split; [now split|]. split.
      * intros result' err' [= <-] Herr'. split; [reflexivity | congruence].
      * intros e [=].
    + pose proof (limit_content_bounded (data result)) as Hbound.
      destruct (limit_content (data result)) as [text message]. cbn in *.
      split; [reflexivity|]. split; [exact Hbound|]. split; [reflexivity|]. split.
      * intros result' err' [= <-] Herr'. congruence.
      * intros e [=].
  - cbn. split; [reflexivity|]. split; [lia|]. split; [now split|]. split.
    + intros result err [=].
    + intros e' [= <-]. now split.
Qed.

(* ===================================================================== *)
(** * The scrape around the loop *)
(* ===================================================================== *)

Lemma count_scrape_app p es es' :
  count_scrape p (es ++ es') = count_scrape p es + count_scrape p es'.
Proof. unfold count_scrape. now rewrite filter_app, length_app. Qed.

Lemma count_scrape_cons p ev es :
  count_scrape p (ev :: es) = (if p ev then 1 else 0) + count_scrape p es.
Proof. unfold count_scrape. cbn. now destruct (p ev). Qed.

Lemma count_scrape_interactions p es :
  (forall ev, p (SvInteraction ev) = false) ->
  count_scrape p (map SvInteraction es) = 0.
Proof.
  intros Hp. unfold count_scrape. induction es as [| ev es IH]; [reflexivity|].
  cbn. now rewrite Hp.
Qed.

Lemma last_call_app es es' :
  last_call (es ++ es')
  = fold_left (fun found ev => if is_scrape_console ev then found else Some ev)
              es' (last_call es).
Proof. unfold last_call. apply fold_left_app. Qed.

Lemma last_call_cons_app ev es es' :
  last_call (ev :: es ++ es') = last_call ((ev :: es) ++ es').
Proof. reflexivity. Qed.

(** One step of a scrape: the next answer of the world, by cases. *)
Ltac scrape_step :=
  match goal with
  | |- context [await ?x] =>
      lazymatch x with
      | Resolved _ => fail
      | Rejected _ => fail
      | _ => destruct x eqn:?
      end
  | |- context [handlePageInteractions ?s ?p ?n ?h] =>
      let Htotal := fresh "Htotal" in
      pose proof (handlePageInteractions_total s p n h) as Htotal;
      destruct (handlePageInteractions s p n h) as [[? | ? |] ?];
      [ | | exfalso; apply Htotal; reflexivity ]
  | |- context [if ?c then _ else _] =>
      lazymatch c with
      | true => fail
      | false => fail
      | _ => destruct c eqn:?
      end
  end.

Ltac scrape_run :=
  unfold visitWebPage, sbind, stry, scall, semit, sret, ssettle, interact;
  repeat (cbn [await fst snd app]; try scrape_step).

Ltac count_closes :=
  cbn [fst snd];
  repeat first
    [ rewrite count_scrape_cons
    | rewrite count_scrape_app
    | rewrite count_scrape_interactions by reflexivity ];
  cbn [is_close is_interaction is_main_html Nat.add count_scrape filter List.length].

Ltac find_event :=
  solve [ apply in_eq
        | apply in_cons; find_event
        | apply in_or_app; left; find_event
        | apply in_or_app; right; find_event ].

(** X12.  [visitWebPage] closes the browser on every path once it was
    launched: the last thing it does, console lines apart, is a call of
    [browser.close].  It calls [close] once, or twice when the first call
    rejected (the close of the success path throws into the [catch], which
    closes again).  When the launch itself rejects there is no browser: the
    error is thrown to the caller and nothing else is done. *)
Theorem visitWebPage_closes_the_browser :
  forall sys browser process options h,
    let run := visitWebPage sys browser process options h in
    match puppeteer_launch browser h with
    | Rejected e => run = (Throw e, [SvLaunch (Rejected e)])
    | Resolved _ =>
        (exists c, last_call (snd run) = Some (SvClose c))
        /\ 1 <= count_scrape is_close (snd run) <= 2
        /\ (count_scrape is_close (snd run) = 2 ->
            exists e, In (SvClose (Rejected e)) (snd run))
    end.
Proof.
  intros sys browser process options h run. subst run.
  scrape_run.
  all: try reflexivity.
  all: split; [| split].
  all: try (count_closes; lia).
  all: try (count_closes; intros Htwo; try discriminate Htwo;
            eexists; cbn [snd]; find_event).
  all: cbn [snd]; rewrite ?last_call_cons_app, ?app_comm_cons, ?last_call_app;
    cbn; now eexists.
Qed.

(** X13.  [visitWebPage] answers with data or with an error, never with
    both and never with neither: when it returns, the result is either the
    Markdown that [processHtmlContent] made of the page's main HTML, or an
    error message.  It throws only when the launch rejects or when a call
    of [browser.close] in the [catch] rejects; every other failure, of the
    navigation, of the interaction loop, of the extraction, becomes an
    error result. *)
Theorem visitWebPage_data_or_error :
  forall sys browser process options h,
    let run := visitWebPage sys browser process options h in
    match fst run with
    | Ok result =>
        (exists html markdown,
            result = {| data := Some markdown; error := None |}
            /\ process html = Resolved markdown
            /\ In (SvMainHTML (Resolved html)) (snd run))
        \/ (exists message,
              result = {| data := None;
                          error := Some {| error_message := message |} |})
    | Throw e =>
        puppeteer_launch browser h = Rejected e
        \/ In (SvClose (Rejected e)) (snd run)
    | OutOfFuel => False
    end.
Proof.
  intros sys browser process options h run. subst run.
  scrape_run.
  all: cbn [fst snd].
  all: try (left; reflexivity).
  all: try (right; now eexists).
  all: try (right; find_event).
  all: left; eexists _, _; split; [reflexivity|]; split; [eassumption | find_event].
Qed.

(** X14.  With [autoInteract] false, and also with a cap of zero attempts,
    the scrape goes from the navigation straight to the extraction: no
    screenshot is taken, no file is written and the vision model is not
    called. *)
Theorem visitWebPage_without_interaction :
  forall sys browser process options h,
    autoInteract options = Some false \/ maxInteractionAttempts options = Some 0 ->
    count_scrape is_interaction (snd (visitWebPage sys browser process options h)) = 0.
Proof.
  intros sys browser process options h [Hoff | Hzero].
  - unfold visitWebPage. rewrite Hoff. cbn [or_default].
    unfold sbind, stry, scall, semit, sret, ssettle.
    repeat (cbn [await fst snd app]; try scrape_step).
    all: reflexivity.
  - unfold visitWebPage. rewrite Hzero. cbn [or_default].
    change (handlePageInteractions sys ?p 0) with (fun _ : Trace => (Ok false, @nil Event)).
    unfold sbind, stry, scall, semit, sret, ssettle, interact.
    repeat (cbn [await fst snd app map]; try scrape_step).
    all: reflexivity.
Qed.

Lemma visitWebPage_without_interaction_witness :
  count_scrape is_interaction
    (snd (visitWebPage (scripted_sys [reply json_scroll_300] (Resolved tt))
            (sample_browser three_frames "<p>hi</p>" (Resolved tt))
            sample_process (sample_options false) []))
  = 0.
Proof.
  apply visitWebPage_without_interaction. left. reflexivity.
Defined.

(** X15.  An error that leaves the interaction loop fails the whole
    scrape.  On a browser whose set-up calls and [close] resolve, when
    [handlePageInteractions] throws, [visitWebPage] returns the error as its
    result and the page's content is never read: the main HTML is not
    extracted. *)
Theorem visitWebPage_fails_with_the_loop :
  forall sys browser process options h e,
    (forall h', puppeteer_launch browser h' = Resolved tt) ->
    (forall h', browser_newPage browser h' = Resolved tt) ->
    (forall h' w v, page_setViewport browser h' w v = Resolved tt) ->
    (forall h' u w, page_goto browser h' u w = Resolved tt) ->
    (forall h', browser_close browser h' = Resolved tt) ->
    or_default (autoInteract options) true = true ->
    (forall h',
        fst (handlePageInteractions sys (the_page browser h')
               (or_default (maxInteractionAttempts options) 3)
               (interaction_events h'))
        = Throw e) ->
    let run := visitWebPage sys browser process options h in
    fst run
    = Ok {| data := None;
            error := Some {| error_message :=
                               if thrown_is_Error browser e then e
                               else "An unknown error occurred" |} |}
    /\ count_scrape is_main_html (snd run) = 0
    /\ count_scrape is_close (snd run) = 1.
Proof.
  intros sys browser process options h e Hlaunch Hnew Hview Hgoto Hclose Hauto Hloop run.
  subst run. unfold visitWebPage. rewrite Hauto.
  unfold sbind, stry, scall, semit, sret, ssettle, interact.
  rewrite Hlaunch. cbn [await fst snd app]. rewrite Hnew. cbn [await fst snd app].
  rewrite Hview. cbn [await fst snd app]. rewrite Hgoto. cbn [await fst snd app].
  match goal with
  | |- context [handlePageInteractions ?s ?p ?n ?h'] =>
      pose proof (Hloop (((((((h ++ [SvLaunch (Resolved tt)])
                                ++ [SvLog (LogVisiting (url options))])
                               ++ [SvNewPage (Resolved tt)])
                              ++ [SvSetViewport 1280 800 (Resolved tt)])
                             ++ [SvGoto (url options)
                                   (if or_default (waitForNetworkIdle options) true
                                    then "networkidle2" else "domcontentloaded")
                                   (Resolved tt)])
                            ++ [SvSetTimeout 2000])
                           ++ [SvLog LogChecking])) as Hthrow;
      destruct (handlePageInteractions s p n h') as [[b | e' |] es]
  end; cbn [fst] in Hthrow; try discriminate Hthrow.
  injection Hthrow as ->.
  cbn [await fst snd app]. rewrite Hclose. cbn [await fst snd app].
  destruct (thrown_is_Error browser e); cbn [fst snd]; (split; [reflexivity|]);
    split; count_closes; reflexivity.
Qed.

Lemma visitWebPage_fails_with_the_loop_witness :
  fst (visitWebPage
         (scripted_sys [reply json_none] (Rejected "EACCES: permission denied"))
         (sample_browser three_frames "<p>hi</p>" (Resolved tt))
         sample_process (sample_options true) [])
  = Ok {| data := None;
          error := Some {| error_message := "EACCES: permission denied" |} |}.
Proof.
  refine (proj1 (visitWebPage_fails_with_the_loop
                   (scripted_sys [reply json_none] (Rejected "EACCES: permission denied"))
                   (sample_browser three_frames "<p>hi</p>" (Resolved tt))
                   sample_process (sample_options true) []
                   "EACCES: permission denied" _ _ _ _ _ _ _)); intros; reflexivity.
Defined.

(* ===================================================================== *)
(** * Marking the ancestors of code *)
(* ===================================================================== *)

Lemma nth_error_update i f doc k :
  nth_error (update_element i f doc) k
  = if (k =? i)%nat then option_map f (nth_error doc k) else nth_error doc k.
Proof.
  revert i k. induction doc as [| e doc IH]; intros i k.
  - destruct i, k; cbn; try reflexivity. now destruct (k =? i)%nat.
  - destruct i as [| i], k as [| k]; cbn; try reflexivity. apply IH.
Qed.

Lemma length_update i f doc :
  List.length (update_element i f doc) = List.length doc.
Proof.
  revert i. induction doc as [| e doc IH]; intros i; [now destruct i|].
  destruct i; cbn; [reflexivity | now rewrite IH].
Qed.

Lemma classList_add_twice c classes :
  classList_add c (classList_add c classes) = classList_add c classes.
Proof.
  unfold classList_add. destruct (existsb (String.eqb c) classes) eqn:Hc.
  - now rewrite Hc.
  - rewrite existsb_app. cbn. now rewrite String.eqb_refl, orb_true_r.
Qed.

Lemma setAttribute_twice name value attrs :
  setAttribute name value (setAttribute name value attrs)
  = setAttribute name value attrs.
Proof.
  induction attrs as [| [n v] attrs IH]; cbn.
  - now rewrite String.eqb_refl.
  - destruct (String.eqb n name) eqn:Hn; cbn.
    + now rewrite String.eqb_refl.
    + now rewrite Hn, IH.
Qed.

Lemma mark_mark e : mark_readable (mark_readable e) = mark_readable e.
Proof.
  unfold mark_readable. cbn. now rewrite classList_add_twice, setAttribute_twice.
Qed.

Lemma mark_add e : mark_readable (add_article_class e) = mark_readable e.
Proof. unfold mark_readable, add_article_class. cbn. now rewrite classList_add_twice. Qed.

Lemma add_mark e : add_article_class (mark_readable e) = mark_readable e.
Proof. unfold mark_readable, add_article_class. cbn. now rewrite classList_add_twice. Qed.

Lemma add_add e : add_article_class (add_article_class e) = add_article_class e.
Proof. unfold add_article_class. cbn. now rewrite classList_add_twice. Qed.

Lemma getAttribute_setAttribute name value attrs :
  getAttribute name (setAttribute name value attrs) = Some value.
Proof.
  induction attrs as [| [n v] attrs IH]; cbn.
  - now rewrite String.eqb_refl.
  - destruct (String.eqb n name) eqn:Hn; cbn; [now rewrite String.eqb_refl|].
    now rewrite Hn.
Qed.

Lemma mark_readable_is_marked e : is_marked (mark_readable e) = true.
Proof.
  unfold is_marked, mark_readable. cbn [classList attributes].
  rewrite getAttribute_setAttribute. cbn [String.eqb Ascii.eqb Bool.eqb andb].
  rewrite andb_true_r. unfold classList_add.
  destruct (existsb (String.eqb "article-content") (classList e)) eqn:Hc; [exact Hc|].
  rewrite existsb_app. cbn. now rewrite orb_true_r.
Qed.

(** ** What depends on the skeleton only *)

Lemma skeleton_nth doc k :
  nth_error (skeleton doc) k
  = option_map (fun e => (tagName e, parentElement e)) (nth_error doc k).
Proof. apply nth_error_map. Qed.

Lemma skeleton_length d doc :
  skeleton d = skeleton doc -> List.length d = List.length doc.
Proof.
  intros H. apply (f_equal (@List.length _)) in H.
  unfold skeleton in H. now rewrite !length_map in H.
Qed.

Lemma skeleton_fields d doc k :
  skeleton d = skeleton doc ->
  option_map tagName (nth_error d k) = option_map tagName (nth_error doc k)
  /\ parent_of d k = parent_of doc k.
Proof.
  intros H. apply (f_equal (fun l => nth_error l k)) in H.
  rewrite !skeleton_nth in H. unfold parent_of.
  destruct (nth_error d k), (nth_error doc k); cbn in *; try discriminate; [| now split].
  injection H as Ht Hp. now rewrite Ht, Hp.
Qed.

Lemma skeleton_ancestors d doc fuel node :
  skeleton d = skeleton doc -> ancestors fuel d node = ancestors fuel doc node.
Proof.
  intros H. revert node. induction fuel as [| fuel IH]; intros node; [reflexivity|].
  destruct node as [i |]; [| reflexivity]. cbn.
  now rewrite (proj2 (skeleton_fields d doc i H)), IH.
Qed.

Lemma existsb_ext_seq (f g : nat -> bool) n :
  (forall j, f j = g j) -> existsb f (seq 0 n) = existsb g (seq 0 n).
Proof.
  intros H. induction (seq 0 n) as [| j l IH]; [reflexivity|]. cbn. now rewrite H, IH.
Qed.

Lemma skeleton_contains_code d doc i :
  skeleton d = skeleton doc -> contains_code d i = contains_code doc i.
Proof.
  intros H. unfold contains_code. rewrite (skeleton_length _ _ H).
  apply existsb_ext_seq. intros j.
  pose proof (f_equal (fun l => nth_error l j) H) as Hj. cbn in Hj.
  rewrite !skeleton_nth in Hj.
  destruct (nth_error d j) as [e |], (nth_error doc j) as [e' |]; cbn in Hj;
    try discriminate; [| reflexivity].
  injection Hj as -> ->. now rewrite (skeleton_ancestors _ _ _ _ H).
Qed.

Lemma skeleton_querySelectorAll matches d doc :
  skeleton d = skeleton doc -> querySelectorAll matches d = querySelectorAll matches doc.
Proof.
  intros H. unfold querySelectorAll. rewrite (skeleton_length _ _ H).
  apply filter_ext. intros j.
  pose proof (proj1 (skeleton_fields d doc j H)) as Hj.
  destruct (nth_error d j), (nth_error doc j); cbn in Hj; try discriminate;
    [| reflexivity].
  now injection Hj as ->.
Qed.

Lemma described_skeleton doc M C d :
  described doc M C d -> skeleton d = skeleton doc.
Proof.
  intros Hd. apply nth_error_ext. intros k. rewrite !skeleton_nth, (Hd k).
  destruct (nth_error doc k) as [e |]; [| reflexivity]. cbn.
  destruct (M k); [reflexivity|]. now destruct (C k).
Qed.

Lemma described_refl doc : described doc nowhere nowhere doc.
Proof. intros k. now destruct (nth_error doc k). Qed.

Lemma described_mark doc M C d i :
  described doc M C d ->
  described doc (with_index M i) C (update_element i mark_readable d).
Proof.
  intros Hd k. rewrite nth_error_update, (Hd k). unfold with_index.
  destruct (k =? i)%nat; [| reflexivity].
  destruct (nth_error doc k) as [e |]; [| reflexivity]. cbn.
  destruct (M k); [now rewrite mark_mark|].
  destruct (C k); [now rewrite mark_add | reflexivity].
Qed.

Lemma described_add doc M C d p :
  described doc M C d ->
  described doc M (with_index C p) (update_element p add_article_class d).
Proof.
  intros Hd k. rewrite nth_error_update, (Hd k). unfold with_index.
  destruct (k =? p)%nat; [| reflexivity].
  destruct (nth_error doc k) as [e |]; [| reflexivity]. cbn.
  destruct (M k); [now rewrite add_mark|].
  destruct (C k); [now rewrite add_add | reflexivity].
Qed.

Lemma described_ext doc M M' C C' d :
  (forall k, M k = M' k) -> (forall k, C k = C' k) ->
  described doc M C d -> described doc M' C' d.
Proof. intros HM HC Hd k. now rewrite (Hd k), HM, HC. Qed.

(** ** The chain of ancestors in a tree *)

Lemma parent_in_range doc j p :
  is_tree doc -> parent_of doc j = Some p -> p < j /\ j < List.length doc.
Proof.
  intros Htree. unfold parent_of. destruct (nth_error doc j) as [e |] eqn:He; [| discriminate].
  intros Hp. split; [exact (Htree j e p He Hp)|].
  apply nth_error_Some. congruence.
Qed.

Lemma ancestors_fuel doc :
  is_tree doc ->
  forall fuel fuel' i, i < fuel -> i < fuel' ->
    ancestors fuel doc (Some i) = ancestors fuel' doc (Some i).
Proof.
  intros Htree. induction fuel as [| fuel IH]; intros fuel' i Hi Hi'; [lia|].
  destruct fuel' as [| fuel']; [lia|]. cbn [ancestors]. f_equal.
  destruct (parent_of doc i) as [p |] eqn:Hp; [| now destruct fuel, fuel'].
  destruct (parent_in_range _ _ _ Htree Hp). apply IH; lia.
Qed.

Lemma ancestors_chain doc fuel i :
  is_tree doc -> i < fuel -> ancestors fuel doc (Some i) = chain doc i.
Proof. intros Htree Hi. unfold chain. apply ancestors_fuel; [assumption | lia | lia]. Qed.

Lemma chain_unfold doc i :
  is_tree doc ->
  chain doc i
  = i :: match parent_of doc i with
         | Some p => chain doc p
         | None => []
         end.
Proof.
  intros Htree. unfold chain at 1. cbn [ancestors]. f_equal.
  destruct (parent_of doc i) as [p |] eqn:Hp; [| now destruct i].
  destruct (parent_in_range _ _ _ Htree Hp). now apply ancestors_chain.
Qed.

(** ** [markCodeParents] *)

Lemma markCodeParents_described doc :
  is_tree doc ->
  forall fuel M C d node,
    described doc M C d ->
    match node with
    | Some i => i < fuel
    | None => True
    end ->
    exists d',
      markCodeParents fuel d node = Some d'
      /\ described doc (fun k => M k || marked_from doc node k) C d'.
Proof.
  intros Htree. induction fuel as [| fuel IH]; intros M C d node Hd Hfuel.
  - destruct node as [i |]; [lia|]. exists d. split; [reflexivity|].
    eapply described_ext; [| | exact Hd]; intros k; cbn; now rewrite ?orb_false_r.
  - destruct node as [i |].
    2:{ exists d. split; [reflexivity|].
        eapply described_ext; [| | exact Hd]; intros k; cbn; now rewrite ?orb_false_r. }
    cbn [markCodeParents].
    pose proof (described_skeleton _ _ _ _ Hd) as Hsk.
    rewrite (skeleton_contains_code _ _ i Hsk).
    set (d1 := if contains_code doc i then update_element i mark_readable d else d).
    set (M1 := fun k => M k || ((k =? i)%nat && contains_code doc i)).
    assert (Hd1 : described doc M1 C d1).
    { subst d1 M1. destruct (contains_code doc i).
      - eapply described_ext; [| | exact (described_mark _ _ _ _ i Hd)];
          intros k; unfold with_index; [| reflexivity].
        rewrite andb_true_r. apply orb_comm.
      - eapply described_ext; [| | exact Hd]; intros k; [| reflexivity].
        now rewrite andb_false_r, orb_false_r. }
    pose proof (described_skeleton _ _ _ _ Hd1) as Hsk1.
    rewrite (proj2 (skeleton_fields _ _ i Hsk1)).
    assert (Hnext : match parent_of doc i with Some p => p < fuel | None => True end).
    { destruct (parent_of doc i) as [p |] eqn:Hp; [| exact I].
      destruct (parent_in_range _ _ _ Htree Hp). lia. }
    destruct (IH M1 C d1 (parent_of doc i) Hd1 Hnext) as (d' & Hrun & Hd').
    exists d'. split; [exact Hrun|].
    eapply described_ext; [| | exact Hd']; intros k; [| reflexivity].
    subst M1. cbn beta. unfold marked_from. rewrite (chain_unfold doc i Htree).
    cbn [existsb]. destruct (Nat.eqb_spec k i) as [-> | Hki]; cbn [orb andb].
    + destruct (contains_code doc i); cbn; [now rewrite orb_true_r|].
      rewrite orb_false_r. destruct (parent_of doc i); now rewrite ?andb_false_r, ?orb_false_r.
    + rewrite orb_false_r. now destruct (parent_of doc i).
Qed.

Lemma existsb_querySelectorAll matches doc k :
  existsb (Nat.eqb k) (querySelectorAll matches doc)
  = match nth_error doc k with
    | Some e => matches (tagName e)
    | None => false
    end.
Proof.
  unfold querySelectorAll.
  destruct (nth_error doc k) as [e |] eqn:He.
  - destruct (matches (tagName e)) eqn:Hm.
    + apply existsb_exists. exists k. split; [| apply Nat.eqb_refl].
      apply filter_In. rewrite He. split; [| exact Hm].
      apply in_seq. split; [lia|]. cbn. apply nth_error_Some. congruence.
    + apply not_true_is_false. intros H. apply existsb_exists in H as (j & Hj & Hjk).
      apply Nat.eqb_eq in Hjk. subst j. apply filter_In in Hj as [_ Hj].
      rewrite He in Hj. congruence.
  - apply not_true_is_false. intros H. apply existsb_exists in H as (j & Hj & Hjk).
    apply Nat.eqb_eq in Hjk. subst j. apply filter_In in Hj as [_ Hj].
    now rewrite He in Hj.
Qed.

(** ** The two loops of [processHtmlContent] *)

Lemma mark_pre_fold doc :
  forall pres M C d,
    described doc M C d ->
    described doc
      (fun k => M k || existsb (Nat.eqb k) pres)
      (fun k => C k || existsb (fun j => match parent_of doc j with
                                         | Some p => (k =? p)%nat
                                         | None => false
                                         end) pres)
      (fold_left
         (fun d pre =>
            let d := update_element pre mark_readable d in
            match parent_of d pre with
            | Some p => update_element p add_article_class d
            | None => d
            end)
         pres d).
Proof.
  induction pres as [| j pres IH]; intros M C d Hd; cbn [fold_left].
  - eapply described_ext; [| | exact Hd]; intros k; cbn; now rewrite orb_false_r.
  - pose proof (described_mark _ _ _ _ j Hd) as Hd1.
    pose proof (described_skeleton _ _ _ _ Hd1) as Hsk1.
    cbv zeta. rewrite (proj2 (skeleton_fields _ _ j Hsk1)).
    destruct (parent_of doc j) as [p |] eqn:Hp.
    + pose proof (described_add _ _ _ _ p Hd1) as Hd2.
      eapply described_ext; [| | exact (IH _ _ _ Hd2)]; intros k; unfold with_index;
        cbn [existsb]; rewrite ?Hp.
      * now destruct (k =? j)%nat, (M k).
      * now destruct (k =? p)%nat, (C k).
    + eapply described_ext; [| | exact (IH _ _ _ Hd1)]; intros k; unfold with_index;
        cbn [existsb]; rewrite ?Hp.
      * now destruct (k =? j)%nat, (M k).
      * reflexivity.
Qed.

Lemma mark_code_fold doc :
  is_tree doc ->
  forall els M C d,
    described doc M C d ->
    exists d',
      fold_left
        (fun marked el =>
           match marked with
           | Some d => markCodeParents (List.length d) d (parent_of d el)
           | None => None
           end)
        els (Some d)
      = Some d'
      /\ described doc
           (fun k => M k || existsb (fun j => marked_from doc (parent_of doc j) k) els)
           C d'.
Proof.
  intros Htree. induction els as [| j els IH]; intros M C d Hd; cbn [fold_left].
  - exists d. split; [reflexivity|].
    eapply described_ext; [| | exact Hd]; intros k; cbn; now rewrite ?orb_false_r.
  - pose proof (described_skeleton _ _ _ _ Hd) as Hsk.
    rewrite (proj2 (skeleton_fields _ _ j Hsk)), (skeleton_length _ _ Hsk).
    assert (Hfuel : match parent_of doc j with
                    | Some p => p < List.length doc
                    | None => True
                    end).
    { destruct (parent_of doc j) as [p |] eqn:Hp; [| exact I].
      destruct (parent_in_range _ _ _ Htree Hp). lia. }
    destruct (markCodeParents_described doc Htree _ M C d _ Hd Hfuel)
      as (d1 & Hrun & Hd1).
    rewrite Hrun. destruct (IH _ _ _ Hd1) as (d' & Hfold & Hd').
    exists d'. split; [exact Hfold|].
    eapply described_ext; [| | exact Hd']; intros k; [| reflexivity].
    cbn [existsb]. now rewrite orb_assoc.
Qed.

Lemma is_treeb_sound doc : is_treeb doc = true -> is_tree doc.
Proof.
  unfold is_treeb, is_tree. intros H i e p He Hp.
  rewrite forallb_forall in H.
  assert (Hi : In i (seq 0 (List.length doc))).
  { apply in_seq. split; [lia|]. cbn. apply nth_error_Some. congruence. }
  specialize (H i Hi). rewrite He, Hp in H. now apply Nat.ltb_lt.
Qed.

Lemma skeleton_is_tree d doc : skeleton d = skeleton doc -> is_tree doc -> is_tree d.
Proof.
  intros Hsk Htree i e p He Hp.
  pose proof (proj2 (skeleton_fields d doc i Hsk)) as Hparent.
  unfold parent_of at 1 in Hparent. rewrite He, Hp in Hparent.
  symmetry in Hparent. now destruct (parent_in_range _ _ _ Htree Hparent).
Qed.

(** An element contains code when it is on the chain of the parent of some
    [pre] or [code] element. *)
Lemma contains_code_iff doc k :
  is_tree doc ->
  contains_code doc k = true
  <-> exists j e p,
        nth_error doc j = Some e /\ is_pre_or_code (tagName e) = true
        /\ parentElement e = Some p /\ In k (chain doc p).
Proof.
  intros Htree. unfold contains_code. rewrite existsb_exists. split.
  - intros (j & Hj & Hcode). destruct (nth_error doc j) as [e |] eqn:He; [| discriminate].
    apply andb_true_iff in Hcode as [Htag Hanc].
    destruct (parentElement e) as [p |] eqn:Hp.
    + assert (Hparent : parent_of doc j = Some p) by (unfold parent_of; now rewrite He).
      destruct (parent_in_range _ _ _ Htree Hparent).
      rewrite (ancestors_chain doc _ p Htree) in Hanc by lia.
      apply existsb_exists in Hanc as (x & Hx & Hkx). apply Nat.eqb_eq in Hkx. subst x.
      now exists j, e, p.
    + now destruct (List.length doc).
  - intros (j & e & p & He & Htag & Hp & Hin).
    assert (Hparent : parent_of doc j = Some p) by (unfold parent_of; now rewrite He).
    destruct (parent_in_range _ _ _ Htree Hparent).
    exists j. split; [apply in_seq; lia|].
    rewrite He, Htag, Hp. cbn [andb].
    rewrite (ancestors_chain doc _ p Htree) by lia.
    apply existsb_exists. exists k. split; [exact Hin | apply Nat.eqb_refl].
Qed.

Lemma marked_from_codes doc k :
  is_tree doc ->
  existsb (fun j => marked_from doc (parent_of doc j) k)
          (querySelectorAll is_pre_or_code doc)
  = contains_code doc k.
Proof.
  intros Htree. destruct (contains_code doc k) eqn:Hcc.
  - apply (contains_code_iff doc k Htree) in Hcc as Hwhy.
    destruct Hwhy as (j & e & p & He & Htag & Hp & Hin).
    apply existsb_exists. exists j. split.
    + unfold querySelectorAll. apply filter_In. rewrite He. split; [| exact Htag].
      apply in_seq. split; [lia|]. cbn. apply nth_error_Some. congruence.
    + unfold parent_of. rewrite He, Hp. unfold marked_from. rewrite Hcc, andb_true_r.
      apply existsb_exists. exists k. split; [exact Hin | apply Nat.eqb_refl].
  - apply not_true_is_false. intros H. apply existsb_exists in H as (j & _ & Hj).
    unfold marked_from in Hj. destruct (parent_of doc j); [| discriminate].
    rewrite Hcc, andb_false_r in Hj. discriminate.
Qed.

Lemma parent_of_pre_contains_code doc k :
  is_tree doc ->
  existsb (fun j => match parent_of doc j with
                    | Some p => (k =? p)%nat
                    | None => false
                    end)
          (querySelectorAll is_pre doc) = true ->
  contains_code doc k = true.
Proof.
  intros Htree H. apply existsb_exists in H as (j & Hj & Hp).
  unfold querySelectorAll in Hj. apply filter_In in Hj as [_ Hpre].
  destruct (parent_of doc j) as [p |] eqn:Hparent; [| discriminate].
  apply Nat.eqb_eq in Hp. subst p.
  unfold parent_of in Hparent.
  destruct (nth_error doc j) as [e |] eqn:He; [| discriminate].
  apply (contains_code_iff doc k Htree). exists j, e, k.
  repeat split; try assumption.
  - unfold is_pre_or_code. unfold is_pre in Hpre. now rewrite Hpre.
  - rewrite (chain_unfold doc k Htree). now left.
Qed.

Lemma prepare_document_pointwise doc :
  is_tree doc ->
  exists d',
    prepare_document doc = Some d'
    /\ forall k,
         nth_error d' k
         = option_map (fun e => if is_pre (tagName e) || contains_code doc k
                                then mark_readable e else e)
                      (nth_error doc k).
Proof.
  intros Htree. unfold prepare_document, mark_code_parents, mark_pre_elements.
  pose proof (mark_pre_fold doc (querySelectorAll is_pre doc) _ _ _ (described_refl doc))
    as Hd1.
  set (d1 := fold_left _ (querySelectorAll is_pre doc) doc) in *.
  rewrite (skeleton_querySelectorAll _ _ _ (described_skeleton _ _ _ _ Hd1)).
  destruct (mark_code_fold doc Htree (querySelectorAll is_pre_or_code doc) _ _ _ Hd1)
    as (d' & Hrun & Hd').
  exists d'. split; [exact Hrun|].
  intros k. rewrite (Hd' k). cbn beta. unfold nowhere. cbn [orb].
  rewrite existsb_querySelectorAll, (marked_from_codes doc k Htree).
  destruct (nth_error doc k) as [e |]; [| reflexivity]. cbn [option_map]. f_equal.
  destruct (is_pre (tagName e) || contains_code doc k)%bool eqn:Hmark; [reflexivity|].
  apply orb_false_iff in Hmark as [_ Hcc].
  destruct (existsb _ (querySelectorAll is_pre doc)) eqn:Hparent; [| reflexivity].
  rewrite (parent_of_pre_contains_code doc k Htree Hparent) in Hcc. discriminate.
Qed.

(** X16.  [markCodeParents(node)] walks from [node] to the root and gives
    the preservation marks to exactly those elements of the chain that
    contain a [pre] or a [code]; every other element of the document is
    left as it was, and the walk always ends. *)
Theorem markCodeParents_marks_the_chain :
  forall doc i,
    is_tree doc -> i < List.length doc ->
    exists marked,
      markCodeParents (List.length doc) doc (Some i) = Some marked
      /\ List.length marked = List.length doc
      /\ forall k,
           nth_error marked k
           = option_map (fun e => if existsb (Nat.eqb k) (chain doc i)
                                     && contains_code doc k
                                  then mark_readable e else e)
                        (nth_error doc k).
Proof.
  intros doc i Htree Hi.
  destruct (markCodeParents_described doc Htree (List.length doc) _ _ doc (Some i)
              (described_refl doc) Hi) as (d' & Hrun & Hd').
  exists d'. split; [exact Hrun|]. split.
  - apply skeleton_length. exact (described_skeleton _ _ _ _ Hd').
  - intros k. rewrite (Hd' k). unfold nowhere, marked_from. cbn [orb].
    destruct (nth_error doc k) as [e |]; [| reflexivity]. cbn.
    now destruct (existsb (Nat.eqb k) (chain doc i) && contains_code doc k)%bool.
Qed.

Lemma markCodeParents_marks_the_chain_witness :
  exists marked,
    markCodeParents (List.length sample_document) sample_document (Some 5)
    = Some marked
    /\ List.length marked = List.length sample_document
    /\ forall k,
         nth_error marked k
         = option_map (fun e => if existsb (Nat.eqb k) (chain sample_document 5)
                                   && contains_code sample_document k
                                then mark_readable e else e)
                      (nth_error sample_document k).
Proof.
  apply (markCodeParents_marks_the_chain sample_document 5).
  - apply is_treeb_sound. reflexivity.
  - cbn. lia.
Defined.

(** X17.  The marking of [processHtmlContent] gives the preservation marks
    to every [pre] element and to every element that contains a [pre] or a
    [code], the whole chain of ancestors of each code block up to the root,
    and changes no other element. *)
Theorem prepare_document_marks_code_and_ancestors :
  forall doc,
    is_tree doc ->
    exists prepared,
      prepare_document doc = Some prepared
      /\ List.length prepared = List.length doc
      /\ (forall k,
             nth_error prepared k
             = option_map (fun e => if is_pre (tagName e) || contains_code doc k
                                    then mark_readable e else e)
                          (nth_error doc k))
      /\ (forall j e p k,
             nth_error doc j = Some e -> is_pre_or_code (tagName e) = true ->
             parentElement e = Some p -> In k (chain doc p) ->
             exists e', nth_error prepared k = Some e' /\ is_marked e' = true).
Proof.
  intros doc Htree.
  destruct (prepare_document_pointwise doc Htree) as (d' & Hrun & Hd').
  exists d'. split; [exact Hrun|]. split; [| split; [exact Hd'|]].
  - apply skeleton_length, nth_error_ext. intros k. rewrite !skeleton_nth, (Hd' k).
    destruct (nth_error doc k) as [e |]; [| reflexivity]. cbn.
    now destruct (is_pre (tagName e) || contains_code doc k)%bool.
  - intros j e p k He Htag Hp Hin.
    assert (Hcc : contains_code doc k = true)
      by (apply (contains_code_iff doc k Htree); now exists j, e, p).
    assert (Hk : k < List.length doc).
    { assert (Hparent : parent_of doc j = Some p) by (unfold parent_of; now rewrite He).
      destruct (parent_in_range _ _ _ Htree Hparent) as [Hpj Hj].
      clear - Htree Hin Hpj Hj. revert Hin. generalize dependent j.
      induction p as [p IH] using lt_wf_ind. intros j Hpj Hj.
      rewrite (chain_unfold doc p Htree). intros [<- | Hin]; [lia|].
      destruct (parent_of doc p) as [q |] eqn:Hq; [| contradiction].
      destruct (parent_in_range _ _ _ Htree Hq). apply (IH q) with (j := p); auto; lia. }
    apply nth_error_Some in Hk. destruct (nth_error doc k) as [ek |] eqn:Hek; [| congruence].
    exists (mark_readable ek). split; [| apply mark_readable_is_marked].
    rewrite (Hd' k), Hek. cbn. now rewrite Hcc, orb_true_r.
Qed.

Lemma prepare_document_marks_code_and_ancestors_witness :
  exists prepared,
    prepare_document sample_document = Some prepared
    /\ List.length prepared = List.length sample_document
    /\ (forall k,
           nth_error prepared k
           = option_map (fun e => if is_pre (tagName e)
                                     || contains_code sample_document k
                                  then mark_readable e else e)
                        (nth_error sample_document k))
    /\ (forall j e p k,
           nth_error sample_document j = Some e ->
           is_pre_or_code (tagName e) = true ->
           parentElement e = Some p -> In k (chain sample_document p) ->
           exists e', nth_error prepared k = Some e' /\ is_marked e' = true).
Proof.
  apply (prepare_document_marks_code_and_ancestors sample_document).
  apply is_treeb_sound. reflexivity.
Defined.

(** X18.  The marking is idempotent: run on a document that was already
    prepared, it returns the same document, with no class added twice and
    no attribute duplicated. *)
Theorem prepare_document_is_idempotent :
  forall doc prepared,
    is_tree doc ->
    prepare_document doc = Some prepared ->
    prepare_document prepared = Some prepared.
Proof.
  intros doc prepared Htree Hrun.
  destruct (prepare_document_pointwise doc Htree) as (d' & Hrun' & Hd').
  rewrite Hrun in Hrun'. injection Hrun' as <-.
  assert (Hsk : skeleton prepared = skeleton doc).
  { apply nth_error_ext. intros k. rewrite !skeleton_nth, (Hd' k).
    destruct (nth_error doc k) as [e |]; [| reflexivity]. cbn.
    now destruct (is_pre (tagName e) || contains_code doc k)%bool. }
  pose proof (skeleton_is_tree _ _ Hsk Htree) as Htree'.
  destruct (prepare_document_pointwise prepared Htree') as (d'' & Hrun'' & Hd'').
  rewrite Hrun''. f_equal. apply nth_error_ext. intros k.
  rewrite (Hd'' k), (skeleton_contains_code _ _ k Hsk), (Hd' k).
  destruct (nth_error doc k) as [e |]; [| reflexivity]. cbn.
  destruct (is_pre (tagName e) || contains_code doc k)%bool eqn:Hmark;
    cbn [option_map].
  - change (tagName (mark_readable e)) with (tagName e). now rewrite Hmark, mark_mark.
  - now rewrite Hmark.
Qed.

Lemma prepare_document_is_idempotent_witness :
  prepare_document sample_document = Some sample_prepared
  /\ prepare_document sample_prepared = Some sample_prepared.
Proof.
  split; [reflexivity|].
  apply (prepare_document_is_idempotent sample_document sample_prepared).
  - apply is_treeb_sound. reflexivity.
  - reflexivity.
Defined.
